(** * Clay: the Hub event bus and the Attention admission controller

    A shallow embedding of [src/faculties/attention.ts] (class [Attention])
    and of the Hub implementation (class [HubImpl], the variant that keeps
    [handlers_of_role] and [all_handlers]), with the properties of the
    design document stated and proved over it; then of the port of a
    faculty ([core/hub-port-impl.ts]), of the filter classes
    ([core/filters.ts]) and of the Hub that keeps an array of registrations
    ([core/hub-impl.ts]), with properties read off the code.

    Conventions of the embedding.
    - A string is the sequence of its characters, one character of the
      model for one code unit of the JavaScript string, so that [length]
      and [substring] count alike.
    - Character counts, priorities and timestamps ([Date.getTime()]) are
      integers ([Z]); the configuration fields [maxSize] and
      [max_entry_length] are character counts.
    - The remaining JavaScript numbers (rates, ratios, focus weights) are
      exact rationals ([Q]).  A quotient whose divisor is zero is not a
      finite number in JavaScript: it is [None] here, every comparison with
      it is false, and [Math.floor] keeps it.
    - A JavaScript [Map] that is iterated is an association list in
      insertion order; a [Map] that is only read and written by key is a
      [gmap].
    - [MaxPriorityQueue] comes from the package
      [@datastructures-js/priority-queue]; it is taken as an interface
      (class [MaxPriorityQueue] below) with the contract of a max-priority
      queue.
    - Calls to the logger do not change the state of [Attention]; the Hub
      records them in the trace of each call.
    - For the controller the port is a sink: [hubPort.appendActivity]
      returns, and what the controller publishes is the list of bodies it
      passed to it.  What the Hub does with an activity is the subject of
      [Hub.appendActivity].
    - An object that is compared by identity (a handler, a function) has a
      number for its identity; a [Set] of such objects is the list of its
      members in insertion order.
    - The Hub does not follow what the body of a handler does: a call of
      [handle] returns a promise or throws, and leaves the Hub as it is.
    - The counter [activitySequence] and the fields of a [Date] are natural
      numbers. *)

From Stdlib Require Import ZArith QArith Qround List String Ascii Lia Bool.
From Stdlib Require Import Permutation Sorted.
From Stdlib Require Import DecimalString DecimalNat.
From stdpp Require Import gmap strings.
Import ListNotations.

Local Open Scope Z_scope.

(** ** Results of calls *)

(** A synchronous call either returns or throws. *)
Inductive completion (A : Type) : Type :=
| Normal (a : A)
| Throw (error : string).
Arguments Normal {A} a.
Arguments Throw {A} error.

(** The promise returned by an [async] method: a [throw] in its body
    rejects the promise, it is not raised at the call. *)
Inductive promise (A : Type) : Type :=
| Fulfilled (a : A)
| Rejected (error : string).
Arguments Fulfilled {A} a.
Arguments Rejected {A} error.

(** ** JavaScript numbers *)

Module JsNum.

(** [a / b]; [None] when the quotient is not a finite number. *)
Definition div (a b : Q) : option Q :=
  if Qeq_bool b 0 then None else Some (a / b)%Q.

Definition mul (a : Q) (b : option Q) : option Q :=
  match b with Some b => Some (a * b)%Q | None => None end.

(** [Math.floor]. *)
Definition floor (a : option Q) : option Z :=
  match a with Some a => Some (Qfloor a) | None => None end.

(** [n <= x] for an integer [n]; false when [x] is not a number. *)
Definition leb (n : Z) (x : option Z) : bool :=
  match x with Some x => n <=? x | None => false end.

(** [n <= x] and [n > x] for an integer [n] and a rational [x]. *)
Definition Zle_Q (n : Z) (x : Q) : bool := Qle_bool (inject_Z n) x.
Definition Zgt_Q (n : Z) (x : Q) : bool := negb (Qle_bool (inject_Z n) x).

End JsNum.

(** ** Data model of [attention.ts] *)

Record AttentionEntry : Type := mkEntry {
  role : string;
  timestamp : Z;
  priority : Z;
  content : string
}.

(** [entry.content.length]. *)
Definition content_length (e : AttentionEntry) : Z :=
  Z.of_nat (String.length (content e)).

(** [entries.reduce((sum, e) => sum + e.content.length, 0)]. *)
Definition total_length (l : list AttentionEntry) : Z :=
  fold_left (fun sum e => sum + content_length e) l 0.

Record AttentionConfig : Type := mkConfig {
  maxSize : Z;
  clearPercentage : Q;
  reaction_time : Q;
  size_per_second : Q;
  max_entry_length : Z
}.

Definition defaultConfig : AttentionConfig :=
  {| maxSize := 10000;
     clearPercentage := 1 # 2;
     reaction_time := 200;
     size_per_second := 500;
     max_entry_length := 1000 |}.

(** A [Conscious] activity: [readable()] returns the rendering or throws. *)
Record Conscious : Type := mkConscious {
  c_id : string;
  c_role : string;
  c_timestamp : Z;
  c_action : string;
  c_priority : Z;
  readable : completion string
}.

(** ** [consciousToEntry] *)

Definition truncation_marker : string := "...".

(** [s.substring(0, e)]: a negative [e] is taken as [0], an [e] beyond
    the end as the length. *)
Definition js_substring0 (s : string) (e : Z) : string :=
  substring 0 (Z.to_nat e) s.

Definition truncate (max_len : Z) (content : string) : string :=
  if Z.of_nat (String.length content) >? max_len
  then js_substring0 content (max_len - 3) +:+ truncation_marker
  else content.

Definition consciousToEntry (cfg : AttentionConfig) (activity : Conscious)
  : option AttentionEntry :=
  match readable activity with
  | Throw _ => None
  | Normal content =>
      Some {| role := c_role activity;
              timestamp := c_timestamp activity;
              priority := c_priority activity;
              content := truncate (max_entry_length cfg) content |}
  end.

(** [s] ends in the marker. *)
Definition ends_in_marker (s : string) : Prop :=
  exists prefix, s = prefix +:+ truncation_marker.

(** ** The priority queue of pending entries *)

(** [new MaxPriorityQueue<AttentionEntry>((a) => a.priority)] and the
    methods the controller calls on it.  [pq_items] lists what the queue
    holds; the queue fixes no particular order for it. *)
Class MaxPriorityQueue (PQ : Type) : Type := {
  pq_new : PQ;
  enqueue : AttentionEntry -> PQ -> PQ;
  dequeue : PQ -> option (AttentionEntry * PQ);
  pq_items : PQ -> list AttentionEntry
}.

(** [queue.size()] and [queue.isEmpty()]. *)
Definition pq_size {PQ} `{MaxPriorityQueue PQ} (q : PQ) : nat :=
  length (pq_items q).

Definition isEmpty {PQ} `{MaxPriorityQueue PQ} (q : PQ) : bool :=
  match pq_items q with [] => true | _ :: _ => false end.

(** The contract of the queue: it holds what was enqueued and not yet
    dequeued, and [dequeue] removes an entry of the highest priority. *)
Record MaxPriorityQueueLaws (PQ : Type) `{MaxPriorityQueue PQ} : Prop := {
  pq_new_items : pq_items pq_new = [];
  enqueue_items : forall e q,
    Permutation (pq_items (enqueue e q)) (e :: pq_items q);
  dequeue_none : forall q, dequeue q = None <-> pq_items q = [];
  dequeue_some : forall q e q',
    dequeue q = Some (e, q') ->
    Permutation (pq_items q) (e :: pq_items q') /\
    Forall (fun x => priority x <= priority e) (pq_items q')
}.

(** A queue kept as the list of its entries in the order they came:
    [dequeue] removes the first of the entries of the highest priority. *)
Definition list_enqueue (e : AttentionEntry) (q : list AttentionEntry)
  : list AttentionEntry :=
  q ++ [e].

Fixpoint list_dequeue (q : list AttentionEntry)
  : option (AttentionEntry * list AttentionEntry) :=
  match q with
  | [] => None
  | x :: q' =>
      match list_dequeue q' with
      | None => Some (x, [])
      | Some (m, rest) =>
          if priority m <=? priority x then Some (x, q') else Some (m, x :: rest)
      end
  end.

#[export] Instance ListQueue : MaxPriorityQueue (list AttentionEntry) := {
  pq_new := [];
  enqueue := list_enqueue;
  dequeue := list_dequeue;
  pq_items := fun q => q
}.

(** ** The controller *)

(** The outward notifications ([AttentionClearedBody], [AttentionAddBody]). *)
Inductive AttentionBody : Type :=
| AttentionCleared (clearedEntries : list AttentionEntry)
    (clearedCount totalCount clearedSize remainingSize : Z)
| AttentionAdd (addedEntries attentionField : list AttentionEntry)
    (currentSize maxSize : Z) (usage : option Q).

Definition action (b : AttentionBody) : string :=
  match b with
  | AttentionCleared _ _ _ _ _ => "cleared"
  | AttentionAdd _ _ _ _ _ => "add"
  end.

Section Controller.

Context {PQ : Type} `{MaxPriorityQueue PQ}.

(** The fields of class [Attention].  [hubPort] is the role of the bound
    port, if any; [paceTimer] tells whether the interval timer is set. *)
Record Attention : Type := mkAttention {
  hubPort : option string;
  config : AttentionConfig;
  focuses : gmap string Q;
  attentionField : list AttentionEntry;
  currentSize : Z;
  pendingActivitiesByRole : list (string * PQ);
  paceTimer : bool
}.

(** [new Attention(config)]. *)
Definition newAttention (cfg : AttentionConfig) : Attention :=
  {| hubPort := None; config := cfg; focuses := ∅; attentionField := [];
     currentSize := 0; pendingActivitiesByRole := []; paceTimer := false |}.

Definition setHub (port : string) (s : Attention) : Attention :=
  {| hubPort := Some port; config := config s; focuses := focuses s;
     attentionField := attentionField s; currentSize := currentSize s;
     pendingActivitiesByRole := pendingActivitiesByRole s;
     paceTimer := paceTimer s |}.

Definition unsetHub (s : Attention) : Attention :=
  {| hubPort := None; config := config s; focuses := focuses s;
     attentionField := attentionField s; currentSize := currentSize s;
     pendingActivitiesByRole := pendingActivitiesByRole s;
     paceTimer := paceTimer s |}.

Definition startPaceTimer (s : Attention) : Attention :=
  if paceTimer s then s
  else {| hubPort := hubPort s; config := config s; focuses := focuses s;
          attentionField := attentionField s; currentSize := currentSize s;
          pendingActivitiesByRole := pendingActivitiesByRole s;
          paceTimer := true |}.

Definition stopPaceTimer (s : Attention) : Attention :=
  if paceTimer s
  then {| hubPort := hubPort s; config := config s; focuses := focuses s;
          attentionField := attentionField s; currentSize := currentSize s;
          pendingActivitiesByRole := pendingActivitiesByRole s;
          paceTimer := false |}
  else s.

(** [start()]: an [async] method; without a port its promise rejects.
    Registering the handler for conscious activities acts on the port and
    leaves the controller as it is. *)
Definition start (s : Attention) : Attention * promise unit :=
  match hubPort s with
  | None => (s, Rejected "Hub is not set")
  | Some _ => (startPaceTimer s, Fulfilled tt)
  end.

(** [stop()]. *)
Definition stop (s : Attention) : Attention * promise unit :=
  let s1 := stopPaceTimer s in
  ({| hubPort := hubPort s1; config := config s1; focuses := focuses s1;
      attentionField := []; currentSize := 0;
      pendingActivitiesByRole := []; paceTimer := paceTimer s1 |},
   Fulfilled tt).

Definition sleep (s : Attention) : Attention * promise unit := (s, Fulfilled tt).
Definition wakeUp (s : Attention) : Attention * promise unit := (s, Fulfilled tt).

(** [focus < 0 || focus > 1]. *)
Definition focus_out_of_range (focus : Q) : bool :=
  negb (Qle_bool 0 focus) || negb (Qle_bool focus 1).

(** [setFacultyFocus(facultyName, focus)]. *)
Definition setFacultyFocus (facultyName : string) (focus : Q) (s : Attention)
  : completion Attention :=
  if focus_out_of_range focus then Throw "focus must be between 0 and 1"
  else Normal
    {| hubPort := hubPort s; config := config s;
       focuses := <[facultyName := focus]> (focuses s);
       attentionField := attentionField s; currentSize := currentSize s;
       pendingActivitiesByRole := pendingActivitiesByRole s;
       paceTimer := paceTimer s |}.

(** [getFacultyFocus(role)]: [this.focuses.get(role) ?? 1]. *)
Definition getFacultyFocus (s : Attention) (role : string) : Q :=
  match focuses s !! role with Some f => f | None => 1%Q end.

(** The queue of [role] receives [entry]; a role without a queue gets a
    new one, behind the roles already in the map. *)
Fixpoint pending_enqueue (role : string) (entry : AttentionEntry)
  (pending : list (string * PQ)) : list (string * PQ) :=
  match pending with
  | [] => [(role, enqueue entry pq_new)]
  | (r, q) :: rest =>
      if String.eqb r role then (r, enqueue entry q) :: rest
      else (r, q) :: pending_enqueue role entry rest
  end.

(** [handleConsciousActivity(activity)]: an activity that cannot be
    rendered is ignored. *)
Definition handleConsciousActivity (activity : Conscious) (s : Attention)
  : Attention :=
  match consciousToEntry (config s) activity with
  | None => s
  | Some entry =>
      {| hubPort := hubPort s; config := config s; focuses := focuses s;
         attentionField := attentionField s; currentSize := currentSize s;
         pendingActivitiesByRole :=
           pending_enqueue (role entry) entry (pendingActivitiesByRole s);
         paceTimer := paceTimer s |}
  end.

(** *** [clearAttentionField] *)

(** [Math.floor(this.attentionField.length * this.config.clearPercentage)]. *)
Definition clearCount (s : Attention) : Z :=
  Qfloor (inject_Z (Z.of_nat (length (attentionField s))) * clearPercentage (config s)).

(** [splice(0, clearCount)] removes and returns the first [clearCount]
    entries: none for a negative count, all of them for a count beyond the
    length. *)
Definition clearAttentionField (s : Attention) : Attention * list AttentionBody :=
  let count := clearCount s in
  if count =? 0 then (s, [])
  else
    let totalCount := Z.of_nat (length (attentionField s)) in
    let clearedEntries := firstn (Z.to_nat count) (attentionField s) in
    let remaining := skipn (Z.to_nat count) (attentionField s) in
    let clearedSize := total_length clearedEntries in
    let remainingSize := total_length remaining in
    ({| hubPort := hubPort s; config := config s; focuses := focuses s;
        attentionField := remaining; currentSize := remainingSize;
        pendingActivitiesByRole := pendingActivitiesByRole s;
        paceTimer := paceTimer s |},
     match hubPort s with
     | Some _ =>
         [AttentionCleared clearedEntries count totalCount clearedSize remainingSize]
     | None => []
     end).

(** *** [processPendingActivities] *)

(** [size_per_second * (reaction_time / 1000)]. *)
Definition maxAddSize (cfg : AttentionConfig) : Q :=
  (size_per_second cfg * (reaction_time cfg / 1000))%Q.

(** [while (!queue.isEmpty()) { entry = queue.dequeue(); if (entry)
    entries.push(entry) }], with the number of iterations bounded by
    [fuel]; the size of the queue is fuel enough ([drain_spec]). *)
Fixpoint drain_loop (fuel : nat) (q : PQ) : list AttentionEntry * PQ :=
  match fuel with
  | O => ([], q)
  | S fuel' =>
      if isEmpty q then ([], q)
      else
        match dequeue q with
        | Some (entry, q') =>
            let (entries, q'') := drain_loop fuel' q' in (entry :: entries, q'')
        | None => drain_loop fuel' q
        end
  end.

Definition drain (q : PQ) : list AttentionEntry * PQ :=
  drain_loop (pq_size q) q.

(** [allEntriesByRole], each role with its emptied queue. *)
Definition drainAll (pending : list (string * PQ))
  : list (string * (list AttentionEntry * PQ)) :=
  map (fun rq => (fst rq, drain (snd rq))) pending.

(** [totalSize]: the content length of everything that was pending. *)
Definition totalSize (all : list (string * (list AttentionEntry * PQ))) : Z :=
  fold_left (fun sum rq => sum + total_length (fst (snd rq))) all 0.

(** [totalFocus]: the focus of every key of [allEntriesByRole]. *)
Definition totalFocus (s : Attention)
  (all : list (string * (list AttentionEntry * PQ))) : Q :=
  fold_left (fun sum rq => (sum + getFacultyFocus s (fst rq))%Q) all 0%Q.

(** [Math.floor(maxAddSize * (roleFocus / totalFocus))]. *)
Definition roleMaxSize (s : Attention) (total : Q) (role : string) : option Z :=
  JsNum.floor (JsNum.mul (maxAddSize (config s))
                 (JsNum.div (getFacultyFocus s role) total)).

(** The loop over the entries of one role: an entry that fits the rest of
    the share is taken, any other goes back to the queue of the role. *)
Fixpoint selectEntries (roleMax : option Z) (roleAddedSize : Z)
  (entries : list AttentionEntry) (q : PQ) : list AttentionEntry * PQ :=
  match entries with
  | [] => ([], q)
  | entry :: rest =>
      let entrySize := content_length entry in
      if JsNum.leb (roleAddedSize + entrySize) roleMax
      then let (added, q') :=
             selectEntries roleMax (roleAddedSize + entrySize) rest q in
           (entry :: added, q')
      else selectEntries roleMax roleAddedSize rest (enqueue entry q)
  end.

(** Steps 1 to 3: what each role contributes to [toAdd], and the queue
    the role is left with. *)
Definition allocate (s : Attention)
  : list (string * (list AttentionEntry * PQ)) :=
  let all := drainAll (pendingActivitiesByRole s) in
  if JsNum.Zle_Q (totalSize all) (maxAddSize (config s))
  then all
  else
    let total := totalFocus s all in
    map (fun rq =>
           (fst rq,
            selectEntries (roleMaxSize s total (fst rq)) 0
              (fst (snd rq)) (snd (snd rq))))
        all.

(** [toAdd] before it is sorted: the contributions in the order of the
    roles in the map. *)
Definition toAdd (alloc : list (string * (list AttentionEntry * PQ)))
  : list AttentionEntry :=
  concat (map (fun rq => fst (snd rq)) alloc).

Definition pendingAfter (alloc : list (string * (list AttentionEntry * PQ)))
  : list (string * PQ) :=
  map (fun rq => (fst rq, snd (snd rq))) alloc.

(** [toAdd.sort((a, b) => a.timestamp.getTime() - b.timestamp.getTime())]:
    the sort is stable, entries of one timestamp keep their order. *)
Fixpoint insert_by_timestamp (e : AttentionEntry) (l : list AttentionEntry)
  : list AttentionEntry :=
  match l with
  | [] => [e]
  | x :: l' =>
      if timestamp e <=? timestamp x then e :: l
      else x :: insert_by_timestamp e l'
  end.

Definition sort_by_timestamp (l : list AttentionEntry) : list AttentionEntry :=
  fold_right insert_by_timestamp [] l.

(** [this.currentSize + addedSize > this.config.maxSize]. *)
Definition overflows (s : Attention) (addedSize : Z) : bool :=
  currentSize s + addedSize >? maxSize (config s).

(** The admission tick.  Its only suspension point is the [await] of
    [clearAttentionField], whose body has none; the tick is one step. *)
Definition processPendingActivities (s : Attention)
  : Attention * list AttentionBody :=
  let alloc := allocate s in
  let sorted := sort_by_timestamp (toAdd alloc) in
  let addedSize := total_length (toAdd alloc) in
  let s1 :=
    {| hubPort := hubPort s; config := config s; focuses := focuses s;
       attentionField := attentionField s; currentSize := currentSize s;
       pendingActivitiesByRole := pendingAfter alloc;
       paceTimer := paceTimer s |} in
  let (s2, cleared) :=
    if overflows s1 addedSize then clearAttentionField s1 else (s1, []) in
  let s3 :=
    {| hubPort := hubPort s2; config := config s2; focuses := focuses s2;
       attentionField := attentionField s2 ++ sorted;
       currentSize := currentSize s2 + addedSize;
       pendingActivitiesByRole := pendingActivitiesByRole s2;
       paceTimer := paceTimer s2 |} in
  (s3,
   cleared ++
   match hubPort s3 with
   | Some _ =>
       [AttentionAdd sorted (attentionField s3) (currentSize s3)
          (maxSize (config s3))
          (JsNum.div (inject_Z (currentSize s3)) (inject_Z (maxSize (config s3))))]
   | None => []
   end).

(** The content length of everything pending. *)
Definition pendingLength (pending : list (string * PQ)) : Z :=
  fold_left (fun sum rq => sum + total_length (pq_items (snd rq))) pending 0.

(** The allocation in the words of the design: of the entries of a role,
    in the order given, those that fit what is left of the share are taken,
    the others deferred.  [used] is the length taken so far. *)
Fixpoint takeWithinShare (share : option Z) (used : Z)
  (entries : list AttentionEntry) : list AttentionEntry * list AttentionEntry :=
  match entries with
  | [] => ([], [])
  | entry :: rest =>
      if JsNum.leb (used + content_length entry) share
      then let (taken, deferred) :=
             takeWithinShare share (used + content_length entry) rest in
           (entry :: taken, deferred)
      else let (taken, deferred) := takeWithinShare share used rest in
           (taken, entry :: deferred)
  end.


(** Priorities do not increase along a list. *)
Definition by_priority (l : list AttentionEntry) : Prop :=
  StronglySorted (fun a b => priority b <= priority a) l.

(** What a tick appends to the field, the total length of it, and the
    entries it removes from the front of the field. *)
Definition admitted (s : Attention) : list AttentionEntry :=
  sort_by_timestamp (toAdd (allocate s)).

Definition addedSize (s : Attention) : Z :=
  total_length (toAdd (allocate s)).

Definition evicted (s : Attention) : list AttentionEntry :=
  if overflows s (addedSize s)
  then firstn (Z.to_nat (clearCount s)) (attentionField s)
  else [].

Definition kept (s : Attention) : list AttentionEntry :=
  if overflows s (addedSize s)
  then skipn (Z.to_nat (clearCount s)) (attentionField s)
  else attentionField s.

(** [clearAttentionField] returns at once when its count is zero: only
    otherwise does the tick compute [currentSize] anew.  [sizeAfter] is
    [currentSize] at the end of the tick. *)
Definition clears (s : Attention) : bool :=
  overflows s (addedSize s) && negb (clearCount s =? 0).

Definition sizeAfter (s : Attention) : Z :=
  (if clears s then total_length (kept s) else currentSize s) + addedSize s.

(** *** The operations of the controller *)

Inductive Operation : Type :=
| OpSetHub (port : string)
| OpUnsetHub
| OpStart
| OpStop
| OpSleep
| OpWakeUp
| OpSetFacultyFocus (facultyName : string) (focus : Q)
| OpGetFacultyFocus (role : string)
| OpConscious (activity : Conscious)
| OpTick.

(** How a call ends for its caller: a synchronous method returns or
    throws; an [async] method hands back a promise. *)
Inductive CallEnd : Type :=
| Returned
| Raised (error : string)
| Promised (p : promise unit).

Definition promised (r : Attention * promise unit)
  : Attention * list AttentionBody * CallEnd :=
  (fst r, [], Promised (snd r)).

(** One call on the controller: the state after it, what it published
    through the port, and how it ended.  [OpConscious] is the handler
    registered by [start], [OpTick] the timer callback, which calls
    [processPendingActivities] and does not wait for it. *)
Definition run (op : Operation) (s : Attention)
  : Attention * list AttentionBody * CallEnd :=
  match op with
  | OpSetHub port => (setHub port s, [], Returned)
  | OpUnsetHub => (unsetHub s, [], Returned)
  | OpStart => promised (start s)
  | OpStop => promised (stop s)
  | OpSleep => promised (sleep s)
  | OpWakeUp => promised (wakeUp s)
  | OpSetFacultyFocus facultyName focus =>
      match setFacultyFocus facultyName focus s with
      | Normal s' => (s', [], Returned)
      | Throw error => (s, [], Raised error)
      end
  | OpGetFacultyFocus _ => (s, [], Returned)
  | OpConscious activity =>
      (handleConsciousActivity activity s, [], Promised (Fulfilled tt))
  | OpTick =>
      let (s', out) := processPendingActivities s in (s', out, Returned)
  end.

(** The timer callback runs only while the timer is set. *)
Definition enabled (op : Operation) (s : Attention) : bool :=
  match op with
  | OpTick => paceTimer s
  | _ => true
  end.

(** The states the controller can be in. *)
Inductive reachable (cfg : AttentionConfig) : Attention -> Prop :=
| reachable_new : reachable cfg (newAttention cfg)
| reachable_run (op : Operation) (s : Attention) :
    reachable cfg s -> enabled op s = true ->
    reachable cfg (fst (fst (run op s))).

(** A sequence of calls, each made in the state the last one left. *)
Fixpoint run_all (ops : list Operation) (s : Attention) : Attention :=
  match ops with
  | [] => s
  | op :: rest => run_all rest (fst (fst (run op s)))
  end.

Fixpoint all_enabled (ops : list Operation) (s : Attention) : bool :=
  match ops with
  | [] => true
  | op :: rest => enabled op s && all_enabled rest (fst (fst (run op s)))
  end.

(** Timestamps do not decrease along a list. *)
Definition chronological (l : list AttentionEntry) : Prop :=
  StronglySorted (fun a b => timestamp a <= timestamp b) l.

End Controller.

Arguments Attention PQ : clear implicits.

(** ** The Hub *)

Module Hub.

Record ActivityBody : Type := mkBody { action : string }.

Record Activity : Type := mkActivity {
  id : string;
  role : string;
  timestamp : Z;
  details : ActivityBody
}.

Record ActivityMask : Type := mkMask {
  mask_role : option string;
  verb : option string
}.

(** [handler.condition]: a predicate ([ActivityFilter]), which returns or
    throws, or a mask. *)
Inductive Condition : Type :=
| Filter (filter : Activity -> completion bool)
| Mask (mask : ActivityMask).

(** An [ActivityHandler] object; [ref] is its identity, by which a [Set]
    tells handlers apart.  [handle(activity)] returns a promise, fulfilled
    or rejected, or throws before it returns one.  The model does not
    follow what the body of a handler does to the Hub. *)
Record ActivityHandler : Type := mkHandler {
  ref : nat;
  condition : Condition;
  handler_role : string;
  description : string;
  handle : Activity -> completion (promise unit)
}.

Record Faculty : Type := mkFaculty { name : string }.

Record HubImpl : Type := mkHub {
  faculties : gmap string Faculty;
  running : bool;
  handlers_of_role : gmap string (list ActivityHandler);
  all_handlers : list ActivityHandler
}.

Definition newHub : HubImpl :=
  {| faculties := ∅; running := false; handlers_of_role := ∅; all_handlers := [] |}.

(** What a call does besides changing the Hub: the lines it logs and the
    handlers it calls, in order. *)
Inductive Event : Type :=
| LogWarn (message : string)
| LogInfo (message : string)
| LogDebug (message : string)
| LogError (message : string) (error : string) (activity : string)
| Handle (handler : nat) (activity : Activity).

(** *** The monad of Hub methods: state, trace and exceptions *)

Record Run (A : Type) : Type := mkRun {
  value : completion A;
  after : HubImpl;
  trace : list Event
}.
Arguments mkRun {A} value after trace.
Arguments value {A} r.
Arguments after {A} r.
Arguments trace {A} r.

Definition M (A : Type) : Type := HubImpl -> Run A.

Definition ret {A} (a : A) : M A :=
  fun h => mkRun (Normal a) h [].

Definition bind {A B} (m : M A) (k : A -> M B) : M B :=
  fun h =>
    let r := m h in
    match value r with
    | Throw error => mkRun (Throw error) (after r) (trace r)
    | Normal a =>
        let r' := k a (after r) in
        mkRun (value r') (after r') (trace r ++ trace r')
    end.

Definition get : M HubImpl := fun h => mkRun (Normal h) h [].
Definition put (h : HubImpl) : M unit := fun _ => mkRun (Normal tt) h [].
Definition emit (e : Event) : M unit := fun h => mkRun (Normal tt) h [e].
Definition raise {A} (error : string) : M A := fun h => mkRun (Throw error) h [].
Definition lift {A} (c : completion A) : M A :=
  match c with Normal a => ret a | Throw error => raise error end.

Declare Scope hub_scope.
Delimit Scope hub_scope with hub.
Notation "'do' x <- m ; k" := (bind m (fun x => k))
  (at level 10, x name, m at level 100, k at level 200) : hub_scope.
Notation "m ;; k" := (bind m (fun _ => k))
  (at level 100, k at level 200, right associativity) : hub_scope.
Local Open Scope hub_scope.

(** *** Sets of handlers, in insertion order *)

Definition set_has (handler : ActivityHandler) (s : list ActivityHandler) : bool :=
  existsb (fun x => Nat.eqb (ref x) (ref handler)) s.

Definition set_add (handler : ActivityHandler) (s : list ActivityHandler)
  : list ActivityHandler :=
  if set_has handler s then s else s ++ [handler].

Definition set_delete (handler : ActivityHandler) (s : list ActivityHandler)
  : list ActivityHandler :=
  List.filter (fun x => negb (Nat.eqb (ref x) (ref handler))) s.

(** *** Registration *)

Definition connectFaculty (role : string) (faculty : Faculty) : M unit :=
  do h <- get ;
  match faculties h !! role with
  | Some _ => emit (LogWarn ("职位 " +:+ role +:+ " 已经被占用了"))
  | None =>
      put {| faculties := <[role := faculty]> (faculties h);
             running := running h;
             handlers_of_role := handlers_of_role h;
             all_handlers := all_handlers h |} ;;
      emit (LogInfo ("Faculty " +:+ role +:+ " 已注册"))
  end.

Definition registerActivityHandler (handler : ActivityHandler) : M unit :=
  do h <- get ;
  let handlers :=
    match handlers_of_role h !! handler_role handler with
    | Some handlers => handlers
    | None => []
    end in
  put {| faculties := faculties h; running := running h;
         handlers_of_role :=
           <[handler_role handler := set_add handler handlers]> (handlers_of_role h);
         all_handlers := set_add handler (all_handlers h) |} ;;
  emit (LogDebug ("注册活动处理器: " +:+ description handler)).

Definition unregisterActivityHandler (handler : ActivityHandler) : M unit :=
  do h <- get ;
  put {| faculties := faculties h; running := running h;
         handlers_of_role :=
           alter (set_delete handler) (handler_role handler) (handlers_of_role h);
         all_handlers := set_delete handler (all_handlers h) |} ;;
  emit (LogDebug ("注销活动处理器: " +:+ description handler)).

Definition unregisterAllActivityHandler (role : string) : M unit :=
  do h <- get ;
  let handlers :=
    match handlers_of_role h !! role with
    | Some handlers => handlers
    | None => []
    end in
  put {| faculties := faculties h; running := running h;
         handlers_of_role := delete role (handlers_of_role h);
         all_handlers :=
           fold_left (fun all handler => set_delete handler all)
             handlers (all_handlers h) |} ;;
  fold_right
    (fun handler k =>
       emit (LogDebug ("注销活动处理器: " +:+ description handler)) ;; k)
    (ret tt) handlers.

Definition disconnectFaculty (role : string) : M unit :=
  do h <- get ;
  match faculties h !! role with
  | None => emit (LogWarn ("Faculty " +:+ role +:+ " 不存在"))
  | Some _ =>
      put {| faculties := delete role (faculties h);
             running := running h;
             handlers_of_role := handlers_of_role h;
             all_handlers := all_handlers h |} ;;
      unregisterAllActivityHandler role ;;
      emit (LogInfo ("Faculty " +:+ role +:+ " 已注销"))
  end.

(** [resume()] and [stop()]; their promises are always fulfilled. *)
Definition resume : M unit :=
  do h <- get ;
  if running h then emit (LogWarn "Hub 已经在运行中")
  else
    emit (LogInfo "Hub 启动中...") ;;
    put {| faculties := faculties h; running := true;
           handlers_of_role := handlers_of_role h;
           all_handlers := all_handlers h |}.

Definition stop : M unit :=
  do h <- get ;
  if negb (running h) then emit (LogWarn "Hub 已经停止")
  else
    emit (LogInfo "Hub 停止中...") ;;
    put {| faculties := faculties h; running := false;
           handlers_of_role := handlers_of_role h;
           all_handlers := all_handlers h |}.

(** *** Dispatch *)

Definition option_differs (expected : option string) (actual : string) : bool :=
  match expected with
  | Some e => negb (String.eqb actual e)
  | None => false
  end.

(** [matchCondition(activity, condition)]. *)
Definition matchCondition (activity : Activity) (cond : ActivityMask) : bool :=
  if option_differs (mask_role cond) (role activity) then false
  else if option_differs (verb cond) (action (details activity)) then false
  else true.

(** The callback of [Array.from(this.all_handlers).filter(...)]. *)
Definition isMatch (activity : Activity) (handler : ActivityHandler)
  : completion bool :=
  match condition handler with
  | Filter filter => filter activity
  | Mask cond => Normal (matchCondition activity cond)
  end.

(** [filter]: an exception of the callback ends it. *)
Fixpoint matchedHandlers (activity : Activity) (handlers : list ActivityHandler)
  : M (list ActivityHandler) :=
  match handlers with
  | [] => ret []
  | handler :: rest =>
      do keep <- lift (isMatch activity handler) ;
      do matched <- matchedHandlers activity rest ;
      ret (if keep then handler :: matched else matched)
  end.

Definition activity_name (activity : Activity) : string :=
  role activity +:+ "." +:+ action (details activity).

(** A promise of [triggerHandlers]: [handle(activity).catch(...)].  It is
    fulfilled whatever the promise of the handler does; [on_settle] is what
    its rejection callback logs once the promise of the handler rejects. *)
Record Caught : Type := mkCaught {
  settles : promise unit;
  on_settle : list Event
}.

Definition catch (handler : ActivityHandler) (activity : Activity)
  (p : promise unit) : Caught :=
  match p with
  | Fulfilled _ => {| settles := Fulfilled tt; on_settle := [] |}
  | Rejected error =>
      {| settles := Fulfilled tt;
         on_settle :=
           [LogError ("处理器执行失败: " +:+ description handler) error
              (activity_name activity)] |}
  end.

(** The callback of [matchedHandlers.map(...)], over the matched handlers
    in order; an exception of [handle] ends the [map]. *)
Fixpoint callHandlers (activity : Activity) (matched : list ActivityHandler)
  : M (list Caught) :=
  match matched with
  | [] => ret []
  | handler :: rest =>
      emit (LogDebug ("触发处理器: " +:+ description handler)) ;;
      emit (Handle (ref handler) activity) ;;
      do p <- lift (handle handler activity) ;
      do promises <- callHandlers activity rest ;
      ret (catch handler activity p :: promises)
  end.

Definition triggerHandlers (activity : Activity) : M (list Caught) :=
  do h <- get ;
  do matched <- matchedHandlers activity (all_handlers h) ;
  callHandlers activity matched.

Definition appendActivity (activity : Activity) : M unit :=
  do h <- get ;
  if negb (running h) then emit (LogWarn "Hub 尚未启动")
  else
    (match faculties h !! role activity with
     | None => emit (LogWarn ("活动来自未注册的 Faculty: " +:+ role activity))
     | Some _ => ret tt
     end) ;;
    emit (LogDebug ("活动已添加: " +:+ activity_name activity)) ;;
    triggerHandlers activity ;;
    ret tt.

(** The handlers called during a run, in order. *)
Definition handled {A} (r : Run A) : list nat :=
  flat_map (fun e => match e with Handle handler _ => [handler] | _ => [] end)
    (trace r).

(** The handlers registered in [h] whose condition holds of [activity]. *)
Definition matching (activity : Activity) (h : HubImpl) : list ActivityHandler :=
  List.filter
    (fun handler =>
       match isMatch activity handler with Normal b => b | Throw _ => false end)
    (all_handlers h).

(** What [callHandlers] logs and calls for [handlers]. *)
Definition calls (activity : Activity) (handlers : list ActivityHandler)
  : list Event :=
  flat_map
    (fun handler =>
       [LogDebug ("触发处理器: " +:+ description handler);
        Handle (ref handler) activity])
    handlers.

(** The condition of [handler] returns on [activity], and [handle] returns
    a promise for it: neither throws. *)
Definition condition_returns (activity : Activity) (handler : ActivityHandler)
  : Prop :=
  exists b, isMatch activity handler = Normal b.

Definition returns_promise (activity : Activity) (handler : ActivityHandler)
  : Prop :=
  exists p, handle handler activity = Normal p.

(** The warning for an activity of a role that is not connected. *)
Definition unregistered_warning (activity : Activity) (h : HubImpl) : list Event :=
  match faculties h !! role activity with
  | None => [LogWarn ("活动来自未注册的 Faculty: " +:+ role activity)]
  | Some _ => []
  end.

End Hub.

(** ** Inputs of the worked examples *)

(** A string of [n] characters. *)
Definition chars (n : nat) : string :=
  String.concat "" (repeat "x"%string n).

Definition conscious (role : string) (timestamp priority : Z) (text : string)
  : Conscious :=
  {| c_id := role; c_role := role; c_timestamp := timestamp;
     c_action := "say"; c_priority := priority; readable := Normal text |}.

(** [max_entry_length = 10], as in the truncation scenario. *)
Definition config_short_entries : AttentionConfig :=
  {| maxSize := 10000; clearPercentage := 1 # 2; reaction_time := 200;
     size_per_second := 500; max_entry_length := 10 |}.

(** A limit below the length of the marker. *)
Definition config_tiny_entries : AttentionConfig :=
  {| maxSize := 10000; clearPercentage := 1 # 2; reaction_time := 200;
     size_per_second := 500; max_entry_length := 2 |}.

(** [maxSize = 100] with a budget of 100 characters a tick. *)
Definition config_small_field : AttentionConfig :=
  {| maxSize := 100; clearPercentage := 1 # 2; reaction_time := 200;
     size_per_second := 500; max_entry_length := 1000 |}.

(** A controller with the list queue, started, after the calls [ops]. *)
Definition after_calls (cfg : AttentionConfig) (ops : list Operation)
  : Attention (list AttentionEntry) :=
  run_all (OpSetHub "attention" :: OpStart :: ops) (newAttention cfg).

(** One entry of 60 characters is in the field, another is pending. *)
Definition state_overfull : Attention (list AttentionEntry) :=
  after_calls config_small_field
    [OpConscious (conscious "mind" 1 5 (chars 60)); OpTick;
     OpConscious (conscious "mind" 2 5 (chars 60))].

(** The older of two entries was deferred by the first tick: both do not
    fit the budget of 100, and the younger has the higher priority. *)
Definition state_deferred : Attention (list AttentionEntry) :=
  after_calls defaultConfig
    [OpConscious (conscious "mind" 1 0 (chars 60));
     OpConscious (conscious "mind" 2 9 (chars 60)); OpTick].

(** The eviction scenario: ten entries of 10 characters fill the field,
    an eleventh is pending. *)
Definition state_full : Attention (list AttentionEntry) :=
  after_calls config_small_field
    (map (fun t => OpConscious (conscious "mind" (Z.of_nat t) 5 (chars 10)))
       (seq 1 10)
     ++ [OpTick; OpConscious (conscious "mind" 11 5 (chars 10))]).

(** The queue of role [a] was emptied by an earlier tick; role [b] has
    three entries of 40 characters pending, more than the budget of 100. *)
Definition state_idle_role : Attention (list AttentionEntry) :=
  after_calls defaultConfig
    [OpConscious (conscious "a" 1 5 (chars 10)); OpTick;
     OpConscious (conscious "b" 2 9 (chars 40));
     OpConscious (conscious "b" 3 8 (chars 40));
     OpConscious (conscious "b" 4 7 (chars 40))].

(** The fairness scenario: role [A] has 200 characters pending in four
    entries, role [B] 50 in one, both with the default focus; the budget
    is 100. *)
Definition state_two_roles : Attention (list AttentionEntry) :=
  after_calls defaultConfig
    [OpConscious (conscious "A" 1 3 (chars 50));
     OpConscious (conscious "A" 2 9 (chars 50));
     OpConscious (conscious "B" 3 5 (chars 50));
     OpConscious (conscious "A" 4 5 (chars 50));
     OpConscious (conscious "A" 5 7 (chars 50))].

(** A started controller that has received nothing. *)
Definition state_quiet : Attention (list AttentionEntry) :=
  after_calls defaultConfig [].


(** *** Hub *)

Definition any_activity : Hub.ActivityMask :=
  {| Hub.mask_role := None; Hub.verb := None |}.

(** A handler whose [handle] throws before it returns a promise. *)
Definition throwing_handler : Hub.ActivityHandler :=
  {| Hub.ref := 1; Hub.condition := Hub.Mask any_activity;
     Hub.handler_role := "memory"; Hub.description := "memory: throws";
     Hub.handle := fun _ => Throw "boom" |}.

(** A handler whose condition, a predicate, throws. *)
Definition picky_handler : Hub.ActivityHandler :=
  {| Hub.ref := 1; Hub.condition := Hub.Filter (fun _ => Throw "bad filter");
     Hub.handler_role := "memory"; Hub.description := "memory: picky";
     Hub.handle := fun _ => Normal (Fulfilled tt) |}.

(** A handler whose promise is rejected. *)
Definition rejecting_handler : Hub.ActivityHandler :=
  {| Hub.ref := 1; Hub.condition := Hub.Mask any_activity;
     Hub.handler_role := "memory"; Hub.description := "memory: rejects";
     Hub.handle := fun _ => Normal (Rejected "boom") |}.

Definition healthy_handler : Hub.ActivityHandler :=
  {| Hub.ref := 2; Hub.condition := Hub.Mask any_activity;
     Hub.handler_role := "terminal"; Hub.description := "terminal: prints";
     Hub.handle := fun _ => Normal (Fulfilled tt) |}.

(** A Hub with the faculties [memory] and [terminal] connected and the
    handlers [first] and [healthy_handler] registered in this order. *)
Definition hub_stopped (first : Hub.ActivityHandler) : Hub.HubImpl :=
  fold_left (fun h (call : Hub.M unit) => Hub.after (call h))
    [Hub.connectFaculty "memory" {| Hub.name := "memory" |};
     Hub.connectFaculty "terminal" {| Hub.name := "terminal" |};
     Hub.registerActivityHandler first;
     Hub.registerActivityHandler healthy_handler]
    Hub.newHub.

Definition hub_running (first : Hub.ActivityHandler) : Hub.HubImpl :=
  Hub.after (Hub.resume (hub_stopped first)).

(** An activity of the registered role [memory], and one of a role that
    is not connected. *)
Definition remembered : Hub.Activity :=
  {| Hub.id := "memory-120000-0001"; Hub.role := "memory"; Hub.timestamp := 1;
     Hub.details := {| Hub.action := "store" |} |}.

Definition from_stranger : Hub.Activity :=
  {| Hub.id := "stranger-120000-0002"; Hub.role := "stranger"; Hub.timestamp := 2;
     Hub.details := {| Hub.action := "say" |} |}.

(** ** Further notions of the controller *)

Section ControllerNotions.

Context {PQ : Type} `{MaxPriorityQueue PQ}.

(** Everything pending, role by role in the order of the map. *)
Definition pendingItems (pending : list (string * PQ)) : list AttentionEntry :=
  concat (map (fun rq => pq_items (snd rq)) pending).


(** The queue of every role holds entries of that role only, and no role
    has two queues. *)
Definition filed_by_role (pending : list (string * PQ)) : Prop :=
  List.NoDup (map fst pending) /\
  Forall (fun rq => Forall (fun e => role e = fst rq) (pq_items (snd rq))) pending.

(** No queue holds an entry. *)
Definition nothing_pending (pending : list (string * PQ)) : Prop :=
  Forall (fun rq => pq_items (snd rq) = []) pending.

(** What the tick does with the queue of one role: [fst] is admitted, [snd]
    is the queue afterwards. *)
Definition perRole (s : Attention PQ) (role : string) (q : PQ)
  : list AttentionEntry * PQ :=
  if JsNum.Zle_Q (totalSize (drainAll (pendingActivitiesByRole s)))
       (maxAddSize (config s))
  then drain q
  else selectEntries
         (roleMaxSize s (totalFocus s (drainAll (pendingActivitiesByRole s))) role)
         0 (fst (drain q)) (snd (drain q)).


(** [this.pendingActivitiesByRole.get(role)]. *)
Fixpoint queueOf (role : string) (pending : list (string * PQ)) : option PQ :=
  match pending with
  | [] => None
  | (r, q) :: rest => if String.eqb r role then Some q else queueOf role rest
  end.

(** The longest content [consciousToEntry] stores: the limit of the
    configuration, or the marker alone under a limit below its length. *)
Definition entry_limit (cfg : AttentionConfig) : Z :=
  Z.max (max_entry_length cfg) 3.


End ControllerNotions.



(** ** The calls on the Hub *)

Module HubCalls.

Import Hub.

(** The methods of [HubImpl] that act on its state. *)
Inductive Call : Type :=
| ConnectFaculty (role : string) (faculty : Faculty)
| DisconnectFaculty (role : string)
| RegisterActivityHandler (handler : ActivityHandler)
| UnregisterActivityHandler (handler : ActivityHandler)
| UnregisterAllActivityHandler (role : string)
| AppendActivity (activity : Activity)
| Resume
| Stop.

Definition call (c : Call) : M unit :=
  match c with
  | ConnectFaculty role faculty => connectFaculty role faculty
  | DisconnectFaculty role => disconnectFaculty role
  | RegisterActivityHandler handler => registerActivityHandler handler
  | UnregisterActivityHandler handler => unregisterActivityHandler handler
  | UnregisterAllActivityHandler role => unregisterAllActivityHandler role
  | AppendActivity activity => appendActivity activity
  | Resume => resume
  | Stop => stop
  end.

(** The states a Hub can be in. *)
Inductive reachable : HubImpl -> Prop :=
| reachable_new : reachable newHub
| reachable_call (c : Call) (h : HubImpl) :
    reachable h -> reachable (after (call c h)).

(** The handlers called in a trace, in order. *)
Definition handlersCalled (events : list Event) : list nat :=
  flat_map (fun e => match e with Handle handler _ => [handler] | _ => [] end)
    events.

(** [all_handlers] holds no handler twice. *)
Definition distinct (h : HubImpl) : Prop :=
  List.NoDup (map ref (all_handlers h)).

(** Every handler of [all_handlers] is also in the set of its role. *)
Definition indexed (h : HubImpl) : Prop :=
  forall handler,
    In handler (all_handlers h) ->
    exists handlers twin,
      handlers_of_role h !! handler_role handler = Some handlers /\
      In twin handlers /\ ref twin = ref handler.

(** The handlers that [matchedHandlers.map(...)] reaches: the matched ones
    up to and including the first whose [handle] throws. *)
Fixpoint upToThrow (activity : Activity) (matched : list ActivityHandler)
  : list ActivityHandler :=
  match matched with
  | [] => []
  | handler :: rest =>
      handler ::
      match handle handler activity with
      | Normal _ => upToThrow activity rest
      | Throw _ => []
      end
  end.

(** No condition among [handlers] throws on [activity]. *)
Definition conditions_return (activity : Activity)
  (handlers : list ActivityHandler) : bool :=
  forallb
    (fun handler =>
       match isMatch activity handler with Normal _ => true | Throw _ => false end)
    handlers.

(** A series of calls, one after the other, whether or not one of them
    throws: the Hub it leaves and everything it logs and calls. *)
Fixpoint afterCalls (cs : list Call) (h : HubImpl) : HubImpl :=
  match cs with
  | [] => h
  | c :: cs => afterCalls cs (after (call c h))
  end.

Fixpoint eventsOf (cs : list Call) (h : HubImpl) : list Event :=
  match cs with
  | [] => []
  | c :: cs => trace (call c h) ++ eventsOf cs (after (call c h))
  end.

Definition isResume (c : Call) : bool :=
  match c with Resume => true | _ => false end.

End HubCalls.

(** ** [HubPortImpl]: the port of a faculty ([hub-port-impl.ts]) *)

Module Port.

Import Hub.

(** [new Date()]: the local time the clock shows, and [getTime()]. *)
Record Date : Type := mkDate {
  getHours : nat;
  getMinutes : nat;
  getSeconds : nat;
  getTime : Z
}.

(** [n.toString()] for a natural number [n]: its decimal digits. *)
Definition toString (n : nat) : string :=
  NilEmpty.string_of_uint (Nat.to_uint n).

Fixpoint repeat_char (c : ascii) (n : nat) : string :=
  match n with
  | O => ""
  | S n => String c (repeat_char c n)
  end.

(** [s.padStart(targetLength, c)]. *)
Definition padStart (targetLength : nat) (c : ascii) (s : string) : string :=
  repeat_char c (targetLength - String.length s) +:+ s.

(** [generateUniqueId(role)]: the identifier, and the module variable
    [activitySequence] after the call.  The counter is a natural number. *)
Definition generateUniqueId (role : option string) (now : Date)
  (activitySequence : nat) : string * nat :=
  let hours := padStart 2 "0" (toString (getHours now)) in
  let minutes := padStart 2 "0" (toString (getMinutes now)) in
  let seconds := padStart 2 "0" (toString (getSeconds now)) in
  let timeStr := hours +:+ minutes +:+ seconds in
  let activitySequence := S activitySequence in
  let seq := padStart 4 "0" (toString activitySequence) in
  let prefix :=
    match role with
    | Some role => if String.eqb role "" then "activity" else substring 0 10 role
    | None => "activity"
    end in
  (prefix +:+ "-" +:+ timeStr +:+ "-" +:+ seq, activitySequence).

(** The identifiers of a series of calls. *)
Fixpoint generateIds (calls : list (option string * Date)) (activitySequence : nat)
  : list string :=
  match calls with
  | [] => []
  | (role, now) :: rest =>
      fst (generateUniqueId role now activitySequence) ::
      generateIds rest (snd (generateUniqueId role now activitySequence))
  end.

(** Reading an identifier back: the text behind its last dash, as a
    decimal number. *)
Definition is_dash (c : ascii) : bool := Ascii.eqb c "-".

Fixpoint has_dash (s : string) : bool :=
  match s with
  | "" => false
  | String c rest => is_dash c || has_dash rest
  end.

Fixpoint afterLastDash (s : string) : string :=
  match s with
  | "" => ""
  | String c rest =>
      if has_dash rest then afterLastDash rest
      else if is_dash c then rest else String c rest
  end.

Definition parseDecimal (s : string) : option nat :=
  option_map Nat.of_uint (NilEmpty.uint_of_string s).

Definition sequenceOf (id : string) : option nat :=
  parseDecimal (afterLastDash id).

(** What the ports share: the Hub, the module variable [activitySequence],
    and the handler objects created so far; the number of these gives a new
    object its identity. *)
Record World : Type := mkWorld {
  hub : HubImpl;
  activitySequence : nat;
  objects : nat
}.

(** An [ActivityHandle]: a function, with its identity. *)
Record ActivityHandle : Type := mkHandle {
  handle_ref : nat;
  handle_body : Activity -> completion (promise unit)
}.

(** A member of [registeredHandlers]: the handler object, and the identity
    of its [handle]. *)
Record Registered : Type := mkRegistered {
  registered : ActivityHandler;
  registered_handle : nat
}.

Record HubPortImpl : Type := mkPort {
  port_role : string;
  registeredHandlers : list Registered
}.

(** [new HubPortImpl(role, hub, faculty)]. *)
Definition newPort (role : string) : HubPortImpl :=
  {| port_role := role; registeredHandlers := [] |}.

(** [appendActivity(activity_body)]: the clock is read twice, for the
    identifier and for the timestamp. *)
Definition appendActivity (port : HubPortImpl) (activity_body : ActivityBody)
  (now created : Date) (w : World) : World * Run unit :=
  let generated :=
    generateUniqueId (Some (port_role port)) now (activitySequence w) in
  let activity :=
    {| id := fst generated;
       role := port_role port;
       details := activity_body;
       timestamp := getTime created |} in
  let r := Hub.appendActivity activity (hub w) in
  ({| hub := after r; activitySequence := snd generated; objects := objects w |},
   r).

(** [registerActivityHandler(condition, handle, description)]: the handler
    is a new object. *)
Definition registerActivityHandler (port : HubPortImpl) (condition : Condition)
  (handle : ActivityHandle) (description : string) (w : World)
  : World * HubPortImpl * Run unit :=
  let handler :=
    {| ref := objects w;
       condition := condition;
       handler_role := port_role port;
       description := description;
       Hub.handle := handle_body handle |} in
  let r := Hub.registerActivityHandler handler (hub w) in
  ({| hub := after r;
      activitySequence := activitySequence w;
      objects := S (objects w) |},
   {| port_role := port_role port;
      registeredHandlers :=
        registeredHandlers port ++
        [{| registered := handler; registered_handle := handle_ref handle |}] |},
   r).

(** [unregisterByHandle(handle)]: the first member whose [handle] is
    [handle] leaves the set. *)
Fixpoint deleteFirst (handle : nat) (handlers : list Registered) : list Registered :=
  match handlers with
  | [] => []
  | handler :: rest =>
      if Nat.eqb (registered_handle handler) handle then rest
      else handler :: deleteFirst handle rest
  end.

Definition unregisterByHandle (handle : nat) (port : HubPortImpl) : HubPortImpl :=
  {| port_role := port_role port;
     registeredHandlers := deleteFirst handle (registeredHandlers port) |}.

(** [unregisterByCondition(condition)]: a loop with an empty body. *)
Definition unregisterByCondition (condition : ActivityMask) (port : HubPortImpl)
  : HubPortImpl :=
  fold_left (fun port _ => port) (registeredHandlers port) port.

(** The argument of [unregisterActivityHandler], by [typeof]. *)
Inductive Target : Type :=
| TargetFunction (target : nat)
| TargetObject (target : ActivityMask).

Definition unregisterActivityHandler (target : Target) (port : HubPortImpl)
  : HubPortImpl :=
  match target with
  | TargetFunction handle => unregisterByHandle handle port
  | TargetObject condition => unregisterByCondition condition port
  end.

Definition unregisterAllHandlers (port : HubPortImpl) : HubPortImpl :=
  {| port_role := port_role port; registeredHandlers := [] |}.

Definition dispose (port : HubPortImpl) : HubPortImpl :=
  unregisterAllHandlers port.

(** Every handler of the Hub is an object that exists. *)
Definition allocated (w : World) : Prop :=
  Forall (fun handler => (ref handler < objects w)%nat) (all_handlers (hub w)).

End Port.

(** A world whose Hub runs with two handlers, and the handle of a third. *)
Definition world_running : Port.World :=
  {| Port.hub := hub_running rejecting_handler;
     Port.activitySequence := 0;
     Port.objects := 3 |}.

Definition listening : Port.ActivityHandle :=
  {| Port.handle_ref := 7;
     Port.handle_body := fun _ => Normal (Fulfilled tt) |}.

(** ** Activities with [faculty_name] and [verb], and their filters
    ([filters.ts]) *)

Module Filters.

Inductive ActivityTag : Type := CONSCIOUS | WAKE_UP.

(** An activity; [conscious] is the priority of an activity that has the
    key [__is_conscious], [wake_up] whether it has the key [__is_wake_up]. *)
Record Activity : Type := mkActivity {
  id : string;
  faculty_name : string;
  verb : string;
  timestamp : Z;
  tags : list ActivityTag;
  conscious : option Z;
  wake_up : bool
}.

(** [string | string[]]. *)
Inductive Names : Type :=
| Name (name : string)
| NameArray (names : list string).

(** [Array.isArray(x) ? x : [x]]. *)
Definition toArray (x : Names) : list string :=
  match x with
  | Name name => [name]
  | NameArray names => names
  end.

Definition includes (names : list string) (name : string) : bool :=
  existsb (String.eqb name) names.

(** [priority < bound] and [priority > bound] for a bound that is given. *)
Definition below (priority : Z) (bound : option Q) : bool :=
  match bound with
  | Some bound => negb (Qle_bool bound (inject_Z priority))
  | None => false
  end.

Definition above (priority : Z) (bound : option Q) : bool :=
  match bound with
  | Some bound => negb (Qle_bool (inject_Z priority) bound)
  | None => false
  end.

Record CommonOptions : Type := mkOptions {
  opt_faculty_name : option Names;
  opt_verb : option Names;
  opt_minPriority : option Q;
  opt_maxPriority : option Q;
  opt_custom : option (Activity -> completion bool)
}.

(** The classes of [filters.ts]. *)
#[local] Unset Elimination Schemes.
Inductive ActivityFilter : Type :=
| CommonActivityFilter (options : CommonOptions)
| AllActivityFilter
| FacultyNameFilter (facultyName : Names)
| VerbFilter (verb : Names)
| PriorityRangeFilter (minPriority maxPriority : option Q)
| ConsciousActivityFilter
| WakeUpActivityFilter
| AndFilter (filters : list ActivityFilter)
| OrFilter (filters : list ActivityFilter)
| NotFilter (filter : ActivityFilter)
| CustomFilter (predicate : Activity -> completion bool).
#[local] Set Elimination Schemes.

(** [filters.every(callback)] and [filters.some(callback)]: they stop at
    the first callback that decides, or that throws. *)
Definition every {A : Type} (callback : A -> completion bool)
  : list A -> completion bool :=
  fix every (l : list A) : completion bool :=
    match l with
    | [] => Normal true
    | x :: rest =>
        match callback x with
        | Normal true => every rest
        | Normal false => Normal false
        | Throw error => Throw error
        end
    end.

Definition some {A : Type} (callback : A -> completion bool)
  : list A -> completion bool :=
  fix some (l : list A) : completion bool :=
    match l with
    | [] => Normal false
    | x :: rest =>
        match callback x with
        | Normal true => Normal true
        | Normal false => some rest
        | Throw error => Throw error
        end
    end.

(** [!c] for a call [c] that returns a boolean or throws. *)
Definition negated (c : completion bool) : completion bool :=
  match c with Normal b => Normal (negb b) | Throw error => Throw error end.

(** [filter.match(activity)]. *)
Fixpoint matches (filter : ActivityFilter) (activity : Activity)
  : completion bool :=
  match filter with
  | CommonActivityFilter options =>
      if match opt_faculty_name options with
         | Some names => negb (includes (toArray names) (faculty_name activity))
         | None => false
         end
      then Normal false
      else if match opt_verb options with
              | Some verbs => negb (includes (toArray verbs) (verb activity))
              | None => false
              end
      then Normal false
      else if match conscious activity with
              | Some priority => below priority (opt_minPriority options)
              | None => false
              end
      then Normal false
      else if match conscious activity with
              | Some priority => above priority (opt_maxPriority options)
              | None => false
              end
      then Normal false
      else match opt_custom options with
           | Some custom => custom activity
           | None => Normal true
           end
  | AllActivityFilter => Normal true
  | FacultyNameFilter facultyName =>
      Normal (includes (toArray facultyName) (faculty_name activity))
  | VerbFilter verbs => Normal (includes (toArray verbs) (verb activity))
  | PriorityRangeFilter minPriority maxPriority =>
      match conscious activity with
      | None => Normal false
      | Some priority =>
          if below priority minPriority then Normal false
          else if above priority maxPriority then Normal false
          else Normal true
      end
  | ConsciousActivityFilter =>
      Normal match conscious activity with Some _ => true | None => false end
  | WakeUpActivityFilter => Normal (wake_up activity)
  | AndFilter filters => every (fun filter => matches filter activity) filters
  | OrFilter filters => some (fun filter => matches filter activity) filters
  | NotFilter filter => negated (matches filter activity)
  | CustomFilter predicate => predicate activity
  end.

(** The filter of one option of [CommonActivityFilter]; an option that is
    not given leaves every activity through. *)
Definition optional {A : Type} (make : A -> ActivityFilter) (option : option A)
  : ActivityFilter :=
  match option with
  | Some x => make x
  | None => AllActivityFilter
  end.

(** [CommonActivityFilter] put together from the other classes. *)
Definition assembled (options : CommonOptions) : ActivityFilter :=
  AndFilter
    [optional FacultyNameFilter (opt_faculty_name options);
     optional VerbFilter (opt_verb options);
     OrFilter
       [NotFilter ConsciousActivityFilter;
        PriorityRangeFilter (opt_minPriority options) (opt_maxPriority options)];
     optional CustomFilter (opt_custom options)].

End Filters.

(** ** The Hub that keeps an array of registrations ([core/hub-impl.ts]) *)

Module ArrayHub.

Import Filters.

Record Faculty : Type := mkFaculty { name : string }.

(** An [ActivityCondition]; [cond_tags] is the set [tags] in the order of
    its iteration. *)
Record ActivityCondition : Type := mkCondition {
  facultyName : option string;
  cond_verb : option string;
  cond_tags : option (list ActivityTag)
}.

(** An [ActivityFilter] of this Hub: a function, with its identity. *)
Record FilterFunction : Type := mkFilter {
  filter_ref : nat;
  filter_body : Activity -> completion bool
}.

Record ActivityHandler : Type := mkHandler {
  ref : nat;
  faculty : Faculty;
  description : string;
  handle : Activity -> completion (promise unit)
}.

Record HandlerRegistration : Type := mkRegistration {
  filter : option FilterFunction;
  condition : option ActivityCondition;
  handler : ActivityHandler
}.

Record HubImpl : Type := mkHub {
  faculties : gmap string Faculty;
  running : bool;
  handlerRegistrations : list HandlerRegistration
}.

Definition newHub : HubImpl :=
  {| faculties := ∅; running := false; handlerRegistrations := [] |}.

Inductive Event : Type :=
| LogWarn (message : string)
| LogInfo (message : string)
| LogDebug (message : string)
| LogError (message : string) (error : string)
| Handle (handler : nat) (activity : Activity).

(** The result of a call: what it returns or throws, the Hub it leaves,
    what it logs and which handlers it calls. *)
Record Run : Type := mkRun {
  value : completion unit;
  after : HubImpl;
  trace : list Event
}.

Definition connectFaculty (faculty : Faculty) (h : HubImpl) : Run :=
  match faculties h !! name faculty with
  | Some _ =>
      mkRun (Normal tt) h [LogWarn ("Faculty " +:+ name faculty +:+ " 已经注册过了")]
  | None =>
      mkRun (Normal tt)
        {| faculties := <[name faculty := faculty]> (faculties h);
           running := running h;
           handlerRegistrations := handlerRegistrations h |}
        [LogInfo ("Faculty " +:+ name faculty +:+ " 已注册")]
  end.

Definition disconnectFaculty (facultyName : string) (h : HubImpl) : Run :=
  match faculties h !! facultyName with
  | None => mkRun (Normal tt) h [LogWarn ("Faculty " +:+ facultyName +:+ " 不存在")]
  | Some _ =>
      mkRun (Normal tt)
        {| faculties := delete facultyName (faculties h);
           running := running h;
           handlerRegistrations :=
             List.filter
               (fun reg =>
                  negb (String.eqb (name (faculty (handler reg))) facultyName))
               (handlerRegistrations h) |}
        [LogInfo ("Faculty " +:+ facultyName +:+ " 已注销")]
  end.

(** The first argument of [registerActivityHandler], by [typeof]. *)
Inductive FilterOrCondition : Type :=
| ByFilter (f : FilterFunction)
| ByCondition (c : ActivityCondition).

Definition registration (filterOrCondition : FilterOrCondition)
  (handler : ActivityHandler) : HandlerRegistration :=
  match filterOrCondition with
  | ByFilter f => {| filter := Some f; condition := None; handler := handler |}
  | ByCondition c => {| filter := None; condition := Some c; handler := handler |}
  end.

Definition registerActivityHandler (filterOrCondition : FilterOrCondition)
  (handler : ActivityHandler) (h : HubImpl) : Run :=
  mkRun (Normal tt)
    {| faculties := faculties h; running := running h;
       handlerRegistrations :=
         handlerRegistrations h ++ [registration filterOrCondition handler] |}
    [LogDebug ("注册活动处理器: " +:+ description handler)].

(** The argument of [unregisterActivityHandler], by ['handle' in]. *)
Inductive HandlerOrFilter : Type :=
| TheHandler (handler : ActivityHandler)
| TheFilter (f : FilterFunction).

Definition unregisterActivityHandler (handlerOrFilter : HandlerOrFilter)
  (h : HubImpl) : Run :=
  match handlerOrFilter with
  | TheHandler x =>
      mkRun (Normal tt)
        {| faculties := faculties h; running := running h;
           handlerRegistrations :=
             List.filter (fun reg => negb (Nat.eqb (ref (handler reg)) (ref x)))
               (handlerRegistrations h) |}
        [LogDebug ("注销活动处理器: " +:+ description x)]
  | TheFilter f =>
      mkRun (Normal tt)
        {| faculties := faculties h; running := running h;
           handlerRegistrations :=
             List.filter
               (fun reg =>
                  match filter reg with
                  | Some g => negb (Nat.eqb (filter_ref g) (filter_ref f))
                  | None => true
                  end)
               (handlerRegistrations h) |}
        [LogDebug "通过 filter 注销活动处理器"]
  end.

Definition has_tag (tag : ActivityTag) (tags : list ActivityTag) : bool :=
  existsb
    (fun t => match t, tag with
              | CONSCIOUS, CONSCIOUS | WAKE_UP, WAKE_UP => true
              | _, _ => false
              end)
    tags.

Definition differs (expected : option string) (actual : string) : bool :=
  match expected with
  | Some e => negb (String.eqb actual e)
  | None => false
  end.

(** [matchCondition(activity, condition)]. *)
Definition matchCondition (activity : Activity) (condition : ActivityCondition)
  : bool :=
  if differs (facultyName condition) (faculty_name activity) then false
  else if differs (cond_verb condition) (verb activity) then false
  else
    match cond_tags condition with
    | Some wanted => forallb (fun tag => has_tag tag (tags activity)) wanted
    | None => true
    end.

(** The body of the [try] of [triggerHandlers]. *)
Definition isMatch (activity : Activity) (reg : HandlerRegistration)
  : completion bool :=
  match filter reg with
  | Some f => filter_body f activity
  | None =>
      match condition reg with
      | Some c => Normal (matchCondition activity c)
      | None => Normal false
      end
  end.

(** The loop of [triggerHandlers]: the handlers that match, and what the
    [catch] logs. *)
Fixpoint matchedHandlers (activity : Activity) (regs : list HandlerRegistration)
  : list ActivityHandler * list Event :=
  match regs with
  | [] => ([], [])
  | reg :: rest =>
      let later := matchedHandlers activity rest in
      match isMatch activity reg with
      | Normal true => (handler reg :: fst later, snd later)
      | Normal false => later
      | Throw error =>
          (fst later,
           LogError ("处理器匹配异常: " +:+ description (handler reg)) error ::
           snd later)
      end
  end.

(** [matchedHandlers.map(...)]: an exception of [handle] ends it.  The
    promises it returns are fulfilled whatever the handlers' promises do. *)
Fixpoint callHandlers (activity : Activity) (matched : list ActivityHandler)
  : completion (list (promise unit)) * list Event :=
  match matched with
  | [] => (Normal [], [])
  | x :: rest =>
      match handle x activity with
      | Throw error =>
          (Throw error,
           [LogDebug ("触发处理器: " +:+ description x); Handle (ref x) activity])
      | Normal _ =>
          let later := callHandlers activity rest in
          (match fst later with
           | Normal promises => Normal (Fulfilled tt :: promises)
           | Throw error => Throw error
           end,
           LogDebug ("触发处理器: " +:+ description x) :: Handle (ref x) activity ::
           snd later)
      end
  end.

Definition triggerHandlers (activity : Activity) (h : HubImpl)
  : completion (list (promise unit)) * list Event :=
  let matched := matchedHandlers activity (handlerRegistrations h) in
  let called := callHandlers activity (fst matched) in
  (fst called, snd matched ++ snd called).

Definition appendActivity (activity : Activity) (h : HubImpl) : Run :=
  if negb (running h) then mkRun (Normal tt) h [LogWarn "Hub 尚未启动"]
  else
    let triggered := triggerHandlers activity h in
    mkRun
      match fst triggered with
      | Normal _ => Normal tt
      | Throw error => Throw error
      end
      h
      (match faculties h !! faculty_name activity with
       | None => [LogWarn ("活动来自未注册的 Faculty: " +:+ faculty_name activity)]
       | Some _ => []
       end ++
       LogDebug ("活动已添加: " +:+ faculty_name activity +:+ "." +:+ verb activity) ::
       snd triggered).

Definition resume (h : HubImpl) : Run :=
  if running h then mkRun (Normal tt) h [LogWarn "Hub 已经在运行中"]
  else
    mkRun (Normal tt)
      {| faculties := faculties h; running := true;
         handlerRegistrations := handlerRegistrations h |}
      [LogInfo "Hub 启动中..."].

Definition stop (h : HubImpl) : Run :=
  if negb (running h) then mkRun (Normal tt) h [LogWarn "Hub 已经停止"]
  else
    mkRun (Normal tt)
      {| faculties := faculties h; running := false;
         handlerRegistrations := handlerRegistrations h |}
      [LogInfo "Hub 停止中..."].

(** The handlers called in a trace, and during a run, in order. *)
Definition calledIn (events : list Event) : list nat :=
  flat_map (fun e => match e with Handle x _ => [x] | _ => [] end) events.

Definition handled (r : Run) : list nat := calledIn (trace r).

(** The registrations whose filter or condition holds of [activity]; one
    that throws does not count. *)
Definition matching (activity : Activity) (h : HubImpl) : list HandlerRegistration :=
  List.filter
    (fun reg => match isMatch activity reg with Normal b => b | Throw _ => false end)
    (handlerRegistrations h).

(** The handlers that [map] reaches: up to and including the first whose
    [handle] throws. *)
Fixpoint upToThrow (activity : Activity) (matched : list ActivityHandler)
  : list ActivityHandler :=
  match matched with
  | [] => []
  | x :: rest =>
      x :: match handle x activity with
           | Normal _ => upToThrow activity rest
           | Throw _ => []
           end
  end.

(** The errors that the [catch] of the loop logs. *)
Definition matchErrors (activity : Activity) (regs : list HandlerRegistration)
  : list Event :=
  flat_map
    (fun reg =>
       match isMatch activity reg with
       | Throw error =>
           [LogError ("处理器匹配异常: " +:+ description (handler reg)) error]
       | Normal _ => []
       end)
    regs.

End ArrayHub.

(** A running Hub of this kind without registrations, a handler and an
    activity for it. *)
Definition array_hub_running : ArrayHub.HubImpl :=
  ArrayHub.after (ArrayHub.resume ArrayHub.newHub).

Definition echo : ArrayHub.ActivityHandler :=
  {| ArrayHub.ref := 1;
     ArrayHub.faculty := {| ArrayHub.name := "terminal" |};
     ArrayHub.description := "terminal: echo";
     ArrayHub.handle := fun _ => Normal (Fulfilled tt) |}.

Definition anything : ArrayHub.FilterOrCondition :=
  ArrayHub.ByCondition
    {| ArrayHub.facultyName := None;
       ArrayHub.cond_verb := None;
       ArrayHub.cond_tags := None |}.

Definition said : Filters.Activity :=
  {| Filters.id := "terminal-1"; Filters.faculty_name := "terminal";
     Filters.verb := "say"; Filters.timestamp := 1; Filters.tags := [];
     Filters.conscious := None; Filters.wake_up := false |}.

(** * Properties *)

(** ** Strings and truncation *)

Lemma length_substring0 (n : nat) (s : string) :
  String.length (substring 0 n s) = Nat.min n (String.length s).
Proof.
  revert n. induction s as [|c s IH]; intros [|n]; simpl; auto.
Qed.

Lemma length_string_app (s1 s2 : string) :
  String.length (s1 +:+ s2) = (String.length s1 + String.length s2)%nat.
Proof. induction s1 as [|c s1 IH]; simpl; auto. Qed.

Lemma truncate_short (max_len : Z) (s : string) :
  Z.of_nat (String.length s) <= max_len -> truncate max_len s = s.
Proof.
  intros H. unfold truncate.
  destruct (Z.gtb_spec (Z.of_nat (String.length s)) max_len); [lia | reflexivity].
Qed.

Lemma truncate_long (max_len : Z) (s : string) :
  max_len < Z.of_nat (String.length s) ->
  truncate max_len s = js_substring0 s (max_len - 3) +:+ truncation_marker.
Proof.
  intros H. unfold truncate.
  destruct (Z.gtb_spec (Z.of_nat (String.length s)) max_len); [reflexivity | lia].
Qed.

Lemma truncate_long_length (max_len : Z) (s : string) :
  max_len < Z.of_nat (String.length s) ->
  Z.of_nat (String.length (truncate max_len s)) = Z.max max_len 3.
Proof.
  intros H. rewrite truncate_long by exact H.
  rewrite length_string_app. unfold js_substring0.
  rewrite length_substring0. simpl. lia.
Qed.

Lemma truncate_long_marker (max_len : Z) (s : string) :
  max_len < Z.of_nat (String.length s) -> ends_in_marker (truncate max_len s).
Proof.
  intros Hlong. rewrite truncate_long by exact Hlong.
  exists (js_substring0 s (max_len - 3)). reflexivity.
Qed.

(** C6, as stated, fails below the length of the marker: with
    [max_entry_length = 2] a rendering of three characters is stored as the
    three characters of the marker, not as two. *)
Lemma truncation_exact_length_fails :
  consciousToEntry config_tiny_entries (conscious "mind" 0 5 "abc")
    = Some {| role := "mind"; timestamp := 0; priority := 5; content := "..." |}
  /\ max_entry_length config_tiny_entries < Z.of_nat (String.length "abc")
  /\ Z.of_nat (String.length "...") <> max_entry_length config_tiny_entries.
Proof. repeat split; try reflexivity. discriminate. Qed.

(** C6 (amended): a rendering longer than [max_entry_length] is stored with
    exactly [max_entry_length] characters, the last of them the marker,
    when [max_entry_length] is at least 3, the length of the marker; a
    rendering of at most [max_entry_length] characters is stored as it is.
    Role, timestamp and priority are those of the activity. *)
Theorem consciousToEntry_truncates (cfg : AttentionConfig) (activity : Conscious)
  (rendered : string) :
  readable activity = Normal rendered ->
  exists entry,
    consciousToEntry cfg activity = Some entry /\
    role entry = c_role activity /\
    timestamp entry = c_timestamp activity /\
    priority entry = c_priority activity /\
    (max_entry_length cfg < Z.of_nat (String.length rendered) ->
     3 <= max_entry_length cfg ->
     Z.of_nat (String.length (content entry)) = max_entry_length cfg /\
     ends_in_marker (content entry)) /\
    (Z.of_nat (String.length rendered) <= max_entry_length cfg ->
     content entry = rendered).
Proof.
  intros Hread. unfold consciousToEntry. rewrite Hread.
  eexists. split; [reflexivity |]. cbn [role timestamp priority content].
  repeat split.
  - rewrite truncate_long_length by assumption. lia.
  - now apply truncate_long_marker.
  - intros Hshort. now apply truncate_short.
Qed.

(** The scenario of C6: with [max_entry_length = 10] a rendering of eleven
    characters is stored as ten characters that end in the marker. *)
Lemma consciousToEntry_truncates_witness :
  exists entry,
    consciousToEntry config_short_entries (conscious "mind" 0 5 "hello world")
      = Some entry /\
    content entry = "hello w..." /\
    Z.of_nat (String.length (content entry)) = 10 /\
    ends_in_marker (content entry).
Proof.
  destruct (consciousToEntry_truncates config_short_entries
              (conscious "mind" 0 5 "hello world") "hello world" eq_refl)
    as (entry & Hentry & _ & _ & _ & Hlong & _).
  exists entry. split; [exact Hentry |].
  assert (Hc : content entry = "hello w...").
  { cbv in Hentry. injection Hentry as <-. reflexivity. }
  split; [exact Hc |].
  apply Hlong; cbn; lia.
Defined.

(** ** Lengths and sorting *)

Lemma total_length_from (l : list AttentionEntry) (acc : Z) :
  fold_left (fun sum e => sum + content_length e) l acc = acc + total_length l.
Proof.
  unfold total_length. revert acc.
  induction l as [|e l IH]; intros acc; simpl; [lia |].
  rewrite IH, (IH (0 + content_length e)). lia.
Qed.

Lemma total_length_cons (e : AttentionEntry) (l : list AttentionEntry) :
  total_length (e :: l) = content_length e + total_length l.
Proof. unfold total_length at 1. simpl. rewrite total_length_from. lia. Qed.

Lemma total_length_app (l1 l2 : list AttentionEntry) :
  total_length (l1 ++ l2) = total_length l1 + total_length l2.
Proof.
  induction l1 as [|e l1 IH]; simpl; [reflexivity |].
  rewrite !total_length_cons, IH. lia.
Qed.


Lemma total_length_perm (l1 l2 : list AttentionEntry) :
  Permutation l1 l2 -> total_length l1 = total_length l2.
Proof.
  induction 1; rewrite ?total_length_cons in *; lia.
Qed.

Lemma total_length_firstn_skipn (n : nat) (l : list AttentionEntry) :
  total_length (firstn n l) + total_length (skipn n l) = total_length l.
Proof. rewrite <- total_length_app, firstn_skipn. reflexivity. Qed.

Lemma insert_by_timestamp_perm (e : AttentionEntry) (l : list AttentionEntry) :
  Permutation (insert_by_timestamp e l) (e :: l).
Proof.
  induction l as [|x l IH]; simpl; [reflexivity |].
  destruct (timestamp e <=? timestamp x); [reflexivity |].
  rewrite IH. apply perm_swap.
Qed.

Lemma sort_by_timestamp_perm (l : list AttentionEntry) :
  Permutation (sort_by_timestamp l) l.
Proof.
  induction l as [|e l IH]; simpl; [reflexivity |].
  rewrite insert_by_timestamp_perm. now constructor.
Qed.

Lemma insert_by_timestamp_sorted (e : AttentionEntry) (l : list AttentionEntry) :
  chronological l -> chronological (insert_by_timestamp e l).
Proof.
  unfold chronological.
  induction l as [|x l IH]; intros Hl; simpl.
  - constructor; constructor.
  - inversion Hl as [|? ? Hs Hall]; subst.
    destruct (Z.leb_spec (timestamp e) (timestamp x)) as [Hle|Hgt].
    + constructor; [exact Hl |].
      constructor; [exact Hle |].
      eapply Forall_impl; [exact Hall |]. simpl. intros; lia.
    + constructor; [now apply IH |].
      eapply Permutation_Forall; [symmetry; apply insert_by_timestamp_perm |].
      constructor; [lia | exact Hall].
Qed.

Lemma sort_by_timestamp_sorted (l : list AttentionEntry) :
  chronological (sort_by_timestamp l).
Proof.
  induction l as [|e l IH]; simpl; [constructor |].
  now apply insert_by_timestamp_sorted.
Qed.

(** The sort is stable: the entries of one timestamp keep their order. *)
Lemma insert_by_timestamp_stable (t : Z) (e : AttentionEntry)
  (l : list AttentionEntry) :
  List.filter (fun x => timestamp x =? t) (insert_by_timestamp e l)
  = List.filter (fun x => timestamp x =? t) (e :: l).
Proof.
  induction l as [|x l IH]; [reflexivity |].
  cbn [insert_by_timestamp].
  destruct (Z.leb_spec (timestamp e) (timestamp x)) as [Hle|Hgt]; [reflexivity |].
  cbn [List.filter] in *. rewrite IH.
  destruct (Z.eqb_spec (timestamp x) t), (Z.eqb_spec (timestamp e) t);
    try reflexivity.
  lia.
Qed.

Lemma sort_by_timestamp_stable (t : Z) (l : list AttentionEntry) :
  List.filter (fun x => timestamp x =? t) (sort_by_timestamp l)
  = List.filter (fun x => timestamp x =? t) l.
Proof.
  induction l as [|e l IH]; [reflexivity |].
  cbn [sort_by_timestamp fold_right]. rewrite insert_by_timestamp_stable.
  cbn [List.filter]. fold (sort_by_timestamp l). now rewrite IH.
Qed.

Lemma chronological_app (l1 l2 : list AttentionEntry) :
  chronological l1 -> chronological l2 ->
  (forall a b, In a l1 -> In b l2 -> timestamp a <= timestamp b) ->
  chronological (l1 ++ l2).
Proof.
  unfold chronological. intros H1 H2 Hcross.
  induction l1 as [|x l1 IH]; simpl; [exact H2 |].
  inversion H1 as [|? ? Hs Hall]; subst.
  constructor.
  - apply IH; [exact Hs |]. intros a b Ha Hb. apply Hcross; [now right | exact Hb].
  - apply List.Forall_app. split; [exact Hall |].
    apply List.Forall_forall. intros b Hb. apply Hcross; [now left | exact Hb].
Qed.

Lemma chronological_skipn (n : nat) (l : list AttentionEntry) :
  chronological l -> chronological (skipn n l).
Proof.
  unfold chronological. revert l.
  induction n as [|n IH]; intros l Hl; [exact Hl |].
  destruct l as [|x l]; [exact Hl |].
  simpl. apply IH. now inversion Hl.
Qed.

(** ** The admission tick, step by step *)

Section TickFacts.

Context {PQ : Type} `{MaxPriorityQueue PQ}.
Implicit Types s : Attention PQ.

(** The tick in closed form. *)
Lemma processPendingActivities_eq s :
  processPendingActivities s =
  ({| hubPort := hubPort s; config := config s; focuses := focuses s;
      attentionField := kept s ++ admitted s;
      currentSize := sizeAfter s;
      pendingActivitiesByRole := pendingAfter (allocate s);
      paceTimer := paceTimer s |},
   match hubPort s with
   | Some _ =>
       (if clears s
        then [AttentionCleared (evicted s) (clearCount s)
                (Z.of_nat (length (attentionField s)))
                (total_length (evicted s)) (total_length (kept s))]
        else []) ++
       [AttentionAdd (admitted s) (kept s ++ admitted s) (sizeAfter s)
          (maxSize (config s))
          (JsNum.div (inject_Z (sizeAfter s)) (inject_Z (maxSize (config s))))]
   | None => []
   end).
Proof.
  unfold processPendingActivities, sizeAfter, clears, kept, evicted, admitted,
    addedSize, overflows, clearAttentionField, clearCount.
  cbn [currentSize config attentionField hubPort].
  destruct (_ >? _); cbn [andb].
  - destruct (Z.eqb_spec
                (Qfloor (inject_Z (Z.of_nat (length (attentionField s))) *
                         clearPercentage (config s))) 0) as [Hz|Hnz];
      cbn [negb hubPort config attentionField currentSize focuses paceTimer
           pendingActivitiesByRole fst snd].
    + rewrite Hz. cbn [Z.to_nat skipn]. destruct (hubPort s); reflexivity.
    + destruct (hubPort s); reflexivity.
  - cbn [hubPort config attentionField currentSize focuses paceTimer
         pendingActivitiesByRole]. destruct (hubPort s); reflexivity.
Qed.

Lemma tick_field s :
  attentionField (fst (processPendingActivities s)) = kept s ++ admitted s.
Proof. now rewrite processPendingActivities_eq. Qed.

Lemma tick_currentSize s :
  currentSize (fst (processPendingActivities s)) = sizeAfter s.
Proof. now rewrite processPendingActivities_eq. Qed.


Lemma tick_pending s :
  pendingActivitiesByRole (fst (processPendingActivities s))
  = pendingAfter (allocate s).
Proof. now rewrite processPendingActivities_eq. Qed.

Lemma admitted_length s : total_length (admitted s) = addedSize s.
Proof. apply total_length_perm, sort_by_timestamp_perm. Qed.

Lemma evicted_kept s : evicted s ++ kept s = attentionField s.
Proof.
  unfold evicted, kept. destruct (overflows _ _); [apply firstn_skipn | reflexivity].
Qed.

(** When the count of an eviction is zero, nothing leaves the field. *)
Lemma kept_all s : clears s = false -> kept s = attentionField s.
Proof.
  unfold clears, kept. destruct (overflows _ _); [| reflexivity].
  cbn [andb]. destruct (Z.eqb_spec (clearCount s) 0) as [->|]; [| discriminate].
  reflexivity.
Qed.

(** The tick keeps [currentSize] equal to the length of the field. *)
Lemma tick_accounting s :
  currentSize s = total_length (attentionField s) ->
  sizeAfter s = total_length (kept s ++ admitted s).
Proof.
  intros Hinv. rewrite total_length_app, admitted_length. unfold sizeAfter.
  destruct (clears s) eqn:Hc; [reflexivity |].
  rewrite kept_all by exact Hc. lia.
Qed.

(** *** States the controller can reach *)

Lemma run_config (op : Operation) s : config (fst (fst (run op s))) = config s.
Proof.
  destruct op; unfold run, promised, start, stop, sleep, wakeUp, startPaceTimer,
    stopPaceTimer, setFacultyFocus, handleConsciousActivity;
    try rewrite processPendingActivities_eq;
    try destruct (focus_out_of_range _); try destruct (consciousToEntry _ _);
    try destruct (hubPort s); try destruct (paceTimer s);
    reflexivity.
Qed.

Lemma run_accounting (op : Operation) s :
  currentSize s = total_length (attentionField s) ->
  currentSize (fst (fst (run op s)))
  = total_length (attentionField (fst (fst (run op s)))).
Proof.
  intros Hinv.
  destruct op;
    try (unfold run, promised, start, stop, sleep, wakeUp, startPaceTimer,
           stopPaceTimer, setFacultyFocus, handleConsciousActivity;
         try destruct (focus_out_of_range _);
         try destruct (consciousToEntry _ _);
         try destruct (hubPort s); try destruct (paceTimer s);
         solve [exact Hinv | reflexivity]).
  unfold run. rewrite processPendingActivities_eq. cbn.
  now apply tick_accounting.
Qed.

Lemma reachable_invariant (cfg : AttentionConfig) s :
  reachable cfg s ->
  config s = cfg /\ currentSize s = total_length (attentionField s).
Proof.
  induction 1 as [|op s Hs [IHc IHa] Hen].
  - split; reflexivity.
  - split; [rewrite run_config; exact IHc | now apply run_accounting].
Qed.

Lemma reachable_run_all (cfg : AttentionConfig) (ops : list Operation) s :
  reachable cfg s -> all_enabled ops s = true -> reachable cfg (run_all ops s).
Proof.
  revert s. induction ops as [|op ops IH]; intros s Hs Hen; [exact Hs |].
  cbn in Hen. apply andb_prop in Hen as [Hop Hrest].
  cbn. apply IH; [| exact Hrest]. now constructor.
Qed.

(** Without a port the tick publishes nothing. *)
Lemma tick_unbound_silent s :
  hubPort s = None -> snd (processPendingActivities s) = [].
Proof. intros Hport. rewrite processPendingActivities_eq. cbn. now rewrite Hport. Qed.

(** *** The timer *)

(** [startPaceTimer] sets the interval timer once. *)
Lemma startPaceTimer_once s :
  paceTimer (startPaceTimer s) = true /\
  startPaceTimer (startPaceTimer s) = startPaceTimer s.
Proof.
  unfold startPaceTimer. destruct (paceTimer s) eqn:Hp; cbn; rewrite ?Hp; auto.
Qed.

(** [stop] clears the timer, the field and the queues; the timer callback
    is not enabled in the state it leaves. *)
Lemma stop_clears s :
  paceTimer (fst (stop s)) = false /\
  enabled OpTick (fst (stop s)) = false /\
  attentionField (fst (stop s)) = [] /\
  currentSize (fst (stop s)) = 0 /\
  pendingActivitiesByRole (fst (stop s)) = [].
Proof.
  unfold stop, stopPaceTimer. cbn.
  destruct (paceTimer s) eqn:Hp; cbn; rewrite ?Hp; auto.
Qed.

End TickFacts.

(** ** The field after a tick *)

Lemma floor_share_bounds (n : nat) (p : Q) :
  (0 <= p)%Q -> (p <= 1)%Q ->
  0 <= Qfloor (inject_Z (Z.of_nat n) * p) <= Z.of_nat n.
Proof.
  intros H0 H1.
  assert (Hn : (0 <= inject_Z (Z.of_nat n))%Q).
  { change (inject_Z 0 <= inject_Z (Z.of_nat n))%Q. rewrite <- Zle_Qle. lia. }
  split.
  - change 0 with (Qfloor 0). apply Qfloor_resp_le.
    now apply Qmult_le_0_compat.
  - rewrite <- (Qfloor_Z (Z.of_nat n)) at 2. apply Qfloor_resp_le.
    rewrite <- (Qmult_1_r (inject_Z (Z.of_nat n))) at 2.
    rewrite !(Qmult_comm (inject_Z (Z.of_nat n))).
    now apply Qmult_le_compat_r.
Qed.

Lemma floor_share_nonneg (n : nat) (p : Q) :
  (0 <= p)%Q -> 0 <= Qfloor (inject_Z (Z.of_nat n) * p).
Proof.
  intros H0. change 0 with (Qfloor 0). apply Qfloor_resp_le.
  apply Qmult_le_0_compat; [| exact H0].
  change (inject_Z 0 <= inject_Z (Z.of_nat n))%Q. rewrite <- Zle_Qle. lia.
Qed.

Lemma floor_share_empty (p : Q) : Qfloor (inject_Z (Z.of_nat 0) * p) = 0.
Proof.
  change (inject_Z (Z.of_nat 0)) with 0%Q.
  assert (E : (0 * p == 0)%Q) by ring.
  rewrite E. reflexivity.
Qed.

Section TickProperties.

Context {PQ : Type} `{MaxPriorityQueue PQ}.
Implicit Types s : Attention PQ.

(** C1 (amended): after every admission tick, in every state the
    controller can reach, [currentSize] is the sum of the content lengths
    of the entries in the field.  [currentSize <= maxSize] holds after a
    tick whose admission does not overflow the field; after a tick that
    overflows, [currentSize] is the length of the entries the eviction
    kept plus the length of the admitted ones, whatever [maxSize] is. *)
Theorem tick_size_accounting (cfg : AttentionConfig) s :
  reachable cfg s ->
  let s' := fst (processPendingActivities s) in
  currentSize s' = total_length (attentionField s') /\
  (currentSize s + addedSize s <= maxSize cfg -> currentSize s' <= maxSize cfg) /\
  (currentSize s + addedSize s > maxSize cfg ->
   currentSize s' = total_length (kept s) + addedSize s).
Proof.
  intros Hreach. destruct (reachable_invariant cfg s Hreach) as [Hcfg Hinv].
  cbv zeta. rewrite tick_currentSize, tick_field.
  split; [now apply tick_accounting |].
  unfold sizeAfter, clears, overflows. rewrite Hcfg.
  split; intros Hsize.
  - destruct (Z.gtb_spec (currentSize s + addedSize s) (maxSize cfg)); [lia |].
    cbn [andb]. exact Hsize.
  - destruct (clears s) eqn:Hc; unfold clears, overflows in Hc; rewrite Hcfg in Hc;
      rewrite Hc; [reflexivity |].
    rewrite (kept_all s) by (unfold clears, overflows; rewrite Hcfg; exact Hc).
    lia.
Qed.

(** C3 (amended): a tick sorts the admitted entries by timestamp, earliest
    first and entries of one timestamp in the order they were selected, and
    appends them behind the entries the field keeps.  The field is
    chronological after the tick when it was so before and no admitted
    entry is older than an entry the field keeps. *)
Theorem tick_appends_sorted_batch s :
  let s' := fst (processPendingActivities s) in
  attentionField s' = kept s ++ admitted s /\
  attentionField s = evicted s ++ kept s /\
  chronological (admitted s) /\
  Permutation (admitted s) (toAdd (allocate s)) /\
  (forall t, List.filter (fun e => timestamp e =? t) (admitted s)
             = List.filter (fun e => timestamp e =? t) (toAdd (allocate s))) /\
  (chronological (attentionField s) ->
   (forall a b, In a (kept s) -> In b (admitted s) -> timestamp a <= timestamp b) ->
   chronological (attentionField s')).
Proof.
  cbv zeta. rewrite tick_field.
  split; [reflexivity |].
  split; [symmetry; apply evicted_kept |].
  split; [apply sort_by_timestamp_sorted |].
  split; [apply sort_by_timestamp_perm |].
  split; [intros t; apply sort_by_timestamp_stable |].
  intros Hfield Hcross.
  apply chronological_app; [| apply sort_by_timestamp_sorted | exact Hcross].
  unfold kept. destruct (overflows _ _); [| exact Hfield].
  now apply chronological_skipn.
Qed.


(** C10: with a port bound every tick publishes an [add] notification, as
    the last thing it publishes, with the admitted entries (none, when
    nothing was admitted), the field, [currentSize], [maxSize] and their
    ratio; a [cleared] notification goes out before it exactly when the
    tick removed at least one entry from the field.  [clearPercentage] is
    not negative. *)
Theorem tick_notifications s (port : string) :
  hubPort s = Some port ->
  (0 <= clearPercentage (config s))%Q ->
  let s' := fst (processPendingActivities s) in
  let published := snd (processPendingActivities s) in
  let add :=
    AttentionAdd (admitted s) (attentionField s') (currentSize s')
      (maxSize (config s'))
      (JsNum.div (inject_Z (currentSize s')) (inject_Z (maxSize (config s')))) in
  attentionField s = evicted s ++ kept s /\
  attentionField s' = kept s ++ admitted s /\
  (evicted s = [] -> published = [add]) /\
  (evicted s <> [] ->
   published =
     [AttentionCleared (evicted s) (clearCount s)
        (Z.of_nat (length (attentionField s)))
        (total_length (evicted s)) (total_length (kept s));
      add]).
Proof.
  intros Hport H0. cbv zeta.
  rewrite processPendingActivities_eq. cbn [fst snd attentionField currentSize config].
  rewrite Hport.
  split; [symmetry; apply evicted_kept |].
  split; [reflexivity |].
  pose proof (floor_share_nonneg (length (attentionField s)) _ H0) as Hnn.
  fold (clearCount s) in Hnn.
  unfold clears, evicted.
  destruct (overflows s (addedSize s)); cbn [andb].
  - destruct (Z.eqb_spec (clearCount s) 0) as [Hz|Hnz]; cbn [negb].
    + rewrite Hz. change (Z.to_nat 0) with 0%nat. cbn [firstn].
      split; [reflexivity | intros Hne; now contradiction Hne].
    + assert (Hfield : attentionField s <> []).
      { intros Hnil. apply Hnz. unfold clearCount. rewrite Hnil.
        apply floor_share_empty. }
      assert (Hpos : (0 < Z.to_nat (clearCount s))%nat) by lia.
      split.
      * intros Hnone. exfalso.
        destruct (attentionField s) as [|e l]; [congruence |].
        destruct (Z.to_nat (clearCount s)); [lia | discriminate].
      * intros _. reflexivity.
  - split; [reflexivity | intros Hne; now contradiction Hne].
Qed.

End TickProperties.

(** ** The worked examples of the tick *)

Lemma reachable_after_calls (cfg : AttentionConfig) (ops : list Operation) :
  all_enabled (OpSetHub "attention" :: OpStart :: ops)
    (newAttention (PQ := list AttentionEntry) cfg) = true ->
  reachable cfg (after_calls cfg ops).
Proof.
  intros Hen. unfold after_calls.
  apply reachable_run_all; [constructor | exact Hen].
Qed.

Lemma reachable_state_full : reachable config_small_field state_full.
Proof. apply reachable_after_calls. vm_compute. reflexivity. Qed.

(** C1, as stated, fails: the field holds one entry of 60 characters and a
    second one is admitted.  The eviction count is [floor(1 * 0.5) = 0], no
    entry leaves, and the tick ends with [currentSize = 120] over
    [maxSize = 100]. *)
Lemma tick_exceeds_maxSize :
  reachable config_small_field state_overfull /\
  paceTimer state_overfull = true /\
  currentSize (fst (processPendingActivities state_overfull)) = 120 /\
  maxSize (config (fst (processPendingActivities state_overfull))) = 100 /\
  ~ (currentSize (fst (processPendingActivities state_overfull))
     <= maxSize (config (fst (processPendingActivities state_overfull)))).
Proof.
  split; [apply reachable_after_calls; vm_compute; reflexivity |].
  split; [vm_compute; reflexivity |].
  split; [vm_compute; reflexivity |].
  split; [vm_compute; reflexivity |].
  vm_compute. intros Hle. now apply Hle.
Qed.

(** The eviction scenario satisfies C1: the tick ends with the accounting
    exact, after an eviction that leaves 50 characters for the 10 admitted. *)
Lemma tick_size_accounting_witness :
  reachable config_small_field state_full /\
  currentSize (fst (processPendingActivities state_full))
  = total_length (attentionField (fst (processPendingActivities state_full))) /\
  currentSize (fst (processPendingActivities state_full))
  = total_length (kept state_full) + addedSize state_full.
Proof.
  split; [exact reachable_state_full |].
  destruct (tick_size_accounting config_small_field state_full reachable_state_full)
    as (Hsum & _ & Hover).
  split; [exact Hsum |].
  apply Hover. vm_compute. reflexivity.
Defined.

(** C3, as stated, fails: the first tick admits the entry of timestamp 2
    and defers the one of timestamp 1, of lower priority; the second tick
    appends the deferred entry behind the younger one. *)
Lemma deferred_entry_breaks_order :
  reachable defaultConfig state_deferred /\
  paceTimer state_deferred = true /\
  map timestamp (attentionField state_deferred) = [2] /\
  map timestamp (attentionField (fst (processPendingActivities state_deferred)))
  = [2; 1] /\
  ~ chronological (attentionField (fst (processPendingActivities state_deferred))).
Proof.
  split; [apply reachable_after_calls; vm_compute; reflexivity |].
  split; [vm_compute; reflexivity |].
  split; [vm_compute; reflexivity |].
  split; [vm_compute; reflexivity |].
  intros Hsorted.
  assert (Hts : map timestamp
                  (attentionField (fst (processPendingActivities state_deferred)))
                = [2; 1]) by (vm_compute; reflexivity).
  destruct (attentionField (fst (processPendingActivities state_deferred)))
    as [|a [|b l]]; try discriminate Hts.
  injection Hts as Ha Hb _.
  inversion Hsorted as [|? ? _ Hall]; subst.
  inversion Hall as [|? ? Hab _]; subst. lia.
Qed.

(** In the eviction scenario the admitted entry is younger than the field:
    the field stays chronological. *)
Lemma tick_appends_sorted_batch_witness :
  chronological (attentionField state_full) /\
  chronological (attentionField (fst (processPendingActivities state_full))).
Proof.
  assert (Hfield : chronological (attentionField state_full)).
  { vm_compute. repeat (constructor; [| repeat constructor; discriminate]).
    constructor. }
  split; [exact Hfield |].
  destruct (tick_appends_sorted_batch state_full) as (_ & _ & _ & _ & _ & Hchron).
  apply Hchron; [exact Hfield |].
  intros a b Ha Hb.
  assert (Hold : timestamp a <= 10).
  { revert Ha. vm_compute. intuition (subst; discriminate). }
  assert (Hnew : timestamp b = 11).
  { revert Hb. vm_compute. intuition (subst; reflexivity). }
  lia.
Defined.


(** In the eviction scenario the tick publishes [cleared], then [add]; a
    tick with nothing pending publishes [add] with no entries. *)
Lemma tick_notifications_witness :
  map action (snd (processPendingActivities state_full)) = ["cleared"; "add"] /\
  length (evicted state_full) = 5%nat /\
  snd (processPendingActivities state_quiet)
  = [AttentionAdd [] [] 0 10000 (Some (0 # 10000)%Q)].
Proof.
  assert (H0 : (0 <= clearPercentage (config state_full))%Q)
    by (vm_compute; discriminate).
  assert (H0' : (0 <= clearPercentage (config state_quiet))%Q)
    by (vm_compute; discriminate).
  destruct (tick_notifications state_full "attention" eq_refl H0)
    as (_ & _ & _ & Hcleared).
  destruct (tick_notifications state_quiet "attention" eq_refl H0')
    as (_ & _ & Hadd & _).
  split; [rewrite Hcleared; [reflexivity | vm_compute; discriminate] |].
  split; [vm_compute; reflexivity |].
  rewrite Hadd; [vm_compute | ]; reflexivity.
Defined.

(** ** The focus table *)


Section FocusProperties.

Context {PQ : Type} `{MaxPriorityQueue PQ}.
Implicit Types s : Attention PQ.


End FocusProperties.


(** ** Allocation *)

Lemma takeWithinShare_perm (share : option Z) (entries : list AttentionEntry)
  (used : Z) :
  Permutation entries
    (fst (takeWithinShare share used entries) ++
     snd (takeWithinShare share used entries)).
Proof.
  revert used. induction entries as [|e l IH]; intros used; cbn; [constructor |].
  destruct (JsNum.leb _ _).
  - specialize (IH (used + content_length e)).
    destruct (takeWithinShare share (used + content_length e) l) as [taken deferred].
    cbn in *. now constructor.
  - specialize (IH used).
    destruct (takeWithinShare share used l) as [taken deferred].
    cbn in *. rewrite IH. apply Permutation_middle.
Qed.



(** Lengths are integers: rounding the share down does not change which
    entries fit it. *)
Lemma fits_floor (n : Z) (share : Q) :
  JsNum.leb n (JsNum.floor (Some share)) = Qle_bool (inject_Z n) share.
Proof.
  cbn [JsNum.leb JsNum.floor].
  destruct (Z.leb_spec n (Qfloor share)) as [Hle|Hgt]; symmetry.
  - apply Qle_bool_iff. eapply Qle_trans; [| apply Qfloor_le].
    now rewrite <- Zle_Qle.
  - destruct (Qle_bool (inject_Z n) share) eqn:Hq; [| reflexivity].
    apply Qle_bool_iff, Qfloor_resp_le in Hq. rewrite Qfloor_Z in Hq. lia.
Qed.

Section AllocationFacts.

Context {PQ : Type} `{MaxPriorityQueue PQ}.
Hypothesis laws : MaxPriorityQueueLaws PQ.
Implicit Types s : Attention PQ.
Implicit Types q : PQ.

Lemma drain_loop_spec (fuel : nat) q :
  (pq_size q <= fuel)%nat ->
  pq_items (snd (drain_loop fuel q)) = [] /\
  Permutation (fst (drain_loop fuel q)) (pq_items q) /\
  by_priority (fst (drain_loop fuel q)).
Proof.
  unfold pq_size, by_priority. revert q.
  induction fuel as [|fuel IH]; intros q Hfuel; cbn [drain_loop].
  - destruct (pq_items q) eqn:Hitems; [| cbn in Hfuel; lia].
    cbn. rewrite Hitems. repeat split; constructor.
  - unfold isEmpty. destruct (pq_items q) as [|x items] eqn:Hitems.
    + cbn. rewrite Hitems. repeat split; constructor.
    + destruct (dequeue q) as [[e q']|] eqn:Hdq.
      * destruct (dequeue_some PQ laws q e q' Hdq) as [Hperm Hmax].
        assert (Hlen : (length (pq_items q') <= fuel)%nat).
        { apply Permutation_length in Hperm. rewrite Hitems in Hperm.
          cbn in Hperm, Hfuel. lia. }
        destruct (IH q' Hlen) as (Hempty & Hp & Hsorted).
        destruct (drain_loop fuel q') as [entries q'']. cbn [fst snd] in *.
        split; [exact Hempty |].
        split; [rewrite <- Hitems, Hperm; now constructor |].
        constructor; [exact Hsorted |].
        eapply Permutation_Forall; [symmetry; exact Hp | exact Hmax].
      * apply (dequeue_none PQ laws) in Hdq. congruence.
Qed.

(** The loop that empties a queue ends, with the queue empty and its
    entries in the order of their priority. *)
Lemma drain_spec q :
  pq_items (snd (drain q)) = [] /\
  Permutation (fst (drain q)) (pq_items q) /\
  by_priority (fst (drain q)).
Proof. apply drain_loop_spec. unfold pq_size. lia. Qed.

(** [selectEntries] takes what [takeWithinShare] takes and returns the rest
    to the queue. *)
Lemma selectEntries_spec (share : option Z) (entries : list AttentionEntry)
  (used : Z) q :
  fst (selectEntries share used entries q)
  = fst (takeWithinShare share used entries) /\
  Permutation (pq_items (snd (selectEntries share used entries q)))
    (snd (takeWithinShare share used entries) ++ pq_items q).
Proof.
  revert used q. induction entries as [|e l IH]; intros used q; cbn.
  - split; reflexivity.
  - destruct (JsNum.leb _ _).
    + specialize (IH (used + content_length e) q).
      destruct (selectEntries share (used + content_length e) l q).
      destruct (takeWithinShare share (used + content_length e) l).
      cbn in *. destruct IH as [-> Hp]. split; [reflexivity | exact Hp].
    + specialize (IH used (enqueue e q)).
      destruct (selectEntries share used l (enqueue e q)).
      destruct (takeWithinShare share used l).
      cbn in *. destruct IH as [-> Hp]. split; [reflexivity |].
      rewrite Hp, (enqueue_items PQ laws). symmetry. apply Permutation_middle.
Qed.



End AllocationFacts.

(** *** The list queue keeps the contract *)

Lemma list_dequeue_none (q : list AttentionEntry) :
  list_dequeue q = None <-> q = [].
Proof.
  destruct q as [|x q]; cbn; [easy |].
  destruct (list_dequeue q) as [[m rest]|]; [destruct (_ <=? _) |]; easy.
Qed.

Lemma list_dequeue_some (q : list AttentionEntry) (e : AttentionEntry)
  (q' : list AttentionEntry) :
  list_dequeue q = Some (e, q') ->
  Permutation q (e :: q') /\ Forall (fun x => priority x <= priority e) q'.
Proof.
  revert e q'. induction q as [|x l IH]; intros e q' Hdq; [discriminate |].
  cbn in Hdq. destruct (list_dequeue l) as [[m rest]|] eqn:Hl.
  - destruct (IH m rest eq_refl) as [Hperm Hmax].
    destruct (Z.leb_spec (priority m) (priority x)) as [Hle|Hgt];
      injection Hdq as <- <-.
    + split; [reflexivity |].
      eapply Permutation_Forall; [symmetry; exact Hperm |].
      constructor; [exact Hle |].
      eapply Forall_impl; [exact Hmax |]. cbn. intros; lia.
    + split.
      * rewrite Hperm. apply perm_swap.
      * constructor; [lia | exact Hmax].
  - apply list_dequeue_none in Hl. subst l.
    injection Hdq as <- <-. split; [reflexivity | constructor].
Qed.

Lemma ListQueue_laws : MaxPriorityQueueLaws (list AttentionEntry).
Proof.
  constructor.
  - reflexivity.
  - intros e q. cbn. unfold list_enqueue. symmetry. apply Permutation_cons_append.
  - exact list_dequeue_none.
  - exact list_dequeue_some.
Qed.

(** *** An over-budget tick *)



Section AllocationProperties.

Context {PQ : Type} `{MaxPriorityQueue PQ}.
Hypothesis laws : MaxPriorityQueueLaws PQ.
Implicit Types s : Attention PQ.
Implicit Types q : PQ.



End AllocationProperties.



(** ** Dispatch in the Hub *)

Module HubProperties.

Import Hub.

Lemma matchedHandlers_returns (activity : Activity)
  (handlers : list ActivityHandler) (h : HubImpl) :
  Forall (condition_returns activity) handlers ->
  matchedHandlers activity handlers h =
  mkRun
    (Normal
       (List.filter
          (fun handler =>
             match isMatch activity handler with
             | Normal b => b
             | Throw _ => false
             end)
          handlers))
    h [].
Proof.
  induction 1 as [|handler rest [b Hb] _ IH]; [reflexivity |].
  cbn [matchedHandlers List.filter]. rewrite Hb.
  unfold bind. cbn [lift ret value after trace]. rewrite IH.
  cbn [value after trace ret app]. destruct b; reflexivity.
Qed.

Lemma callHandlers_returns (activity : Activity)
  (matched : list ActivityHandler) (h : HubImpl) :
  Forall (returns_promise activity) matched ->
  exists promises,
    callHandlers activity matched h = mkRun (Normal promises) h (calls activity matched) /\
    Forall (fun c => settles c = Fulfilled tt) promises /\
    length promises = length matched.
Proof.
  induction 1 as [|handler rest [p Hp] _ (promises & IH & Hall & Hlen)].
  - exists []. repeat split; constructor.
  - exists (catch handler activity p :: promises).
    split; [| split].
    + cbn [callHandlers calls flat_map]. unfold bind, emit.
      cbn [value after trace]. rewrite Hp. cbn [lift ret value after trace].
      rewrite IH. cbn [value after trace ret]. now rewrite app_nil_r.
    + constructor; [destruct p; reflexivity | exact Hall].
    + cbn. now rewrite Hlen.
Qed.

Lemma handled_calls {A : Type} (v : completion A) (h : HubImpl)
  (before : list Event) (activity : Activity) (matched : list ActivityHandler) :
  (forall e, In e before -> match e with Handle _ _ => False | _ => True end) ->
  handled (mkRun v h (before ++ calls activity matched)) = map ref matched.
Proof.
  intros Hbefore. unfold handled. cbn [trace]. rewrite flat_map_app.
  assert (Hnone : flat_map
            (fun e => match e with Handle handler _ => [handler] | _ => [] end)
            before = []).
  { induction before as [|e before IH]; [reflexivity |].
    cbn. pose proof (Hbefore e (or_introl eq_refl)) as He.
    destruct e; try contradiction; cbn; apply IH;
      intros e' He'; apply Hbefore; now right. }
  rewrite Hnone. cbn [app]. unfold calls.
  induction matched as [|handler rest IH]; [reflexivity |].
  cbn. now rewrite IH.
Qed.

(** What [triggerHandlers] does when no condition and no handler throws. *)
Lemma triggerHandlers_returns (activity : Activity) (h : HubImpl) :
  Forall (condition_returns activity) (all_handlers h) ->
  Forall (returns_promise activity) (matching activity h) ->
  exists promises,
    triggerHandlers activity h
    = mkRun (Normal promises) h (calls activity (matching activity h)) /\
    Forall (fun c => settles c = Fulfilled tt) promises.
Proof.
  intros Hcond Hhandle.
  destruct (callHandlers_returns activity (matching activity h) h Hhandle)
    as (promises & Hcall & Hall & _).
  exists promises. split; [| exact Hall].
  unfold triggerHandlers, bind at 1. cbn [get value after trace].
  unfold bind. rewrite (matchedHandlers_returns activity _ h Hcond).
  cbn [value after trace]. fold (matching activity h). rewrite Hcall.
  reflexivity.
Qed.

(** A running Hub hands every activity to [triggerHandlers]. *)
Lemma appendActivity_running (activity : Activity) (h : HubImpl) :
  running h = true ->
  appendActivity activity h =
  let r := triggerHandlers activity h in
  mkRun
    (match value r with Normal _ => Normal tt | Throw error => Throw error end)
    (after r)
    (unregistered_warning activity h ++
     LogDebug ("活动已添加: " +:+ activity_name activity) :: trace r).
Proof.
  intros Hrun. unfold appendActivity, unregistered_warning, bind at 1.
  cbn [get value after trace]. rewrite Hrun. cbn [negb].
  unfold bind, emit, ret.
  destruct (faculties h !! role activity); cbn [value after trace app];
    destruct (value (triggerHandlers activity h));
    cbn [value after trace app]; rewrite ?app_nil_r; reflexivity.
Qed.

(** C7: while the Hub is not running, [appendActivity] returns, calls no
    handler and leaves the Hub as it is; all it does is log one warning.
    While the Hub is running it hands the activity to [triggerHandlers],
    whether the role of the activity is connected or not: a role that is
    not connected adds a warning and nothing else.  When no condition and
    no handler throws, every handler that matches is called, in the order
    of registration, and the call returns. *)
Theorem appendActivity_stopped_or_unregistered (activity : Activity) (h : HubImpl) :
  (running h = false ->
   appendActivity activity h
   = mkRun (Normal tt) h [LogWarn "Hub 尚未启动"]) /\
  (running h = true ->
   after (appendActivity activity h) = after (triggerHandlers activity h) /\
   trace (appendActivity activity h)
   = unregistered_warning activity h ++
     LogDebug ("活动已添加: " +:+ activity_name activity)
     :: trace (triggerHandlers activity h)) /\
  (running h = true ->
   Forall (condition_returns activity) (all_handlers h) ->
   Forall (returns_promise activity) (matching activity h) ->
   value (appendActivity activity h) = Normal tt /\
   after (appendActivity activity h) = h /\
   handled (appendActivity activity h) = map ref (matching activity h)).
Proof.
  split; [| split].
  - intros Hstop. unfold appendActivity, bind. cbn [get value after trace].
    rewrite Hstop. reflexivity.
  - intros Hrun. rewrite (appendActivity_running activity h Hrun).
    split; reflexivity.
  - intros Hrun Hcond Hhandle.
    rewrite (appendActivity_running activity h Hrun).
    destruct (triggerHandlers_returns activity h Hcond Hhandle)
      as (promises & -> & _).
    cbv zeta. cbn [value after trace].
    split; [reflexivity |]. split; [reflexivity |].
    change (unregistered_warning activity h ++
            LogDebug ("活动已添加: " +:+ activity_name activity)
            :: calls activity (matching activity h))
      with (unregistered_warning activity h ++
            [LogDebug ("活动已添加: " +:+ activity_name activity)] ++
            calls activity (matching activity h)).
    rewrite app_assoc. apply handled_calls.
    intros e He. apply in_app_or in He as [He|He].
    + unfold unregistered_warning in He.
      destruct (faculties h !! role activity); [contradiction |].
      destruct He as [<-|[]]. exact I.
    + destruct He as [<-|[]]. exact I.
Qed.

(** A stopped Hub ignores the activity; a running Hub delivers the activity
    of a role that is not connected to both handlers, of which the first
    rejects its promise. *)
Lemma appendActivity_stopped_or_unregistered_witness :
  running (hub_stopped rejecting_handler) = false /\
  handled (appendActivity from_stranger (hub_stopped rejecting_handler)) = [] /\
  running (hub_running rejecting_handler) = true /\
  faculties (hub_running rejecting_handler) !! role from_stranger = None /\
  value (appendActivity from_stranger (hub_running rejecting_handler)) = Normal tt /\
  handled (appendActivity from_stranger (hub_running rejecting_handler)) = [1%nat; 2%nat].
Proof.
  destruct (appendActivity_stopped_or_unregistered from_stranger
              (hub_stopped rejecting_handler)) as (Hstopped & _ & _).
  destruct (appendActivity_stopped_or_unregistered from_stranger
              (hub_running rejecting_handler)) as (_ & _ & Hrunning).
  split; [reflexivity |].
  split; [rewrite Hstopped; reflexivity |].
  split; [reflexivity |].
  split; [vm_compute; reflexivity |].
  destruct Hrunning as (Hvalue & _ & Hhandled).
  - reflexivity.
  - repeat constructor; eexists; reflexivity.
  - repeat constructor; eexists; reflexivity.
  - split; [exact Hvalue | exact Hhandled].
Defined.

(** A rejected promise is isolated: the healthy handler is called, the
    call returns, and the promise handed back for the failed handler is
    fulfilled, with the failure logged once it settles. *)
Lemma rejecting_handler_is_isolated :
  value (triggerHandlers remembered (hub_running rejecting_handler))
  = Normal
      [ {| settles := Fulfilled tt;
           on_settle := [LogError "处理器执行失败: memory: rejects" "boom"
                           "memory.store"] |};
        {| settles := Fulfilled tt; on_settle := [] |} ] /\
  value (appendActivity remembered (hub_running rejecting_handler)) = Normal tt /\
  handled (appendActivity remembered (hub_running rejecting_handler)) = [1%nat; 2%nat].
Proof. repeat split; vm_compute; reflexivity. Qed.

(** C4 asks that no failure of a handler reaches the publisher or keeps
    another handler from being called.  The code breaks it for a handler
    that throws before it returns a promise: with such a handler registered
    ahead of a healthy one, both matching the activity, [appendActivity]
    throws to its caller and the healthy handler is not called. *)
Theorem throwing_handler_stops_dispatch :
  running (hub_running throwing_handler) = true /\
  map ref (matching remembered (hub_running throwing_handler)) = [1%nat; 2%nat] /\
  value (appendActivity remembered (hub_running throwing_handler)) = Throw "boom" /\
  handled (appendActivity remembered (hub_running throwing_handler)) = [1%nat] /\
  after (appendActivity remembered (hub_running throwing_handler))
  = hub_running throwing_handler.
Proof. repeat split; vm_compute; reflexivity. Qed.

(** A condition that throws ends the dispatch before any handler is
    called: the callback of [filter] has no guard. *)
Lemma throwing_condition_stops_dispatch :
  running (hub_running picky_handler) = true /\
  map ref (all_handlers (hub_running picky_handler)) = [1%nat; 2%nat] /\
  value (appendActivity remembered (hub_running picky_handler)) = Throw "bad filter" /\
  handled (appendActivity remembered (hub_running picky_handler)) = [].
Proof. repeat split; vm_compute; reflexivity. Qed.

End HubProperties.

(** The fairness scenario: both roles have entries pending, the total focus
    is 2 and each share 50.  [A] admits its entry of the highest priority
    and gets the three others back in its queue, [B] admits its only
    entry. *)
Lemma two_roles_share_the_budget :
  reachable defaultConfig state_two_roles /\
  pendingLength (pendingActivitiesByRole state_two_roles) = 250 /\
  (totalFocus state_two_roles (drainAll (pendingActivitiesByRole state_two_roles))
   == 2)%Q /\
  map (fun rq => (fst rq, map (fun e => (timestamp e, priority e)) (fst (snd rq))))
    (allocate state_two_roles)
  = [("A", [(2, 9)]); ("B", [(3, 5)])] /\
  map (fun rq => (fst rq, map (fun e => (timestamp e, priority e)) (snd rq)))
    (pendingActivitiesByRole (fst (processPendingActivities state_two_roles)))
  = [("A", [(5, 7); (4, 5); (1, 3)]); ("B", [])] /\
  map timestamp (attentionField (fst (processPendingActivities state_two_roles)))
  = [2; 3].
Proof.
  split; [apply reachable_after_calls; vm_compute; reflexivity |].
  repeat split; vm_compute; reflexivity.
Qed.

(** * Further properties of the controller *)

(** ** What a tick does with the pending entries *)

Lemma map_pair_eta {A B : Type} (l : list (A * B)) :
  map (fun x => (fst x, snd x)) l = l.
Proof. induction l as [|[a b] l IH]; cbn; [reflexivity | now rewrite IH]. Qed.

Lemma total_length_concat (ls : list (list AttentionEntry)) (acc : Z) :
  fold_left (fun sum l => sum + total_length l) ls acc
  = acc + total_length (concat ls).
Proof.
  revert acc. induction ls as [|l ls IH]; intros acc; cbn [fold_left concat].
  - change (total_length []) with 0. lia.
  - rewrite IH, total_length_app. lia.
Qed.

Lemma Permutation_app_interleave {A : Type} (a b c d : list A) :
  Permutation ((a ++ b) ++ (c ++ d)) ((a ++ c) ++ (b ++ d)).
Proof.
  rewrite <- !app_assoc. apply Permutation_app_head.
  rewrite !app_assoc. apply Permutation_app_tail. apply Permutation_app_comm.
Qed.

Section Conservation.

Context {PQ : Type} `{MaxPriorityQueue PQ}.
Hypothesis laws : MaxPriorityQueueLaws PQ.
Implicit Types s : Attention PQ.
Implicit Types q : PQ.

Lemma allocate_perRole s :
  allocate s
  = map (fun rq => (fst rq, perRole s (fst rq) (snd rq))) (pendingActivitiesByRole s).
Proof.
  unfold allocate, perRole, drainAll.
  destruct (JsNum.Zle_Q _ _); rewrite ?map_map; reflexivity.
Qed.

Lemma perRole_conserves s (role : string) q :
  Permutation (pq_items q)
    (fst (perRole s role q) ++ pq_items (snd (perRole s role q))).
Proof.
  unfold perRole. destruct (drain_spec laws q) as (Hempty & Hperm & _).
  destruct (JsNum.Zle_Q _ _).
  - rewrite Hempty, app_nil_r. now symmetry.
  - match goal with |- context [selectEntries ?sh 0 _ _] => set (share := sh) end.
    destruct (selectEntries_spec laws share (fst (drain q)) 0 (snd (drain q)))
      as [-> Hrest].
    rewrite Hrest, Hempty, app_nil_r, <- Hperm. apply takeWithinShare_perm.
Qed.

Lemma allocate_conserves s :
  Permutation (pendingItems (pendingActivitiesByRole s))
    (toAdd (allocate s) ++ pendingItems (pendingAfter (allocate s))).
Proof.
  rewrite allocate_perRole. unfold pendingItems, toAdd, pendingAfter.
  induction (pendingActivitiesByRole s) as [|[r q] pending IH];
    cbn [map concat fst snd]; [constructor |].
  rewrite IH, (perRole_conserves s r q) at 1.
  apply Permutation_app_interleave.
Qed.

Lemma allocate_roles s :
  map fst (pendingAfter (allocate s)) = map fst (pendingActivitiesByRole s).
Proof.
  rewrite allocate_perRole. unfold pendingAfter. now rewrite !map_map.
Qed.

End Conservation.


Section TickEntries.

Context {PQ : Type} `{MaxPriorityQueue PQ}.
Hypothesis laws : MaxPriorityQueueLaws PQ.
Implicit Types s : Attention PQ.
Implicit Types q : PQ.

(** X1: every tick, within the budget or over it, leaves each pending entry
    either in the batch it appends to the field or in a queue: the entries
    pending before it are, counted with repetition, the admitted ones and
    those pending after it. *)
Theorem tick_conserves_entries s :
  Permutation (pendingItems (pendingActivitiesByRole s))
    (admitted s ++
     pendingItems (pendingActivitiesByRole (fst (processPendingActivities s)))) /\
  attentionField (fst (processPendingActivities s)) = kept s ++ admitted s /\
  map fst (pendingActivitiesByRole (fst (processPendingActivities s)))
  = map fst (pendingActivitiesByRole s).
Proof.
  rewrite tick_pending, tick_field.
  split; [| split; [reflexivity | apply (allocate_roles s)]].
  rewrite (allocate_conserves laws s). apply Permutation_app_tail.
  symmetry. apply sort_by_timestamp_perm.
Qed.


End TickEntries.

Section IdleTick.

Context {PQ : Type} `{MaxPriorityQueue PQ}.
Implicit Types s : Attention PQ.

Lemma perRole_idle s (role : string) (q : PQ) :
  pq_items q = [] -> perRole s role q = ([], q).
Proof.
  intros Hq. unfold perRole, drain, pq_size. rewrite Hq. cbn.
  destruct (JsNum.Zle_Q _ _); reflexivity.
Qed.

Lemma allocate_idle s :
  nothing_pending (pendingActivitiesByRole s) ->
  toAdd (allocate s) = [] /\ pendingAfter (allocate s) = pendingActivitiesByRole s.
Proof.
  intros Hidle. rewrite allocate_perRole. unfold toAdd, pendingAfter.
  induction Hidle as [|[r q] pending Hq _ [IHa IHp]]; [split; reflexivity |].
  cbn [map concat fst snd] in *. rewrite (perRole_idle s r q Hq).
  cbn [fst snd app]. now rewrite IHa, IHp.
Qed.

(** X3: a tick that finds nothing pending, in a field within [maxSize], leaves
    the controller exactly as it was; with a port bound it publishes one
    [add] notification with no added entries. *)
Theorem idle_tick_changes_nothing s :
  nothing_pending (pendingActivitiesByRole s) ->
  currentSize s <= maxSize (config s) ->
  fst (processPendingActivities s) = s /\
  snd (processPendingActivities s)
  = match hubPort s with
    | Some _ =>
        [AttentionAdd [] (attentionField s) (currentSize s) (maxSize (config s))
           (JsNum.div (inject_Z (currentSize s)) (inject_Z (maxSize (config s))))]
    | None => []
    end.
Proof.
  intros Hidle Hsize.
  destruct (allocate_idle s Hidle) as [Hadd Hpend].
  rewrite processPendingActivities_eq.
  unfold sizeAfter, clears, kept, admitted, addedSize, overflows.
  rewrite Hadd, Hpend. change (total_length []) with 0.
  cbn [sort_by_timestamp fold_right].
  destruct (Z.gtb_spec (currentSize s + 0) (maxSize (config s))); [lia |].
  cbn [andb fst snd]. rewrite app_nil_r, Z.add_0_r.
  split; [destruct s; reflexivity |].
  destruct (hubPort s); reflexivity.
Qed.

End IdleTick.

(** ** The budget of a tick *)






Section Budget.

Context {PQ : Type} `{MaxPriorityQueue PQ}.
Hypothesis laws : MaxPriorityQueueLaws PQ.
Implicit Types s : Attention PQ.












End Budget.

(** ** The focus table in the states the controller reaches *)

Section FocusTable.

Context {PQ : Type} `{MaxPriorityQueue PQ}.
Implicit Types s : Attention PQ.





(** X6: a focus that [setFacultyFocus] accepts is the one [getFacultyFocus]
    returns for the role afterwards; the focus of every other role is as
    before, and a rejected value changes nothing. *)
Theorem setFacultyFocus_then_get s (facultyName : string) (focus : Q) :
  match setFacultyFocus facultyName focus s with
  | Normal s' =>
      getFacultyFocus s' facultyName = focus /\
      (forall role, role <> facultyName ->
                    getFacultyFocus s' role = getFacultyFocus s role)
  | Throw _ =>
      forall role,
        getFacultyFocus (fst (fst (run (OpSetFacultyFocus facultyName focus) s))) role
        = getFacultyFocus s role
  end.
Proof.
  unfold run, setFacultyFocus.
  destruct (focus_out_of_range focus); [reflexivity |].
  unfold getFacultyFocus. cbn [focuses]. split.
  - now rewrite lookup_insert_eq.
  - intros role Hne. rewrite lookup_insert_ne by congruence. reflexivity.
Qed.

End FocusTable.

(** ** The queues of pending entries *)

Lemma truncate_within (max_len : Z) (s : string) :
  Z.of_nat (String.length (truncate max_len s)) <= Z.max max_len 3.
Proof.
  destruct (Z.le_gt_cases (Z.of_nat (String.length s)) max_len) as [Hshort|Hlong].
  - rewrite truncate_short by exact Hshort. lia.
  - rewrite truncate_long_length by lia. lia.
Qed.

Lemma consciousToEntry_within (cfg : AttentionConfig) (activity : Conscious)
  (entry : AttentionEntry) :
  consciousToEntry cfg activity = Some entry ->
  content_length entry <= entry_limit cfg /\ role entry = c_role activity.
Proof.
  unfold consciousToEntry. destruct (readable activity); [| discriminate].
  intros [= <-]. split; [apply truncate_within | reflexivity].
Qed.

Section Queues.

Context {PQ : Type} `{MaxPriorityQueue PQ}.
Hypothesis laws : MaxPriorityQueueLaws PQ.
Implicit Types s : Attention PQ.
Implicit Types q : PQ.

Lemma pending_enqueue_items (key : string) (entry : AttentionEntry)
  (pending : list (string * PQ)) :
  Permutation (pendingItems (pending_enqueue key entry pending))
    (entry :: pendingItems pending).
Proof.
  unfold pendingItems.
  induction pending as [|[r q] pending IH]; cbn [pending_enqueue map concat snd].
  - rewrite app_nil_r, (enqueue_items PQ laws), (pq_new_items PQ laws). reflexivity.
  - destruct (String.eqb r key); cbn [map concat snd].
    + now rewrite (enqueue_items PQ laws).
    + rewrite IH. symmetry. apply Permutation_middle.
Qed.

Lemma pending_enqueue_other (key role : string) (entry : AttentionEntry)
  (pending : list (string * PQ)) :
  role <> key ->
  queueOf role (pending_enqueue key entry pending) = queueOf role pending.
Proof.
  intros Hne.
  induction pending as [|[r q] pending IH]; cbn [pending_enqueue queueOf].
  - destruct (String.eqb_spec key role); [congruence | reflexivity].
  - destruct (String.eqb_spec r key) as [->|Hrk]; cbn [queueOf].
    + destruct (String.eqb_spec key role); [congruence | reflexivity].
    + destruct (String.eqb r role); [reflexivity | exact IH].
Qed.

Lemma pending_enqueue_same (key : string) (entry : AttentionEntry)
  (pending : list (string * PQ)) :
  exists q',
    queueOf key (pending_enqueue key entry pending) = Some q' /\
    Permutation (pq_items q')
      (entry :: match queueOf key pending with
                | Some q => pq_items q
                | None => []
                end).
Proof.
  induction pending as [|[r q] pending IH]; cbn [pending_enqueue queueOf].
  - rewrite String.eqb_refl. eexists. split; [reflexivity |].
    now rewrite (enqueue_items PQ laws), (pq_new_items PQ laws).
  - destruct (String.eqb_spec r key) as [->|Hrk]; cbn [queueOf].
    + rewrite String.eqb_refl. eexists. split; [reflexivity |].
      apply (enqueue_items PQ laws).
    + destruct (String.eqb_spec r key); [congruence | exact IH].
Qed.

(** X7: a conscious activity that renders puts exactly one entry, in the queue
    of its role, which is created when the role has none; the queue of
    every other role, the field and the accounting stay as they are.  An
    activity whose rendering throws changes nothing. *)
Theorem conscious_activity_enqueues_one s (activity : Conscious) :
  let s' := handleConsciousActivity activity s in
  attentionField s' = attentionField s /\
  currentSize s' = currentSize s /\
  match consciousToEntry (config s) activity with
  | Some entry =>
      role entry = c_role activity /\
      (exists q',
         queueOf (c_role activity) (pendingActivitiesByRole s') = Some q' /\
         Permutation (pq_items q')
           (entry :: match queueOf (c_role activity) (pendingActivitiesByRole s) with
                     | Some q => pq_items q
                     | None => []
                     end)) /\
      (forall other, other <> c_role activity ->
         queueOf other (pendingActivitiesByRole s')
         = queueOf other (pendingActivitiesByRole s)) /\
      Permutation (pendingItems (pendingActivitiesByRole s'))
        (entry :: pendingItems (pendingActivitiesByRole s))
  | None => s' = s
  end.
Proof.
  cbv zeta. unfold handleConsciousActivity.
  destruct (consciousToEntry (config s) activity) as [entry|] eqn:Hentry;
    [| repeat split].
  destruct (consciousToEntry_within _ _ _ Hentry) as [_ Hrole].
  cbn [attentionField currentSize pendingActivitiesByRole]. rewrite Hrole.
  repeat split.
  - apply pending_enqueue_same.
  - intros other Hne. now apply pending_enqueue_other.
  - apply pending_enqueue_items.
Qed.

End Queues.

(** ** What the controller holds in the states it reaches *)

Section Holdings.

Context {PQ : Type} `{MaxPriorityQueue PQ}.
Hypothesis laws : MaxPriorityQueueLaws PQ.
Implicit Types s : Attention PQ.
Implicit Types q : PQ.

Lemma tick_holdings (P : AttentionEntry -> Prop) s :
  Forall P (attentionField s) ->
  Forall P (pendingItems (pendingActivitiesByRole s)) ->
  Forall P (attentionField (fst (processPendingActivities s))) /\
  Forall P (pendingItems (pendingActivitiesByRole (fst (processPendingActivities s)))).
Proof.
  intros Hfield Hpending.
  rewrite tick_field, tick_pending.
  assert (Hboth : Forall P (toAdd (allocate s) ++
                            pendingItems (pendingAfter (allocate s)))).
  { eapply Permutation_Forall; [apply (allocate_conserves laws s) | exact Hpending]. }
  apply List.Forall_app in Hboth as [Hadd Hrest].
  split; [| exact Hrest].
  apply List.Forall_app. split.
  - rewrite <- (evicted_kept s) in Hfield. now apply List.Forall_app in Hfield.
  - eapply Permutation_Forall; [symmetry; apply sort_by_timestamp_perm | exact Hadd].
Qed.

Lemma run_within_limit (cfg : AttentionConfig) (op : Operation) s :
  config s = cfg ->
  Forall (fun e => content_length e <= entry_limit cfg) (attentionField s) ->
  Forall (fun e => content_length e <= entry_limit cfg)
    (pendingItems (pendingActivitiesByRole s)) ->
  Forall (fun e => content_length e <= entry_limit cfg)
    (attentionField (fst (fst (run op s)))) /\
  Forall (fun e => content_length e <= entry_limit cfg)
    (pendingItems (pendingActivitiesByRole (fst (fst (run op s))))).
Proof.
  intros Hcfg Hfield Hpending.
  destruct op;
    try (unfold run, promised, start, stop, sleep, wakeUp, startPaceTimer,
           stopPaceTimer, setFacultyFocus;
         try destruct (focus_out_of_range _);
         try destruct (hubPort s); try destruct (paceTimer s);
         cbn; solve [split; assumption | split; constructor]).
  - unfold run, handleConsciousActivity. cbn [fst].
    destruct (consciousToEntry (config s) activity) as [entry|] eqn:Hentry;
      [| split; assumption].
    cbn [attentionField pendingActivitiesByRole]. split; [exact Hfield |].
    eapply Permutation_Forall; [symmetry; apply (pending_enqueue_items laws) |].
    constructor; [| exact Hpending].
    rewrite <- Hcfg. apply (consciousToEntry_within _ _ _ Hentry).
  - unfold run. destruct (processPendingActivities s) as [s' out] eqn:Htick.
    cbn [fst]. change s' with (fst (s', out)). rewrite <- Htick.
    now apply tick_holdings.
Qed.

(** X8: in every state the controller reaches, no entry, pending or in the
    field, is longer than the limit of the configuration (or than the
    marker, under a limit below its length). *)
Theorem entries_within_limit (cfg : AttentionConfig) s :
  reachable cfg s ->
  Forall (fun e => content_length e <= entry_limit cfg) (attentionField s) /\
  Forall (fun e => content_length e <= entry_limit cfg)
    (pendingItems (pendingActivitiesByRole s)).
Proof.
  induction 1 as [|op s Hs [IHf IHp] _].
  - split; constructor.
  - apply run_within_limit; [apply (reachable_invariant cfg s Hs) | |]; assumption.
Qed.

Lemma pending_enqueue_roles (key : string) (entry : AttentionEntry)
  (pending : list (string * PQ)) (x : string) :
  In x (map fst (pending_enqueue key entry pending)) ->
  x = key \/ In x (map fst pending).
Proof.
  induction pending as [|[r q] pending IH]; cbn [pending_enqueue map fst].
  - intros [<-|[]]. now left.
  - destruct (String.eqb_spec r key) as [->|Hne]; cbn [map fst In].
    + intros [<-|Hin]; [now left | right; now right].
    + intros [<-|Hin]; [right; now left |].
      destruct (IH Hin); [now left | right; now right].
Qed.

Lemma pending_enqueue_filed (entry : AttentionEntry) (pending : list (string * PQ)) :
  filed_by_role pending ->
  filed_by_role (pending_enqueue (role entry) entry pending).
Proof.
  unfold filed_by_role.
  induction pending as [|[r q] pending IH]; intros [Hnodup Hall];
    cbn [pending_enqueue].
  - split; [constructor; [intros [] | constructor] |].
    constructor; [| constructor]. cbn [fst snd].
    eapply Permutation_Forall; [symmetry; apply (enqueue_items PQ laws) |].
    rewrite (pq_new_items PQ laws). constructor; [reflexivity | constructor].
  - inversion Hnodup as [|? ? Hnotin Hrest]; subst.
    inversion Hall as [|? ? Hq Hothers]; subst. cbn [fst snd] in *.
    destruct (String.eqb_spec r (role entry)) as [->|Hne].
    + split; [exact Hnodup |].
      constructor; [| exact Hothers]. cbn [fst snd].
      eapply Permutation_Forall; [symmetry; apply (enqueue_items PQ laws) |].
      constructor; [reflexivity | exact Hq].
    + destruct (IH (conj Hrest Hothers)) as [IHn IHa].
      split.
      * cbn [map fst]. constructor; [| exact IHn].
        intros Hin. apply pending_enqueue_roles in Hin as [->|Hin]; [congruence |].
        now apply Hnotin.
      * constructor; [exact Hq | exact IHa].
Qed.

Lemma tick_filed s :
  filed_by_role (pendingActivitiesByRole s) ->
  filed_by_role (pendingActivitiesByRole (fst (processPendingActivities s))).
Proof.
  unfold filed_by_role. intros [Hnodup Hall].
  rewrite tick_pending. split; [now rewrite allocate_roles |].
  rewrite allocate_perRole. unfold pendingAfter. rewrite map_map.
  cbn [fst snd].
  induction Hall as [|[r q] pending Hq _ IH]; cbn [map]; constructor.
  - cbn [fst snd] in *.
    pose proof (perRole_conserves laws s r q) as Hperm.
    eapply Permutation_Forall in Hq; [| exact Hperm].
    now apply List.Forall_app in Hq.
  - apply IH. now inversion Hnodup.
Qed.

(** X9: in every state the controller reaches, each role has one queue at
    most, and a queue holds entries of its own role only. *)
Theorem queues_filed_by_role (cfg : AttentionConfig) s :
  reachable cfg s -> filed_by_role (pendingActivitiesByRole s).
Proof.
  induction 1 as [|op s Hs IH _].
  - split; constructor.
  - destruct op;
      try (unfold run, promised, start, stop, sleep, wakeUp, startPaceTimer,
             stopPaceTimer, setFacultyFocus;
           try destruct (focus_out_of_range _);
           try destruct (hubPort s); try destruct (paceTimer s);
           cbn; solve [exact IH | split; constructor]).
    + unfold run, handleConsciousActivity. cbn [fst].
      destruct (consciousToEntry (config s) activity); [| exact IH].
      cbn [pendingActivitiesByRole]. now apply pending_enqueue_filed.
    + unfold run. destruct (processPendingActivities s) as [s' out] eqn:Htick.
      cbn [fst]. change s' with (fst (s', out)). rewrite <- Htick.
      now apply tick_filed.
Qed.

End Holdings.

(** ** The [cleared] notification *)

Section Cleared.

Context {PQ : Type} `{MaxPriorityQueue PQ}.
Implicit Types s : Attention PQ.

(** X10: the [cleared] notification of a tick accounts for the field: the
    cleared entries are the front of the field as it was, [clearedCount] is
    their number and is not zero, [totalCount] the number of entries before,
    [clearedSize] and [remainingSize] add up to [currentSize] as it was, and
    [currentSize] after the tick is [remainingSize] plus what was admitted.
    [clearPercentage] is a ratio between 0 and 1. *)
Theorem cleared_notification_accounts (cfg : AttentionConfig) s
  (clearedEntries : list AttentionEntry)
  (clearedCount totalCount clearedSize remainingSize : Z) :
  reachable cfg s ->
  (0 <= clearPercentage cfg)%Q -> (clearPercentage cfg <= 1)%Q ->
  In (AttentionCleared clearedEntries clearedCount totalCount clearedSize
        remainingSize)
     (snd (processPendingActivities s)) ->
  clearedEntries ++ kept s = attentionField s /\
  clearedCount = Z.of_nat (length clearedEntries) /\
  0 < clearedCount /\
  totalCount = Z.of_nat (length (attentionField s)) /\
  clearedSize = total_length clearedEntries /\
  clearedSize + remainingSize = currentSize s /\
  currentSize (fst (processPendingActivities s)) = remainingSize + addedSize s.
Proof.
  intros Hreach H0 H1.
  destruct (reachable_invariant cfg s Hreach) as [Hcfg Hinv]. subst cfg.
  rewrite processPendingActivities_eq. cbn [fst snd currentSize].
  destruct (hubPort s); [| intros []].
  destruct (clears s) eqn:Hclears; cbn [app In];
    [| intros [Heq|[]]; discriminate Heq].
  intros [Heq|[Heq|[]]]; [| discriminate Heq].
  injection Heq as <- <- <- <- <-.
  pose proof (floor_share_bounds (length (attentionField s)) _ H0 H1) as Hb.
  fold (clearCount s) in Hb.
  unfold clears in Hclears. apply andb_prop in Hclears as [Hover Hnz].
  apply negb_true_iff, Z.eqb_neq in Hnz.
  split; [apply evicted_kept |].
  assert (Hlen : Z.of_nat (length (evicted s)) = clearCount s).
  { unfold evicted. rewrite Hover, length_firstn. lia. }
  split; [now symmetry |].
  split; [lia |].
  split; [reflexivity |].
  split; [reflexivity |].
  split.
  - rewrite Hinv, <- (evicted_kept s) at 1. now rewrite total_length_app.
  - unfold sizeAfter, clears. rewrite Hover.
    destruct (Z.eqb_spec (clearCount s) 0); [contradiction | reflexivity].
Qed.

End Cleared.

(** ** The further properties on the worked examples *)

Lemma reachable_state_two_roles : reachable defaultConfig state_two_roles.
Proof. apply reachable_after_calls. vm_compute. reflexivity. Qed.

(** In the fairness scenario two of the five pending entries are admitted
    and three stay pending. *)
Lemma tick_conserves_entries_witness :
  Permutation (pendingItems (pendingActivitiesByRole state_two_roles))
    (admitted state_two_roles ++
     pendingItems
       (pendingActivitiesByRole (fst (processPendingActivities state_two_roles)))) /\
  length (admitted state_two_roles) = 2%nat /\
  length (pendingItems
            (pendingActivitiesByRole
               (fst (processPendingActivities state_two_roles)))) = 3%nat.
Proof.
  split; [apply (tick_conserves_entries ListQueue_laws state_two_roles) |].
  split; vm_compute; reflexivity.
Defined.


(** A started controller that has received nothing is left as it is. *)
Lemma idle_tick_changes_nothing_witness :
  fst (processPendingActivities state_quiet) = state_quiet.
Proof.
  apply (idle_tick_changes_nothing state_quiet).
  - constructor.
  - vm_compute. discriminate.
Defined.




(** A second activity of role [b] joins the three in its queue. *)
Lemma conscious_activity_enqueues_one_witness :
  exists q',
    queueOf "b"
      (pendingActivitiesByRole
         (handleConsciousActivity (conscious "b" 5 6 (chars 40)) state_idle_role))
    = Some q' /\
    length (pq_items q') = 4%nat.
Proof.
  destruct (conscious_activity_enqueues_one ListQueue_laws state_idle_role
              (conscious "b" 5 6 (chars 40)))
    as (_ & _ & _ & (q' & Hq & Hperm) & _ & _).
  exists q'. split; [exact Hq |].
  apply Permutation_length in Hperm. rewrite Hperm. vm_compute. reflexivity.
Defined.

Lemma entries_within_limit_witness :
  Forall (fun e => content_length e <= entry_limit config_small_field)
    (attentionField state_full) /\
  length (attentionField state_full) = 10%nat.
Proof.
  split; [| vm_compute; reflexivity].
  apply (entries_within_limit ListQueue_laws config_small_field state_full).
  exact reachable_state_full.
Defined.

Lemma queues_filed_by_role_witness :
  filed_by_role (pendingActivitiesByRole state_two_roles) /\
  map fst (pendingActivitiesByRole state_two_roles) = ["A"; "B"].
Proof.
  split; [| vm_compute; reflexivity].
  apply (queues_filed_by_role ListQueue_laws defaultConfig state_two_roles).
  exact reachable_state_two_roles.
Defined.

(** The [cleared] notification of the eviction scenario: five entries of
    ten, 50 characters cleared and 50 left, 60 after the admission. *)
Lemma cleared_notification_accounts_witness :
  In (AttentionCleared (evicted state_full) 5 10 50 50)
     (snd (processPendingActivities state_full)) /\
  length (evicted state_full) = 5%nat /\
  currentSize (fst (processPendingActivities state_full)) = 50 + addedSize state_full.
Proof.
  assert (Hin : In (AttentionCleared (evicted state_full) 5 10 50 50)
                   (snd (processPendingActivities state_full)))
    by (left; vm_compute; reflexivity).
  destruct (cleared_notification_accounts config_small_field state_full
              (evicted state_full) 5 10 50 50 reachable_state_full)
    as (_ & Hcount & _ & _ & _ & _ & Hafter);
    [vm_compute; discriminate | vm_compute; discriminate | exact Hin |].
  split; [exact Hin |]. split; [lia | exact Hafter].
Defined.

(** * Further properties of the Hub *)

Module HubFacts.

Import Hub HubCalls.

(** ** What the methods leave behind *)

Lemma handled_trace {A : Type} (r : Run A) : handled r = handlersCalled (trace r).
Proof. reflexivity. Qed.

Lemma handlersCalled_app (t1 t2 : list Event) :
  handlersCalled (t1 ++ t2) = handlersCalled t1 ++ handlersCalled t2.
Proof. unfold handlersCalled. apply flat_map_app. Qed.

Lemma matchedHandlers_run (activity : Activity) (handlers : list ActivityHandler)
  (h : HubImpl) :
  exists v,
    matchedHandlers activity handlers h = mkRun v h [] /\
    forall matched,
      v = Normal matched ->
      matched = List.filter
                  (fun handler =>
                     match isMatch activity handler with
                     | Normal b => b
                     | Throw _ => false
                     end)
                  handlers.
Proof.
  induction handlers as [|handler rest (v & IH & IHv)]; cbn [matchedHandlers].
  - eexists. split; [reflexivity |]. intros matched [= <-]. reflexivity.
  - unfold bind; cbv zeta.
    destruct (isMatch activity handler) as [keep|error] eqn:Hm;
      cbn [lift ret raise value after trace List.filter].
    + rewrite IH. cbn [value after trace].
      destruct v as [matched|error]; cbn [value after trace ret app].
      * eexists. split; [reflexivity |]. intros m [= <-].
        cbn [List.filter]. rewrite Hm, <- (IHv matched eq_refl). reflexivity.
      * eexists. split; [reflexivity | discriminate].
    + eexists. split; [reflexivity | discriminate].
Qed.

Lemma callHandlers_run (activity : Activity) (matched : list ActivityHandler)
  (h : HubImpl) :
  exists v t called rest,
    callHandlers activity matched h = mkRun v h t /\
    matched = called ++ rest /\
    handlersCalled t = map ref called.
Proof.
  induction matched as [|handler rest (v & t & called & rest' & IH & Hsplit & IHc)];
    cbn [callHandlers].
  - exists (Normal []), [], [], []. repeat split.
  - unfold bind, emit; cbv zeta. cbn [value after trace app].
    destruct (handle handler activity) as [p|error];
      cbn [lift ret raise value after trace].
    + rewrite IH. cbn [value after trace].
      destruct v; cbn [value after trace ret];
        do 2 eexists; exists (handler :: called), rest';
        (split; [reflexivity |]); (split; [cbn; now rewrite Hsplit |]);
        unfold handlersCalled in *; rewrite ?app_nil_r;
        cbn [flat_map app map]; now rewrite IHc.
    + do 2 eexists. exists [handler], rest. split; [reflexivity |].
      split; reflexivity.
Qed.

Lemma triggerHandlers_run (activity : Activity) (h : HubImpl) :
  exists v t called rest,
    triggerHandlers activity h = mkRun v h t /\
    matching activity h = called ++ rest /\
    handlersCalled t = map ref called.
Proof.
  unfold triggerHandlers, bind; cbv zeta. cbn [get value after trace app].
  destruct (matchedHandlers_run activity (all_handlers h) h) as (v & -> & Hv).
  cbn [value after trace app].
  destruct v as [matched|error].
  - rewrite (Hv matched eq_refl). fold (matching activity h).
    destruct (callHandlers_run activity (matching activity h) h)
      as (v & t & called & rest & -> & Hsplit & Hc).
    cbn [value after trace].
    exists v, t, called, rest. split; [reflexivity |]. split; assumption.
  - exists (Throw error), [], [], (matching activity h). repeat split.
Qed.

Lemma appendActivity_run (activity : Activity) (h : HubImpl) :
  after (appendActivity activity h) = h /\
  exists called rest,
    matching activity h = called ++ rest /\
    handled (appendActivity activity h) = map ref called /\
    (running h = false -> called = []).
Proof.
  destruct (running h) eqn:Hrun.
  - rewrite (HubProperties.appendActivity_running activity h Hrun).
    destruct (triggerHandlers_run activity h)
      as (v & t & called & rest & -> & Hsplit & Hc).
    cbv zeta. cbn [value after trace]. split; [reflexivity |].
    exists called, rest. split; [exact Hsplit |]. split; [| discriminate].
    rewrite handled_trace. cbn [trace].
    rewrite handlersCalled_app. cbn [handlersCalled flat_map app].
    fold (handlersCalled t). rewrite Hc. unfold unregistered_warning.
    destruct (faculties h !! role activity); reflexivity.
  - unfold appendActivity, bind; cbv zeta. cbn [get value after trace].
    rewrite Hrun. cbn. split; [reflexivity |].
    exists [], (matching activity h). repeat split.
Qed.

(** ** Sets of handlers *)

Lemma set_has_spec (x : ActivityHandler) (l : list ActivityHandler) :
  set_has x l = true <-> exists twin, In twin l /\ ref twin = ref x.
Proof.
  unfold set_has. rewrite existsb_exists. split.
  - intros (twin & Hin & Heq). apply Nat.eqb_eq in Heq. eauto.
  - intros (twin & Hin & Heq). exists twin. split; [exact Hin |].
    now apply Nat.eqb_eq.
Qed.

Lemma set_add_in (x y : ActivityHandler) (l : list ActivityHandler) :
  In y (set_add x l) <-> In y l \/ (set_has x l = false /\ y = x).
Proof.
  unfold set_add. destruct (set_has x l); [| rewrite in_app_iff; cbn]; intuition.
  discriminate.
Qed.

Lemma set_add_twin (x : ActivityHandler) (l : list ActivityHandler) :
  exists twin, In twin (set_add x l) /\ ref twin = ref x.
Proof.
  destruct (set_has x l) eqn:Hhas.
  - apply set_has_spec in Hhas as (twin & Hin & Heq).
    exists twin. split; [apply set_add_in; now left | exact Heq].
  - exists x. split; [apply set_add_in; now right | reflexivity].
Qed.

Lemma set_add_distinct (x : ActivityHandler) (l : list ActivityHandler) :
  List.NoDup (map ref l) -> List.NoDup (map ref (set_add x l)).
Proof.
  intros Hnodup. unfold set_add. destruct (set_has x l) eqn:Hhas; [exact Hnodup |].
  rewrite map_app. cbn [map].
  apply (Permutation_NoDup (l := ref x :: map ref l));
    [apply Permutation_cons_append |].
  constructor; [| exact Hnodup].
  intros Hin. apply in_map_iff in Hin as (twin & Heq & Hin).
  assert (set_has x l = true) by (apply set_has_spec; eauto). congruence.
Qed.

Lemma set_delete_in (x y : ActivityHandler) (l : list ActivityHandler) :
  In y (set_delete x l) <-> In y l /\ ref y <> ref x.
Proof.
  unfold set_delete. rewrite filter_In, negb_true_iff, Nat.eqb_neq. reflexivity.
Qed.

Lemma filter_distinct (p : ActivityHandler -> bool) (l : list ActivityHandler) :
  List.NoDup (map ref l) -> List.NoDup (map ref (List.filter p l)).
Proof.
  induction l as [|x l IH]; cbn [map List.filter]; intros Hnodup; [constructor |].
  inversion Hnodup as [|? ? Hnotin Hrest]; subst.
  destruct (p x); [| now apply IH].
  cbn [map]. constructor; [| now apply IH].
  intros Hin. apply Hnotin. apply in_map_iff in Hin as (y & Heq & Hin).
  apply filter_In in Hin as [Hin _]. apply in_map_iff. eauto.
Qed.

Lemma delete_all_in (xs : list ActivityHandler) (y : ActivityHandler)
  (l : list ActivityHandler) :
  In y (fold_left (fun all x => set_delete x all) xs l) <->
  In y l /\ forall x, In x xs -> ref y <> ref x.
Proof.
  revert l. induction xs as [|x xs IH]; intros l; cbn [fold_left].
  - split; [intros Hin; split; [exact Hin | intros ? []] | now intros [Hin _]].
  - rewrite IH, set_delete_in. split.
    + intros [[Hin Hx] Hxs]. split; [exact Hin |].
      intros x' [<-|Hin']; [exact Hx | now apply Hxs].
    + intros [Hin Hall]. repeat split; [exact Hin | | ].
      * apply Hall. now left.
      * intros x' Hin'. apply Hall. now right.
Qed.

Lemma delete_all_distinct (xs l : list ActivityHandler) :
  List.NoDup (map ref l) ->
  List.NoDup (map ref (fold_left (fun all x => set_delete x all) xs l)).
Proof.
  revert l. induction xs as [|x xs IH]; intros l Hnodup; cbn [fold_left];
    [exact Hnodup |].
  apply IH. unfold set_delete. now apply filter_distinct.
Qed.

(** ** The state after each method *)

Lemma registerActivityHandler_after (handler : ActivityHandler) (h : HubImpl) :
  after (registerActivityHandler handler h)
  = {| faculties := faculties h; running := running h;
       handlers_of_role :=
         <[handler_role handler :=
             set_add handler
               match handlers_of_role h !! handler_role handler with
               | Some handlers => handlers
               | None => []
               end]> (handlers_of_role h);
       all_handlers := set_add handler (all_handlers h) |}.
Proof. reflexivity. Qed.

Lemma unregisterActivityHandler_after (handler : ActivityHandler) (h : HubImpl) :
  after (unregisterActivityHandler handler h)
  = {| faculties := faculties h; running := running h;
       handlers_of_role :=
         alter (set_delete handler) (handler_role handler) (handlers_of_role h);
       all_handlers := set_delete handler (all_handlers h) |}.
Proof. reflexivity. Qed.

Lemma log_each_after (handlers : list ActivityHandler) (h : HubImpl) :
  after
    (fold_right
       (fun handler k =>
          bind (emit (LogDebug ("注销活动处理器: " +:+ description handler)))
            (fun _ => k))
       (ret tt) handlers h) = h /\
  value
    (fold_right
       (fun handler k =>
          bind (emit (LogDebug ("注销活动处理器: " +:+ description handler)))
            (fun _ => k))
       (ret tt) handlers h) = Normal tt.
Proof.
  induction handlers as [|x xs [IHa IHv]]; cbn [fold_right]; [split; reflexivity |].
  unfold bind at 1 3; cbv zeta. cbn [emit value after trace].
  now rewrite IHa, IHv.
Qed.

Lemma log_each_quiet (handlers : list ActivityHandler) (h : HubImpl) :
  handlersCalled
    (trace
       (fold_right
          (fun handler k =>
             bind (emit (LogDebug ("注销活动处理器: " +:+ description handler)))
               (fun _ => k))
          (ret tt) handlers h)) = [].
Proof.
  induction handlers as [|x xs IH]; cbn [fold_right]; [reflexivity |].
  unfold bind at 1; cbv zeta. cbn [emit value after trace].
  cbn [app handlersCalled flat_map]. exact IH.
Qed.

Lemma log_each_trace (role : string) (h : HubImpl) :
  exists v h' t,
    unregisterAllActivityHandler role h = mkRun v h' t /\ handlersCalled t = [].
Proof.
  unfold unregisterAllActivityHandler, bind at 1; cbv zeta.
  cbn [get value after trace app]. unfold bind at 1; cbv zeta.
  cbn [put value after trace app].
  do 3 eexists. split; [reflexivity |]. apply log_each_quiet.
Qed.

Lemma unregisterAllActivityHandler_after (role : string) (h : HubImpl) :
  after (unregisterAllActivityHandler role h)
  = {| faculties := faculties h; running := running h;
       handlers_of_role := delete role (handlers_of_role h);
       all_handlers :=
         fold_left (fun all handler => set_delete handler all)
           match handlers_of_role h !! role with
           | Some handlers => handlers
           | None => []
           end
           (all_handlers h) |}.
Proof.
  unfold unregisterAllActivityHandler, bind at 1; cbv zeta.
  cbn [get value after trace]. unfold bind at 1; cbv zeta.
  cbn [put value after trace].
  apply log_each_after.
Qed.

Lemma disconnectFaculty_after (role : string) (h : HubImpl) :
  after (disconnectFaculty role h)
  = match faculties h !! role with
    | None => h
    | Some _ =>
        {| faculties := delete role (faculties h); running := running h;
           handlers_of_role := delete role (handlers_of_role h);
           all_handlers :=
             fold_left (fun all handler => set_delete handler all)
               match handlers_of_role h !! role with
               | Some handlers => handlers
               | None => []
               end
               (all_handlers h) |}
    end.
Proof.
  unfold disconnectFaculty, bind at 1; cbv zeta. cbn [get value after trace].
  destruct (faculties h !! role); [| reflexivity].
  unfold bind at 1; cbv zeta. cbn [put value after trace].
  unfold bind at 1; cbv zeta.
  set (h1 := {| faculties := delete role (faculties h); running := running h;
                handlers_of_role := handlers_of_role h;
                all_handlers := all_handlers h |}).
  pose proof (unregisterAllActivityHandler_after role h1) as Hafter.
  assert (Hvalue : value (unregisterAllActivityHandler role h1) = Normal tt).
  { unfold unregisterAllActivityHandler, bind at 1; cbv zeta.
    cbn [get value after trace]. unfold bind at 1; cbv zeta.
    cbn [put value after trace]. apply log_each_after. }
  rewrite Hvalue. cbn [emit value after trace]. exact Hafter.
Qed.

Lemma connectFaculty_after (role : string) (faculty : Faculty) (h : HubImpl) :
  after (connectFaculty role faculty h)
  = match faculties h !! role with
    | Some _ => h
    | None =>
        {| faculties := <[role := faculty]> (faculties h); running := running h;
           handlers_of_role := handlers_of_role h;
           all_handlers := all_handlers h |}
    end.
Proof.
  unfold connectFaculty, bind at 1; cbv zeta. cbn [get value after trace].
  destruct (faculties h !! role); reflexivity.
Qed.

Lemma resume_after (h : HubImpl) :
  after (resume h)
  = {| faculties := faculties h; running := true;
       handlers_of_role := handlers_of_role h; all_handlers := all_handlers h |}.
Proof.
  unfold resume, bind at 1; cbv zeta. cbn [get value after trace].
  destruct h as [f [|] hor all]; reflexivity.
Qed.

Lemma stop_after (h : HubImpl) :
  after (stop h)
  = {| faculties := faculties h; running := false;
       handlers_of_role := handlers_of_role h; all_handlers := all_handlers h |}.
Proof.
  unfold stop, bind at 1; cbv zeta. cbn [get value after trace].
  destruct h as [f [|] hor all]; reflexivity.
Qed.

(** ** The registry in the states the Hub reaches *)

Lemma call_distinct (c : Call) (h : HubImpl) :
  distinct h -> distinct (after (call c h)).
Proof.
  unfold distinct. intros Hd.
  destruct c as [r f | r | x | x | r | a | |]; cbn [call].
  - rewrite connectFaculty_after. now destruct (faculties h !! r).
  - rewrite disconnectFaculty_after. destruct (faculties h !! r); [| exact Hd].
    cbn [all_handlers]. now apply delete_all_distinct.
  - rewrite registerActivityHandler_after. cbn [all_handlers].
    now apply set_add_distinct.
  - rewrite unregisterActivityHandler_after. cbn [all_handlers].
    unfold set_delete. now apply filter_distinct.
  - rewrite unregisterAllActivityHandler_after. cbn [all_handlers].
    now apply delete_all_distinct.
  - now rewrite (proj1 (appendActivity_run a h)).
  - now rewrite resume_after.
  - now rewrite stop_after.
Qed.

Lemma reachable_distinct (h : HubImpl) : reachable h -> distinct h.
Proof.
  induction 1 as [|c h _ IH]; [constructor | now apply call_distinct].
Qed.

Lemma unregisterAll_indexed (role : string) (h : HubImpl)
  (handler : ActivityHandler) :
  indexed h ->
  In handler
    (fold_left (fun all x => set_delete x all)
       match handlers_of_role h !! role with
       | Some handlers => handlers
       | None => []
       end
       (all_handlers h)) ->
  handler_role handler <> role /\
  exists handlers twin,
    delete role (handlers_of_role h) !! handler_role handler = Some handlers /\
    In twin handlers /\ ref twin = ref handler.
Proof.
  intros Hidx Hin. apply delete_all_in in Hin as [Hin Hkeep].
  destruct (Hidx handler Hin) as (handlers & twin & Hlook & Htwin & Href).
  assert (Hne : handler_role handler <> role).
  { intros <-. rewrite Hlook in Hkeep. apply (Hkeep twin Htwin). now symmetry. }
  split; [exact Hne |].
  exists handlers, twin. rewrite lookup_delete_ne by congruence. auto.
Qed.

Lemma call_indexed (c : Call) (h : HubImpl) :
  indexed h -> indexed (after (call c h)).
Proof.
  intros Hidx.
  destruct c as [r f | r | x | x | r | a | |]; cbn [call].
  - rewrite connectFaculty_after. now destruct (faculties h !! r).
  - rewrite disconnectFaculty_after. destruct (faculties h !! r); [| exact Hidx].
    intros y Hin. cbn [all_handlers handlers_of_role] in *.
    now apply (unregisterAll_indexed r h y Hidx).
  - rewrite registerActivityHandler_after.
    intros y Hin. cbn [all_handlers handlers_of_role] in *.
    apply set_add_in in Hin as [Hin|[_ ->]].
    + destruct (Hidx y Hin) as (handlers & twin & Hlook & Htwin & Href).
      destruct (decide (handler_role x = handler_role y)) as [Heq|Hne].
      * rewrite Heq, lookup_insert_eq, Hlook.
        eexists _, twin. split; [reflexivity |].
        split; [apply set_add_in; now left | exact Href].
      * rewrite lookup_insert_ne by exact Hne. eauto.
    + rewrite lookup_insert_eq.
      destruct (set_add_twin x
                  match handlers_of_role h !! handler_role x with
                  | Some handlers => handlers
                  | None => []
                  end) as (twin & Htwin & Href).
      eauto.
  - rewrite unregisterActivityHandler_after.
    intros y Hin. cbn [all_handlers handlers_of_role] in *.
    apply set_delete_in in Hin as [Hin Hne].
    destruct (Hidx y Hin) as (handlers & twin & Hlook & Htwin & Href).
    destruct (decide (handler_role x = handler_role y)) as [Heq|Hner].
    + rewrite Heq, lookup_alter_eq, Hlook. cbn.
      eexists _, twin. split; [reflexivity |].
      split; [apply set_delete_in; split; [exact Htwin | congruence] | exact Href].
    + rewrite lookup_alter_ne by exact Hner. eauto.
  - rewrite unregisterAllActivityHandler_after.
    intros y Hin. cbn [all_handlers handlers_of_role] in *.
    now apply (unregisterAll_indexed r h y Hidx).
  - now rewrite (proj1 (appendActivity_run a h)).
  - now rewrite resume_after.
  - now rewrite stop_after.
Qed.

Lemma reachable_indexed (h : HubImpl) : reachable h -> indexed h.
Proof.
  induction 1 as [|c h _ IH]; [intros handler [] | now apply call_indexed].
Qed.

(** ** Dispatch *)

Lemma matching_in (activity : Activity) (h : HubImpl) (x : ActivityHandler) :
  In x (matching activity h) <->
  In x (all_handlers h) /\ isMatch activity x = Normal true.
Proof.
  unfold matching. rewrite filter_In.
  destruct (isMatch activity x) as [[|]|]; intuition congruence.
Qed.

Lemma matchedHandlers_value (activity : Activity)
  (handlers : list ActivityHandler) (h : HubImpl) :
  value (matchedHandlers activity handlers h)
  = if conditions_return activity handlers
    then Normal
           (List.filter
              (fun handler =>
                 match isMatch activity handler with
                 | Normal b => b
                 | Throw _ => false
                 end)
              handlers)
    else value (matchedHandlers activity handlers h).
Proof.
  destruct (conditions_return activity handlers) eqn:Hret; [| reflexivity].
  rewrite HubProperties.matchedHandlers_returns; [reflexivity |].
  apply List.Forall_forall. intros x Hin.
  unfold conditions_return in Hret. rewrite forallb_forall in Hret.
  specialize (Hret x Hin). unfold condition_returns.
  destruct (isMatch activity x); [eauto | discriminate].
Qed.

Lemma matchedHandlers_throws (activity : Activity)
  (handlers : list ActivityHandler) (h : HubImpl) :
  conditions_return activity handlers = false ->
  exists error, matchedHandlers activity handlers h = mkRun (Throw error) h [].
Proof.
  induction handlers as [|handler rest IH]; [discriminate |].
  cbn [conditions_return forallb matchedHandlers]. intros Hret.
  unfold bind; cbv zeta.
  destruct (isMatch activity handler) as [keep|error];
    cbn [lift ret raise value after trace].
  - destruct (IH Hret) as (error & ->). cbn [value after trace]. eauto.
  - eauto.
Qed.

Lemma callHandlers_called (activity : Activity)
  (matched : list ActivityHandler) (h : HubImpl) :
  handlersCalled (trace (callHandlers activity matched h))
  = map ref (upToThrow activity matched).
Proof.
  induction matched as [|handler rest IH]; [reflexivity |].
  cbn [callHandlers upToThrow map]. unfold bind, emit; cbv zeta.
  cbn [value after trace app].
  destruct (callHandlers_run activity rest h) as (v & t & _ & _ & Hrun & _).
  rewrite Hrun in IH. cbn [trace] in IH.
  destruct (handle handler activity) as [p|error];
    cbn [lift ret raise value after trace].
  - rewrite Hrun. cbn [value after trace].
    destruct v; cbn [value after trace ret]; rewrite ?app_nil_r;
      cbn [handlersCalled flat_map app]; fold (handlersCalled t);
      now rewrite IH.
  - reflexivity.
Qed.

Lemma triggerHandlers_called (activity : Activity) (h : HubImpl) :
  handlersCalled (trace (triggerHandlers activity h))
  = if conditions_return activity (all_handlers h)
    then map ref (upToThrow activity (matching activity h))
    else [].
Proof.
  unfold triggerHandlers, bind; cbv zeta. cbn [get value after trace app].
  destruct (conditions_return activity (all_handlers h)) eqn:Hret.
  - pose proof (matchedHandlers_value activity (all_handlers h) h) as Hv.
    rewrite Hret in Hv.
    destruct (matchedHandlers_run activity (all_handlers h) h) as (v & Hrun & _).
    rewrite Hrun in Hv |- *. cbn [value after trace app] in Hv |- *. subst v.
    fold (matching activity h).
    destruct (callHandlers_run activity (matching activity h) h)
      as (v & t & _ & _ & Hcall & _).
    pose proof (callHandlers_called activity (matching activity h) h) as Hc.
    rewrite Hcall in Hc |- *. exact Hc.
  - destruct (matchedHandlers_throws activity (all_handlers h) h Hret)
      as (error & ->).
    reflexivity.
Qed.

Lemma upToThrow_prefix (activity : Activity) (matched : list ActivityHandler) :
  exists rest, matched = upToThrow activity matched ++ rest.
Proof.
  induction matched as [|handler tail [rest IH]]; [now exists [] |].
  cbn [upToThrow]. destruct (handle handler activity).
  - exists rest. cbn. now rewrite <- IH.
  - now exists tail.
Qed.

Lemma appendActivity_called (activity : Activity) (h : HubImpl) :
  handled (appendActivity activity h)
  = if running h && conditions_return activity (all_handlers h)
    then map ref (upToThrow activity (matching activity h))
    else [].
Proof.
  destruct (running h) eqn:Hrun; cbn [andb].
  - rewrite (HubProperties.appendActivity_running activity h Hrun).
    cbv zeta. rewrite handled_trace. cbn [trace].
    rewrite handlersCalled_app. cbn [handlersCalled flat_map app].
    fold (handlersCalled (trace (triggerHandlers activity h))).
    rewrite triggerHandlers_called. unfold unregistered_warning.
    destruct (faculties h !! role activity); reflexivity.
  - unfold appendActivity, bind; cbv zeta. cbn [get value after trace].
    rewrite Hrun. reflexivity.
Qed.

Lemma callHandlers_hands (activity : Activity) (matched : list ActivityHandler)
  (h : HubImpl) (handler : nat) (handed : Activity) :
  In (Handle handler handed) (trace (callHandlers activity matched h)) ->
  handed = activity.
Proof.
  induction matched as [|x rest IH]; [intros [] |].
  cbn [callHandlers]. unfold bind, emit; cbv zeta. cbn [value after trace app].
  destruct (callHandlers_run activity rest h) as (v & t & _ & _ & Hrun & _).
  rewrite Hrun in IH. cbn [trace] in IH.
  destruct (handle x activity) as [p|error];
    cbn [lift ret raise value after trace].
  - rewrite Hrun. cbn [value after trace].
    destruct v; cbn [value after trace ret]; rewrite ?app_nil_r;
      (intros [Hin|[Hin|Hin]]; [discriminate | congruence | now apply IH]).
  - intros [Hin|[Hin|[]]]; [discriminate | congruence].
Qed.

Lemma appendActivity_hands (activity : Activity) (h : HubImpl)
  (handler : nat) (handed : Activity) :
  In (Handle handler handed) (trace (appendActivity activity h)) ->
  handed = activity.
Proof.
  destruct (running h) eqn:Hrun.
  - rewrite (HubProperties.appendActivity_running activity h Hrun).
    cbv zeta. cbn [trace]. intros Hin.
    apply in_app_or in Hin as [Hin|[Hin|Hin]].
    + unfold unregistered_warning in Hin.
      destruct (faculties h !! role activity); [destruct Hin |].
      destruct Hin as [Hin|[]]. discriminate.
    + discriminate.
    + revert Hin. unfold triggerHandlers, bind; cbv zeta.
      cbn [get value after trace app].
      destruct (matchedHandlers_run activity (all_handlers h) h) as (v & -> & _).
      cbn [value after trace app].
      destruct v as [matched|error]; [| intros []].
      destruct (callHandlers_run activity matched h)
        as (v & t & _ & _ & Hcall & _).
      pose proof (callHandlers_hands activity matched h handler handed) as Hh.
      rewrite Hcall in Hh |- *. exact Hh.
  - unfold appendActivity, bind; cbv zeta. cbn [get value after trace].
    rewrite Hrun. cbn. intros [Hin|[]]. discriminate.
Qed.

Lemma upToThrow_all (activity : Activity) (matched : list ActivityHandler)
  (last : ActivityHandler) :
  Forall (returns_promise activity) matched ->
  upToThrow activity (matched ++ [last]) = matched ++ [last].
Proof.
  induction 1 as [|x l [p Hp] _ IH]; cbn [app upToThrow].
  - now destruct (handle last activity).
  - now rewrite Hp, IH.
Qed.

Lemma upToThrow_returns (activity : Activity) (matched : list ActivityHandler) :
  Forall (returns_promise activity) matched ->
  upToThrow activity matched = matched.
Proof.
  induction 1 as [|x l [p Hp] _ IH]; cbn [upToThrow]; [reflexivity |].
  now rewrite Hp, IH.
Qed.

(** X11: which handlers [appendActivity] calls, whatever throws.  A Hub
    that is not running calls none.  A running Hub first evaluates the
    condition of every registered handler; when one of them throws it calls
    no handler at all.  Otherwise it calls the handlers whose condition
    holds, in the order of registration, up to and including the first one
    whose [handle] throws: the handlers called are an initial segment of
    the matching ones, and every one of them is registered and matches. *)
Theorem handlers_called_up_to_first_throw (activity : Activity) (h : HubImpl) :
  handled (appendActivity activity h)
  = (if running h && conditions_return activity (all_handlers h)
     then map ref (upToThrow activity (matching activity h))
     else []) /\
  (exists rest,
     matching activity h = upToThrow activity (matching activity h) ++ rest) /\
  (forall x,
     In x (upToThrow activity (matching activity h)) ->
     In x (all_handlers h) /\ isMatch activity x = Normal true).
Proof.
  split; [| split].
  - apply appendActivity_called.
  - apply upToThrow_prefix.
  - intros x Hin. apply matching_in.
    destruct (upToThrow_prefix activity (matching activity h)) as [rest Hsplit].
    rewrite Hsplit. apply in_or_app. now left.
Qed.

Lemma handled_among_matching (activity : Activity) (h : HubImpl) :
  exists called rest,
    matching activity h = called ++ rest /\
    handled (appendActivity activity h) = map ref called.
Proof.
  destruct (appendActivity_run activity h) as (_ & called & rest & Hsplit & Hc & _).
  eauto.
Qed.

(** X12: [unregisterActivityHandler(handler)] takes the handler, and no
    other, out of dispatch: afterwards the handlers that match an activity
    are those that matched before without it, and no activity is handed to
    it any more. *)
Theorem unregistered_handler_is_not_called (handler : ActivityHandler)
  (activity : Activity) (h : HubImpl) :
  let h' := after (unregisterActivityHandler handler h) in
  matching activity h'
  = List.filter (fun x => negb (Nat.eqb (ref x) (ref handler)))
      (matching activity h) /\
  ~ In (ref handler) (handled (appendActivity activity h')).
Proof.
  cbv zeta. rewrite unregisterActivityHandler_after.
  assert (Hm : matching activity
                 {| faculties := faculties h; running := running h;
                    handlers_of_role :=
                      alter (set_delete handler) (handler_role handler)
                        (handlers_of_role h);
                    all_handlers := set_delete handler (all_handlers h) |}
               = List.filter (fun x => negb (Nat.eqb (ref x) (ref handler)))
                   (matching activity h)).
  { unfold matching, set_delete. cbn [all_handlers].
    induction (all_handlers h) as [|x l IH]; [reflexivity |].
    cbn [List.filter].
    destruct (negb (ref x =? ref handler)%nat) eqn:Hx;
      destruct (match isMatch activity x with Normal b => b | Throw _ => false end)
        eqn:Hk; cbn [List.filter]; rewrite ?Hx, ?Hk, IH; reflexivity. }
  split; [exact Hm |].
  destruct (handled_among_matching activity
              {| faculties := faculties h; running := running h;
                 handlers_of_role :=
                   alter (set_delete handler) (handler_role handler)
                     (handlers_of_role h);
                 all_handlers := set_delete handler (all_handlers h) |})
    as (called & rest & Hsplit & ->).
  intros Hin. apply in_map_iff in Hin as (x & Href & Hin).
  assert (Hx : In x (called ++ rest)) by (apply in_or_app; now left).
  rewrite <- Hsplit, Hm in Hx. apply filter_In in Hx as [_ Hx].
  rewrite Href, Nat.eqb_refl in Hx. discriminate.
Qed.

Lemma NoDup_app_l {A : Type} (l1 l2 : list A) :
  List.NoDup (l1 ++ l2) -> List.NoDup l1.
Proof.
  induction l1 as [|x l1 IH]; [constructor |].
  cbn. intros Hnd. inversion Hnd as [|? ? Hx Hrest]; subst.
  constructor; [| now apply IH].
  intros Hin. apply Hx, in_or_app. now left.
Qed.

(** X13: a Hub that was built by calls of its methods never hands an
    activity twice to the same handler, however often the handler was
    registered. *)
Theorem no_handler_called_twice (activity : Activity) (h : HubImpl) :
  reachable h -> List.NoDup (handled (appendActivity activity h)).
Proof.
  intros Hreach.
  destruct (handled_among_matching activity h) as (called & rest & Hsplit & ->).
  apply reachable_distinct in Hreach. unfold distinct in Hreach.
  apply (NoDup_app_l _ (map ref rest)). rewrite <- map_app, <- Hsplit.
  unfold matching. now apply filter_distinct.
Qed.

(** X14: [disconnectFaculty(role)] on a connected role frees the role and
    removes what was registered for it: the role has no faculty and no set
    of handlers afterwards, no registered handler is of that role, the
    handlers that stay are those registered before that are not in the set
    of the role, and no activity is handed to a handler of that role.  On a
    role that is not connected the call only logs a warning: handlers that
    were registered for such a role stay registered. *)
Theorem disconnect_removes_handlers_of_role (r : string) (h : HubImpl) :
  reachable h ->
  let h' := after (disconnectFaculty r h) in
  (is_Some (faculties h !! r) ->
   faculties h' !! r = None /\
   handlers_of_role h' !! r = None /\
   (forall x,
      In x (all_handlers h') <->
      In x (all_handlers h) /\
      forall y,
        In y match handlers_of_role h !! r with
             | Some handlers => handlers
             | None => []
             end ->
        ref x <> ref y) /\
   (forall x, In x (all_handlers h') -> handler_role x <> r) /\
   (forall activity,
    exists called,
      handled (appendActivity activity h') = map ref called /\
      Forall (fun x => handler_role x <> r) called)) /\
  (faculties h !! r = None ->
   disconnectFaculty r h
   = mkRun (Normal tt) h [LogWarn ("Faculty " +:+ r +:+ " 不存在")]).
Proof.
  intros Hreach. cbv zeta. split.
  - intros [faculty Hf]. rewrite disconnectFaculty_after, Hf.
    set (h' := {| faculties := delete r (faculties h); running := running h;
                  handlers_of_role := delete r (handlers_of_role h);
                  all_handlers := _ |}).
    assert (Hrole : forall x, In x (all_handlers h') -> handler_role x <> r).
    { intros x Hin.
      now apply (unregisterAll_indexed r h x (reachable_indexed h Hreach)). }
    split; [apply lookup_delete_eq |].
    split; [apply lookup_delete_eq |].
    split; [intros x; apply delete_all_in |].
    split; [exact Hrole |].
    intros activity.
    destruct (handled_among_matching activity h') as (called & rest & Hsplit & ->).
    exists called. split; [reflexivity |].
    apply List.Forall_forall. intros x Hin. apply Hrole.
    apply (matching_in activity h' x). rewrite Hsplit.
    apply in_or_app. now left.
  - intros Hf. unfold disconnectFaculty, bind; cbv zeta.
    cbn [get value after trace]. rewrite Hf. reflexivity.
Qed.

Lemma set_add_idempotent (x : ActivityHandler) (l : list ActivityHandler) :
  set_add x (set_add x l) = set_add x l.
Proof.
  unfold set_add at 1.
  destruct (set_add_twin x l) as (twin & Hin & Href).
  replace (set_has x (set_add x l)) with true; [reflexivity |].
  symmetry. apply set_has_spec. eauto.
Qed.

(** X15: registering a handler that is registered already changes
    nothing in the Hub: a second [registerActivityHandler(handler)] leaves
    the Hub as the first one left it. *)
Theorem registering_twice_is_registering_once (handler : ActivityHandler)
  (h : HubImpl) :
  after (registerActivityHandler handler
           (after (registerActivityHandler handler h)))
  = after (registerActivityHandler handler h).
Proof.
  rewrite !registerActivityHandler_after.
  cbn [faculties running handlers_of_role all_handlers].
  rewrite lookup_insert_eq, insert_insert_eq, !set_add_idempotent.
  reflexivity.
Qed.

(** X16: a role is given to the first faculty that asks for it:
    [connectFaculty(role, faculty)] leaves a faculty under [role], the one
    that was there or else [faculty], and a second [connectFaculty] for the
    same role, with whatever faculty, only logs a warning. *)
Theorem connectFaculty_first_wins (r : string) (first second : Faculty)
  (h : HubImpl) :
  let h' := after (connectFaculty r first h) in
  faculties h' !! r
  = Some match faculties h !! r with Some held => held | None => first end /\
  connectFaculty r second h'
  = mkRun (Normal tt) h' [LogWarn ("职位 " +:+ r +:+ " 已经被占用了")].
Proof.
  cbv zeta. rewrite connectFaculty_after.
  assert (Hheld : (match faculties h !! r with
                   | Some _ => h
                   | None =>
                       {| faculties := <[r := first]> (faculties h);
                          running := running h;
                          handlers_of_role := handlers_of_role h;
                          all_handlers := all_handlers h |}
                   end).(faculties) !! r
                  = Some match faculties h !! r with
                         | Some held => held
                         | None => first
                         end).
  { destruct (faculties h !! r) eqn:Hf; [exact Hf |].
    cbn [faculties]. apply lookup_insert_eq. }
  split; [exact Hheld |].
  unfold connectFaculty, bind; cbv zeta. cbn [get value after trace].
  rewrite Hheld. reflexivity.
Qed.

(** X17: [stop()] halts delivery and keeps the registrations: a stopped
    Hub hands no activity to any handler, and [resume()] after [stop()]
    brings a running Hub back exactly as it was. *)
Theorem stop_then_resume (activity : Activity) (h : HubImpl) :
  running h = true ->
  handled (appendActivity activity (after (stop h))) = [] /\
  after (resume (after (stop h))) = h.
Proof.
  intros Hrun. rewrite resume_after, stop_after. cbn. split.
  - unfold handled, appendActivity, bind; cbv zeta. reflexivity.
  - destruct h as [f r hor all]. cbn in *. now subst r.
Qed.

Lemma call_running (c : Call) (h : HubImpl) :
  isResume c = false ->
  running h = false ->
  running (after (call c h)) = false /\ handlersCalled (trace (call c h)) = [].
Proof.
  intros Hc Hrun.
  destruct c as [r f | r | x | x | r | a | |]; try discriminate; cbn [call].
  - rewrite connectFaculty_after. split.
    + now destruct (faculties h !! r).
    + unfold connectFaculty, bind, emit, put; cbv zeta. cbn [get value after trace].
      now destruct (faculties h !! r).
  - rewrite disconnectFaculty_after. split.
    + now destruct (faculties h !! r).
    + unfold disconnectFaculty, bind at 1; cbv zeta. cbn [get value after trace].
      destruct (faculties h !! r); [| reflexivity].
      unfold bind at 1; cbv zeta. cbn [put value after trace app].
      unfold bind at 1; cbv zeta.
      destruct (log_each_trace r
                  {| faculties := delete r (faculties h); running := running h;
                     handlers_of_role := handlers_of_role h;
                     all_handlers := all_handlers h |}) as (v & h2 & t & -> & Ht).
      destruct v; cbn [value after trace emit];
        rewrite ?handlersCalled_app, Ht; reflexivity.
  - rewrite registerActivityHandler_after. split; [exact Hrun | reflexivity].
  - rewrite unregisterActivityHandler_after. split; [exact Hrun | reflexivity].
  - rewrite unregisterAllActivityHandler_after. split; [exact Hrun |].
    destruct (log_each_trace r h) as (v & h2 & t & -> & Ht). exact Ht.
  - destruct (appendActivity_run a h) as (-> & called & rest & _ & Hc' & Hnone).
    split; [exact Hrun |].
    rewrite <- handled_trace, Hc', (Hnone Hrun). reflexivity.
  - rewrite stop_after. split; [reflexivity |].
    unfold stop, bind, emit; cbv zeta. cbn [get value after trace].
    rewrite Hrun. reflexivity.
Qed.

(** X18: a Hub delivers nothing before it is resumed: whatever methods
    are called on a Hub that is not running, in whatever order, no handler
    is called and the Hub stays stopped as long as none of the calls is
    [resume()]. *)
Theorem nothing_is_called_before_resume (cs : list Call) (h : HubImpl) :
  running h = false ->
  forallb (fun c => negb (isResume c)) cs = true ->
  handlersCalled (eventsOf cs h) = [] /\ running (afterCalls cs h) = false.
Proof.
  revert h. induction cs as [|c cs IH]; intros h Hrun Hcs; [now split |].
  cbn [forallb] in Hcs. apply andb_prop in Hcs as [Hc Hcs].
  apply negb_true_iff in Hc.
  destruct (call_running c h Hc Hrun) as [Hrun' Hnone].
  destruct (IH _ Hrun' Hcs) as [IHe IHr].
  cbn [eventsOf afterCalls]. rewrite handlersCalled_app, Hnone, IHe.
  now split.
Qed.

(** ** Worked examples *)

Lemma reachable_hub_running (first : ActivityHandler) :
  reachable (hub_running first).
Proof.
  apply (reachable_call Resume).
  apply (reachable_call (RegisterActivityHandler healthy_handler)).
  apply (reachable_call (RegisterActivityHandler first)).
  apply (reachable_call (ConnectFaculty "terminal" {| name := "terminal" |})).
  apply (reachable_call (ConnectFaculty "memory" {| name := "memory" |})).
  apply reachable_new.
Qed.

Lemma no_handler_called_twice_witness :
  reachable (hub_running rejecting_handler) /\
  List.NoDup (handled (appendActivity remembered (hub_running rejecting_handler))).
Proof.
  split; [apply reachable_hub_running |].
  apply no_handler_called_twice, reachable_hub_running.
Defined.

Lemma disconnect_removes_handlers_of_role_witness :
  reachable (hub_running rejecting_handler) /\
  is_Some (faculties (hub_running rejecting_handler) !! "memory") /\
  forall x,
    In x (all_handlers
            (after (disconnectFaculty "memory" (hub_running rejecting_handler)))) ->
    handler_role x <> "memory".
Proof.
  split; [apply reachable_hub_running |].
  assert (Hf : is_Some (faculties (hub_running rejecting_handler) !! "memory"))
    by (vm_compute; eauto).
  split; [exact Hf |].
  apply (disconnect_removes_handlers_of_role "memory"
           (hub_running rejecting_handler) (reachable_hub_running _)).
  exact Hf.
Defined.

Lemma stop_then_resume_witness :
  running (hub_running rejecting_handler) = true /\
  handled (appendActivity remembered
             (after (stop (hub_running rejecting_handler)))) = [] /\
  after (resume (after (stop (hub_running rejecting_handler))))
  = hub_running rejecting_handler.
Proof.
  split; [reflexivity |].
  apply (stop_then_resume remembered (hub_running rejecting_handler)).
  reflexivity.
Defined.

Lemma nothing_is_called_before_resume_witness :
  handlersCalled
    (eventsOf
       [ConnectFaculty "terminal" {| name := "terminal" |};
        RegisterActivityHandler healthy_handler;
        AppendActivity remembered; Stop]
       newHub) = [] /\
  running
    (afterCalls
       [ConnectFaculty "terminal" {| name := "terminal" |};
        RegisterActivityHandler healthy_handler;
        AppendActivity remembered; Stop]
       newHub) = false.
Proof.
  apply nothing_is_called_before_resume; reflexivity.
Defined.

End HubFacts.

(** * Properties of the port *)

Module PortFacts.

Import Hub HubCalls Port.

(** ** Identifiers *)

Lemma append_cons (c : ascii) (s t : string) :
  String c s +:+ t = String c (s +:+ t).
Proof. reflexivity. Qed.

Lemma append_assoc (s t u : string) : (s +:+ t) +:+ u = s +:+ t +:+ u.
Proof.
  induction s as [|c s IH]; [reflexivity |].
  rewrite !append_cons. now rewrite IH.
Qed.

Lemma parseDecimal_toString (n : nat) : parseDecimal (toString n) = Some n.
Proof.
  unfold parseDecimal, toString. rewrite NilEmpty.usu. cbn.
  now rewrite Unsigned.of_to.
Qed.

Lemma parseDecimal_padStart (k n : nat) :
  parseDecimal (padStart k "0" (toString n)) = Some n.
Proof.
  unfold padStart. induction (k - String.length (toString n))%nat as [|m IH].
  - apply parseDecimal_toString.
  - cbn [repeat_char]. rewrite append_cons.
    unfold parseDecimal in *. cbn [NilEmpty.uint_of_string].
    destruct (NilEmpty.uint_of_string (repeat_char "0" m +:+ toString n));
      [| discriminate].
    cbn in *. exact IH.
Qed.

Lemma has_dash_append (s t : string) :
  has_dash (s +:+ t) = has_dash s || has_dash t.
Proof.
  induction s as [|c s IH]; [reflexivity |].
  rewrite append_cons. cbn [has_dash]. now rewrite IH, orb_assoc.
Qed.

Lemma has_dash_digits (d : Decimal.uint) :
  has_dash (NilEmpty.string_of_uint d) = false.
Proof. induction d; cbn; assumption || reflexivity. Qed.

Lemma has_dash_padStart (k n : nat) :
  has_dash (padStart k "0" (toString n)) = false.
Proof.
  unfold padStart, toString. rewrite has_dash_append, has_dash_digits.
  induction (k - _)%nat as [|m IH]; [reflexivity | exact IH].
Qed.

Lemma afterLastDash_append (p s : string) :
  has_dash s = false -> afterLastDash (p +:+ "-" +:+ s) = s.
Proof.
  intros Hs. induction p as [|c p IH].
  - change (afterLastDash (String "-" s) = s). cbn [afterLastDash].
    now rewrite Hs.
  - rewrite append_cons. cbn [afterLastDash].
    rewrite has_dash_append. cbn [has_dash is_dash].
    replace (Ascii.eqb "-" "-") with true by reflexivity.
    rewrite orb_true_r. exact IH.
Qed.

Lemma generateUniqueId_sequence (role : option string) (now : Date) (n : nat) :
  snd (generateUniqueId role now n) = S n /\
  sequenceOf (fst (generateUniqueId role now n)) = Some (S n).
Proof.
  split; [reflexivity |].
  unfold generateUniqueId, sequenceOf; cbv zeta. cbn [fst].
  rewrite <- (append_assoc _ "-" (_ +:+ "-" +:+ _)).
  rewrite <- (append_assoc _ _ ("-" +:+ _)).
  rewrite afterLastDash_append by apply has_dash_padStart.
  apply parseDecimal_padStart.
Qed.

Lemma generateIds_sequence (calls : list (option string * Date)) (n : nat) :
  map sequenceOf (generateIds calls n) = map Some (seq (S n) (length calls)).
Proof.
  revert n. induction calls as [|[role now] rest IH]; intros n; [reflexivity |].
  cbn [generateIds map length seq].
  destruct (generateUniqueId_sequence role now n) as [-> ->].
  now rewrite IH.
Qed.

(** X19: the identifiers that [generateUniqueId] hands out are unique,
    whatever the roles and whatever the clock shows: the text behind the
    last dash of an identifier is the value of the counter
    [activitySequence] at its call, which grows by one with every call, so
    no two identifiers of a series of calls are equal. *)
Theorem generated_ids_are_unique (calls : list (option string * Date)) (n : nat) :
  List.NoDup (generateIds calls n) /\
  map sequenceOf (generateIds calls n) = map Some (seq (S n) (length calls)).
Proof.
  split; [| apply generateIds_sequence].
  apply (NoDup_map_inv sequenceOf). rewrite generateIds_sequence.
  apply Finite.Injective_map_NoDup; [intros x y [= ->]; reflexivity |].
  apply seq_NoDup.
Qed.

(** ** Activities and handlers of a port *)

(** X20: what a port sends.  [appendActivity(activity_body)] takes a new
    value of the counter whether or not the Hub is running, and every
    activity that a handler receives from it carries the role of the port,
    the body as given, the time of the second reading of the clock and an
    identifier with the new value of the counter.  While the Hub is not
    running the call only logs the warning, and the value of the counter is
    used up. *)
Theorem port_activity_is_stamped (port : HubPortImpl)
  (activity_body : ActivityBody) (now created : Date) (w : World) :
  let result := appendActivity port activity_body now created w in
  activitySequence (fst result) = S (activitySequence w) /\
  objects (fst result) = objects w /\
  (forall handler activity,
     In (Handle handler activity) (trace (snd result)) ->
     role activity = port_role port /\
     details activity = activity_body /\
     timestamp activity = getTime created /\
     sequenceOf (id activity) = Some (S (activitySequence w))) /\
  (running (hub w) = false ->
   snd result = mkRun (Normal tt) (hub w) [LogWarn "Hub 尚未启动"]).
Proof.
  cbv zeta. unfold appendActivity; cbv zeta. cbn [fst snd activitySequence objects].
  split; [reflexivity |]. split; [reflexivity |]. split.
  - intros handler activity Hin.
    apply HubFacts.appendActivity_hands in Hin. subst activity.
    cbn [role details timestamp id]. repeat split.
    apply generateUniqueId_sequence.
  - intros Hrun. unfold Hub.appendActivity, bind; cbv zeta.
    cbn [get value after trace]. rewrite Hrun. reflexivity.
Qed.

Lemma deleteFirst_length (handle : nat) (handlers : list Registered)
  (added : Registered) :
  registered_handle added = handle ->
  length (deleteFirst handle (handlers ++ [added])) = length handlers.
Proof.
  intros Hadded. induction handlers as [|x l IH]; cbn [app deleteFirst].
  - now rewrite Hadded, Nat.eqb_refl.
  - destruct (registered_handle x =? handle)%nat.
    + rewrite length_app. cbn. lia.
    + cbn [length]. now rewrite IH.
Qed.

Lemma deleteFirst_last (handle : nat) (handlers : list Registered)
  (added : Registered) :
  registered_handle added = handle ->
  ~ In handle (map registered_handle handlers) ->
  deleteFirst handle (handlers ++ [added]) = handlers.
Proof.
  intros Hadded. induction handlers as [|x l IH]; cbn [app deleteFirst map];
    intros Hnot.
  - now rewrite Hadded, Nat.eqb_refl.
  - destruct (registered_handle x =? handle)%nat eqn:Hx.
    + apply Nat.eqb_eq in Hx. exfalso. apply Hnot. now left.
    + rewrite IH; [reflexivity |]. intros Hin. apply Hnot. now right.
Qed.

Lemma set_add_new (x : ActivityHandler) (l : list ActivityHandler) (n : nat) :
  Forall (fun handler => (ref handler < n)%nat) l ->
  ref x = n ->
  set_add x l = l ++ [x].
Proof.
  intros Hall Hx. unfold set_add.
  destruct (set_has x l) eqn:Hhas; [| reflexivity].
  apply HubFacts.set_has_spec in Hhas as (twin & Hin & Href).
  rewrite List.Forall_forall in Hall. specialize (Hall twin Hin). lia.
Qed.

(** X21: a handler cannot be taken back through the port.  After
    [registerActivityHandler(condition, handle, description)] the Hub holds
    a new handler of the role of the port; [unregisterActivityHandler(handle)]
    then only drops one member from [registeredHandlers] of the port (the
    new one, when [handle] was not registered before) and leaves the Hub as
    it is, so that a running Hub still hands every activity that matches
    [condition] to the handler. *)
Theorem port_unregister_keeps_hub_handler (port : HubPortImpl)
  (condition : Condition) (handle : ActivityHandle) (description : string)
  (activity : Activity) (w : World) :
  allocated w ->
  running (hub w) = true ->
  conditions_return activity (all_handlers (hub w)) = true ->
  Forall (returns_promise activity) (matching activity (hub w)) ->
  isMatch activity
    (mkHandler (objects w) condition (port_role port) description
       (handle_body handle)) = Normal true ->
  let result := registerActivityHandler port condition handle description w in
  let w' := fst (fst result) in
  let port' :=
    unregisterActivityHandler (TargetFunction (handle_ref handle))
      (snd (fst result)) in
  length (registeredHandlers port') = length (registeredHandlers port) /\
  (~ In (handle_ref handle) (map registered_handle (registeredHandlers port)) ->
   port' = port) /\
  all_handlers (hub w')
  = all_handlers (hub w) ++
    [mkHandler (objects w) condition (port_role port) description
       (handle_body handle)] /\
  handled (Hub.appendActivity activity (hub w'))
  = handled (Hub.appendActivity activity (hub w)) ++ [objects w] /\
  allocated w'.
Proof.
  intros Halloc Hrun Hcond Hhandle Hmatch. cbv zeta.
  unfold registerActivityHandler; cbv zeta. cbn [fst snd].
  set (handler := mkHandler (objects w) condition (port_role port) description
                    (handle_body handle)) in *.
  cbn [unregisterActivityHandler unregisterByHandle registeredHandlers port_role hub].
  rewrite HubFacts.registerActivityHandler_after.
  assert (Hadd : set_add handler (all_handlers (hub w))
                 = all_handlers (hub w) ++ [handler])
    by (apply (set_add_new _ _ (objects w)); [exact Halloc | reflexivity]).
  split; [| split; [| split; [| split]]].
  - unfold unregisterByHandle. cbn [registeredHandlers port_role].
    now apply deleteFirst_length.
  - intros Hnot. unfold unregisterByHandle. cbn [registeredHandlers port_role].
    rewrite (deleteFirst_last (handle_ref handle) (registeredHandlers port)
               {| registered := handler; registered_handle := handle_ref handle |}
               eq_refl Hnot).
    now destruct port.
  - cbn [all_handlers]. exact Hadd.
  - rewrite !HubFacts.appendActivity_called. cbn [running all_handlers].
    rewrite Hrun, Hcond, Hadd. unfold conditions_return in *.
    rewrite forallb_app, Hcond. cbn [forallb andb]. rewrite Hmatch. cbn [andb].
    unfold matching in *. cbn [all_handlers]. rewrite List.filter_app.
    cbn [List.filter]. rewrite Hmatch.
    rewrite (HubFacts.upToThrow_all activity _ handler Hhandle).
    rewrite (HubFacts.upToThrow_returns activity _ Hhandle).
    now rewrite map_app.
  - unfold allocated in *. cbn [hub all_handlers objects]. rewrite Hadd.
    apply Forall_app. split.
    + eapply List.Forall_impl; [| exact Halloc]. cbn. intros x Hx. lia.
    + repeat constructor.
Qed.

Lemma port_unregister_keeps_hub_handler_witness :
  allocated world_running /\
  In 3%nat
    (handled
       (Hub.appendActivity remembered
          (hub
             (fst
                (fst
                   (registerActivityHandler (newPort "memory")
                      (Mask any_activity) listening "memory: listens"
                      world_running)))))).
Proof.
  assert (Halloc : allocated world_running)
    by (unfold allocated; cbn; repeat constructor).
  split; [exact Halloc |].
  pose proof (port_unregister_keeps_hub_handler (newPort "memory")
                (Mask any_activity) listening "memory: listens" remembered
                world_running Halloc eq_refl eq_refl) as Hkeeps.
  cbv zeta in Hkeeps.
  destruct Hkeeps as (_ & _ & _ & Hcalled & _).
  - cbn. repeat constructor; eexists; reflexivity.
  - reflexivity.
  - rewrite Hcalled. apply in_or_app. right. now left.
Defined.

End PortFacts.

(** * Properties of the filters *)

Module FilterFacts.
Import Filters.

Lemma every_map {A B : Type} (f : A -> B) (callback : B -> completion bool)
  (l : list A) :
  every callback (map f l) = every (fun x => callback (f x)) l.
Proof.
  induction l as [|x l IH]; [reflexivity |]. cbn.
  destruct (callback (f x)) as [[|]|]; auto.
Qed.

Lemma some_map {A B : Type} (f : A -> B) (callback : B -> completion bool)
  (l : list A) :
  some callback (map f l) = some (fun x => callback (f x)) l.
Proof.
  induction l as [|x l IH]; [reflexivity |]. cbn.
  destruct (callback (f x)) as [[|]|]; auto.
Qed.

Lemma not_every {A : Type} (callback : A -> completion bool) (l : list A) :
  negated (every callback l) = some (fun x => negated (callback x)) l.
Proof.
  induction l as [|x l IH]; [reflexivity |]. cbn.
  destruct (callback x) as [[|]|]; cbn; auto.
Qed.

Lemma not_some {A : Type} (callback : A -> completion bool) (l : list A) :
  negated (some callback l) = every (fun x => negated (callback x)) l.
Proof.
  induction l as [|x l IH]; [reflexivity |]. cbn.
  destruct (callback x) as [[|]|]; cbn; auto.
Qed.

(** X22: De Morgan's laws hold of the combined filters, exceptions
    included: [NotFilter] over an [AndFilter] matches an activity, rejects
    it or throws exactly as the [OrFilter] of the negated filters does, and
    [NotFilter] over an [OrFilter] as the [AndFilter] of the negated
    filters. *)
Theorem filters_de_morgan (filters : list ActivityFilter) (activity : Activity) :
  matches (NotFilter (AndFilter filters)) activity
  = matches (OrFilter (map NotFilter filters)) activity /\
  matches (NotFilter (OrFilter filters)) activity
  = matches (AndFilter (map NotFilter filters)) activity.
Proof.
  split.
  - cbn [matches]. rewrite some_map.
    apply (not_every (fun filter => matches filter activity)).
  - cbn [matches]. rewrite every_map.
    apply (not_some (fun filter => matches filter activity)).
Qed.

Lemma optional_names (make : Names -> ActivityFilter)
  (field : Activity -> string) (option : option Names) (activity : Activity) :
  (forall names, matches (make names) activity
                 = Normal (includes (toArray names) (field activity))) ->
  matches (optional make option) activity
  = Normal (negb match option with
                 | Some names => negb (includes (toArray names) (field activity))
                 | None => false
                 end).
Proof.
  intros Hmake. destruct option as [names|]; cbn; [| reflexivity].
  now rewrite Hmake, negb_involutive.
Qed.

(** X23: [CommonActivityFilter] is the conjunction of the specialised
    classes: of [FacultyNameFilter], [VerbFilter] and [CustomFilter] for the
    options that are given, in this order, and of the priority range for
    conscious activities only.  On an activity that is not conscious
    [PriorityRangeFilter] never matches, while [CommonActivityFilter]
    ignores its priority bounds. *)
Theorem common_filter_is_assembled (options : CommonOptions) (activity : Activity) :
  matches (CommonActivityFilter options) activity
  = matches (assembled options) activity /\
  (conscious activity = None ->
   matches (PriorityRangeFilter (opt_minPriority options) (opt_maxPriority options))
     activity = Normal false /\
   matches (CommonActivityFilter options) activity
   = matches
       (CommonActivityFilter
          (mkOptions (opt_faculty_name options) (opt_verb options) None None
             (opt_custom options)))
       activity).
Proof.
  split.
  - unfold assembled. cbn [matches every some].
    rewrite (optional_names FacultyNameFilter faculty_name) by reflexivity.
    rewrite (optional_names VerbFilter verb) by reflexivity.
    destruct (match opt_faculty_name options with
              | Some names => negb (includes (toArray names) (faculty_name activity))
              | None => false
              end); cbn [negb]; [reflexivity |].
    destruct (match opt_verb options with
              | Some verbs => negb (includes (toArray verbs) (verb activity))
              | None => false
              end); cbn [negb]; [reflexivity |].
    destruct (conscious activity) as [priority|]; cbn [negb].
    + destruct (below priority (opt_minPriority options)); [reflexivity |].
      destruct (above priority (opt_maxPriority options)); [reflexivity |].
      destruct (opt_custom options) as [custom|]; cbn; [| reflexivity].
      destruct (custom activity) as [[|]|]; reflexivity.
    + destruct (opt_custom options) as [custom|]; cbn; [| reflexivity].
      destruct (custom activity) as [[|]|]; reflexivity.
  - intros Hnone. cbn [matches opt_faculty_name opt_verb opt_minPriority
                         opt_maxPriority opt_custom].
    rewrite Hnone. split; reflexivity.
Qed.

Lemma every_app {A : Type} (callback : A -> completion bool) (l1 l2 : list A) :
  every callback (l1 ++ l2)
  = match every callback l1 with
    | Normal true => every callback l2
    | other => other
    end.
Proof.
  induction l1 as [|x l1 IH]; [reflexivity |]. cbn.
  destruct (callback x) as [[|]|]; auto.
Qed.

Lemma some_app {A : Type} (callback : A -> completion bool) (l1 l2 : list A) :
  some callback (l1 ++ l2)
  = match some callback l1 with
    | Normal false => some callback l2
    | other => other
    end.
Proof.
  induction l1 as [|x l1 IH]; [reflexivity |]. cbn.
  destruct (callback x) as [[|]|]; auto.
Qed.

(** X24: combined filters nest and have units: an [AndFilter] (an
    [OrFilter]) of two lists put together decides as the [AndFilter]
    ([OrFilter]) of the two combined filters; without filters [AndFilter]
    matches everything and [OrFilter] nothing; a combination of one filter,
    and a filter negated twice, decide as the filter itself.  All of it
    holds with filters that throw. *)
Theorem filters_nest (first second : list ActivityFilter) (filter : ActivityFilter)
  (activity : Activity) :
  matches (AndFilter (first ++ second)) activity
  = matches (AndFilter [AndFilter first; AndFilter second]) activity /\
  matches (OrFilter (first ++ second)) activity
  = matches (OrFilter [OrFilter first; OrFilter second]) activity /\
  matches (AndFilter []) activity = matches AllActivityFilter activity /\
  matches (OrFilter []) activity = matches (NotFilter AllActivityFilter) activity /\
  matches (AndFilter [filter]) activity = matches filter activity /\
  matches (OrFilter [filter]) activity = matches filter activity /\
  matches (NotFilter (NotFilter filter)) activity = matches filter activity.
Proof.
  repeat split.
  - cbn [matches every]. rewrite every_app.
    destruct (every _ first) as [[|]|]; [| reflexivity | reflexivity].
    destruct (every _ second) as [[|]|]; reflexivity.
  - cbn [matches some]. rewrite some_app.
    destruct (some _ first) as [[|]|]; [reflexivity | | reflexivity].
    destruct (some _ second) as [[|]|]; reflexivity.
  - cbn. destruct (matches filter activity) as [[|]|]; reflexivity.
  - cbn. destruct (matches filter activity) as [[|]|]; reflexivity.
  - cbn. destruct (matches filter activity) as [[|]|]; reflexivity.
Qed.
End FilterFacts.

(** * Properties of the Hub that keeps an array of registrations *)

Module ArrayHubFacts.

Import Filters ArrayHub.

Lemma matchedHandlers_spec (activity : Activity) (regs : list HandlerRegistration) :
  matchedHandlers activity regs
  = (map handler
       (List.filter
          (fun reg =>
             match isMatch activity reg with Normal b => b | Throw _ => false end)
          regs),
     matchErrors activity regs).
Proof.
  induction regs as [|reg rest IH]; [reflexivity |].
  cbn [matchedHandlers List.filter matchErrors flat_map]. rewrite IH.
  destruct (isMatch activity reg) as [[|]|]; reflexivity.
Qed.

Lemma calledIn_app (t1 t2 : list Event) :
  calledIn (t1 ++ t2) = calledIn t1 ++ calledIn t2.
Proof. apply flat_map_app. Qed.

Lemma matchErrors_quiet (activity : Activity) (regs : list HandlerRegistration) :
  calledIn (matchErrors activity regs) = [].
Proof.
  induction regs as [|reg rest IH]; [reflexivity |].
  cbn [matchErrors flat_map]. rewrite calledIn_app.
  fold (matchErrors activity rest). rewrite IH.
  destruct (isMatch activity reg); reflexivity.
Qed.

Lemma array_callHandlers_called (activity : Activity) (matched : list ActivityHandler) :
  calledIn (snd (callHandlers activity matched))
  = map ref (upToThrow activity matched).
Proof.
  induction matched as [|x rest IH]; [reflexivity |].
  cbn [callHandlers upToThrow map].
  destruct (handle x activity); cbn [snd calledIn flat_map app map]; [| reflexivity].
  fold (calledIn (snd (callHandlers activity rest))). now rewrite IH.
Qed.

Lemma arrayhub_called (activity : Activity) (h : HubImpl) :
  handled (appendActivity activity h)
  = if running h
    then map ref (upToThrow activity (map handler (matching activity h)))
    else [].
Proof.
  unfold appendActivity. destruct (running h); cbn [negb]; [| reflexivity].
  unfold handled. cbn [trace]. rewrite calledIn_app.
  replace (calledIn match faculties h !! faculty_name activity with
                    | Some _ => []
                    | None => _
                    end) with (@nil nat)
    by (destruct (faculties h !! faculty_name activity); reflexivity).
  cbn [app calledIn flat_map]. fold (calledIn (snd (triggerHandlers activity h))).
  unfold triggerHandlers; cbv zeta. cbn [snd].
  rewrite calledIn_app, matchedHandlers_spec. cbn [fst snd].
  now rewrite matchErrors_quiet, array_callHandlers_called.
Qed.

Lemma upToThrow_in (activity : Activity) (matched : list ActivityHandler)
  (x : ActivityHandler) :
  In x (upToThrow activity matched) -> In x matched.
Proof.
  induction matched as [|y rest IH]; [intros [] |].
  cbn [upToThrow]. intros [->|Hin]; [now left |].
  destruct (handle y activity); [right; now apply IH | destruct Hin].
Qed.

Lemma upToThrow_returning (activity : Activity) (regs : list HandlerRegistration) :
  Forall (fun reg => exists p, handle (handler reg) activity = Normal p) regs ->
  upToThrow activity (map handler regs) = map handler regs /\
  exists promises, fst (callHandlers activity (map handler regs)) = Normal promises.
Proof.
  induction 1 as [|reg rest [p Hp] _ [IH [promises IHp]]].
  - split; [reflexivity | now exists []].
  - cbn [map upToThrow callHandlers]. rewrite Hp, IH. split; [reflexivity |].
    cbn [fst]. rewrite IHp. eauto.
Qed.

Lemma called_is_registered (activity : Activity) (h : HubImpl) (x : nat) :
  In x (handled (appendActivity activity h)) ->
  exists reg,
    In reg (handlerRegistrations h) /\ ref (handler reg) = x /\
    isMatch activity reg = Normal true.
Proof.
  rewrite arrayhub_called. destruct (running h); [| intros []].
  intros Hin. apply in_map_iff in Hin as (y & Href & Hin).
  apply upToThrow_in in Hin. apply in_map_iff in Hin as (reg & <- & Hin).
  unfold matching in Hin. apply filter_In in Hin as [Hin Hm].
  exists reg. repeat split; [exact Hin | exact Href |].
  destruct (isMatch activity reg) as [[|]|]; congruence.
Qed.

(** X25: in the Hub that keeps an array of registrations, a filter that
    throws is logged and counts as no match, and the other registrations
    are tried all the same.  A running Hub calls the handlers of the
    registrations that match, in the order of registration, up to and
    including the first whose [handle] throws; when each of them returns a
    promise, [appendActivity] returns and all of them are called. *)
Theorem throwing_filter_is_skipped (activity : Activity) (h : HubImpl) :
  handled (appendActivity activity h)
  = (if running h
     then map ref (upToThrow activity (map handler (matching activity h)))
     else []) /\
  (running h = true ->
   (forall reg error,
      In reg (handlerRegistrations h) ->
      isMatch activity reg = Throw error ->
      In (LogError ("处理器匹配异常: " +:+ description (handler reg)) error)
        (trace (appendActivity activity h))) /\
   (Forall (fun reg => exists p, handle (handler reg) activity = Normal p)
      (matching activity h) ->
    value (appendActivity activity h) = Normal tt /\
    handled (appendActivity activity h)
    = map ref (map handler (matching activity h)))).
Proof.
  split; [apply arrayhub_called |].
  intros Hrun. split.
  - intros reg error Hin Hthrow. unfold appendActivity. rewrite Hrun.
    cbn [negb trace]. apply in_or_app. right. right.
    unfold triggerHandlers; cbv zeta. cbn [snd].
    apply in_or_app. left. rewrite matchedHandlers_spec. cbn [snd].
    unfold matchErrors. apply in_flat_map. exists reg.
    split; [exact Hin |]. rewrite Hthrow. now left.
  - intros Hret. destruct (upToThrow_returning activity _ Hret) as [Hall [promises Hp]].
    split.
    + unfold appendActivity. rewrite Hrun. cbn [negb value].
      unfold triggerHandlers; cbv zeta. cbn [fst].
      rewrite matchedHandlers_spec. cbn [fst].
      fold (matching activity h). now rewrite Hp.
    + now rewrite arrayhub_called, Hrun, Hall.
Qed.

(** X26: [unregisterActivityHandler] of this Hub.  Given a handler, it
    removes every registration of that handler and no other, and the
    handler is not called any more.  Given a filter, it removes the
    registrations made with that filter and no other: a registration made
    with a condition always stays. *)
Theorem array_unregister (x : ActivityHandler) (f : FilterFunction)
  (activity : Activity) (h : HubImpl) :
  (let h' := after (unregisterActivityHandler (TheHandler x) h) in
   (forall reg,
      In reg (handlerRegistrations h') <->
      In reg (handlerRegistrations h) /\ ref (handler reg) <> ref x) /\
   ~ In (ref x) (handled (appendActivity activity h'))) /\
  (let h' := after (unregisterActivityHandler (TheFilter f) h) in
   forall reg,
     In reg (handlerRegistrations h') <->
     In reg (handlerRegistrations h) /\
     forall g, filter reg = Some g -> filter_ref g <> filter_ref f).
Proof.
  cbv zeta. cbn [unregisterActivityHandler after handlerRegistrations].
  split; [split |].
  - intros reg. rewrite filter_In, negb_true_iff, Nat.eqb_neq. reflexivity.
  - intros Hin. apply called_is_registered in Hin as (reg & Hin & Href & _).
    cbn [handlerRegistrations] in Hin.
    apply filter_In in Hin as [_ Hne].
    rewrite Href, Nat.eqb_refl in Hne. discriminate.
  - intros reg. rewrite filter_In. split; intros [Hin Hf]; (split; [exact Hin |]).
    + intros g Hg. rewrite Hg in Hf. now apply Nat.eqb_neq, negb_true_iff.
    + destruct (filter reg) as [g|]; [| reflexivity].
      apply negb_true_iff, Nat.eqb_neq. now apply Hf.
Qed.

(** X27: [disconnectFaculty(facultyName)] of this Hub, for a faculty that
    is connected, frees the name and removes the registrations of the
    handlers of faculties of that name, and no other: afterwards every
    handler that is called belongs to another faculty.  For a name that is
    not connected it only logs a warning. *)
Theorem array_disconnect (facultyName : string) (activity : Activity) (h : HubImpl) :
  let h' := after (disconnectFaculty facultyName h) in
  (is_Some (faculties h !! facultyName) ->
   faculties h' !! facultyName = None /\
   (forall reg,
      In reg (handlerRegistrations h') <->
      In reg (handlerRegistrations h) /\
      name (faculty (handler reg)) <> facultyName) /\
   (forall x,
      In x (handled (appendActivity activity h')) ->
      exists reg,
        In reg (handlerRegistrations h) /\ ref (handler reg) = x /\
        name (faculty (handler reg)) <> facultyName)) /\
  (faculties h !! facultyName = None ->
   disconnectFaculty facultyName h
   = mkRun (Normal tt) h [LogWarn ("Faculty " +:+ facultyName +:+ " 不存在")]).
Proof.
  cbv zeta. unfold disconnectFaculty. split.
  - intros [held Hheld]. rewrite Hheld. cbn [after faculties handlerRegistrations].
    assert (Hregs : forall reg,
               In reg
                 (List.filter
                    (fun reg =>
                       negb (String.eqb (name (faculty (handler reg))) facultyName))
                    (handlerRegistrations h)) <->
               In reg (handlerRegistrations h) /\
               name (faculty (handler reg)) <> facultyName).
    { intros reg. rewrite filter_In, negb_true_iff, String.eqb_neq. reflexivity. }
    split; [apply lookup_delete_eq |]. split; [exact Hregs |].
    intros x Hin. apply called_is_registered in Hin as (reg & Hin & Href & _).
    cbn [handlerRegistrations] in Hin. apply Hregs in Hin as [Hin Hne].
    eauto.
  - intros Hnone. now rewrite Hnone.
Qed.

(** X28: this Hub keeps every registration: a handler that is registered
    twice is called twice for each activity that matches.  The Hub runs,
    the handlers that match return promises, and so does the handler that
    is registered, whose filter or condition holds of the activity. *)
Theorem array_registrations_repeat (filterOrCondition : FilterOrCondition)
  (x : ActivityHandler) (activity : Activity) (h : HubImpl) :
  running h = true ->
  Forall (fun reg => exists p, handle (handler reg) activity = Normal p)
    (matching activity h) ->
  isMatch activity (registration filterOrCondition x) = Normal true ->
  (exists p, handle x activity = Normal p) ->
  let once := after (registerActivityHandler filterOrCondition x h) in
  let twice := after (registerActivityHandler filterOrCondition x once) in
  handled (appendActivity activity once)
  = handled (appendActivity activity h) ++ [ref x] /\
  handled (appendActivity activity twice)
  = handled (appendActivity activity h) ++ [ref x; ref x].
Proof.
  intros Hrun Hret Hmatch Hx. cbv zeta.
  cbn [registerActivityHandler after].
  assert (Hhandler : handler (registration filterOrCondition x) = x)
    by (destruct filterOrCondition; reflexivity).
  assert (Hstep : forall regs,
             Forall (fun reg => exists p, handle (handler reg) activity = Normal p)
               (List.filter
                  (fun reg =>
                     match isMatch activity reg with
                     | Normal b => b
                     | Throw _ => false
                     end) regs) ->
             let h' := {| faculties := faculties h; running := running h;
                          handlerRegistrations :=
                            regs ++ [registration filterOrCondition x] |} in
             Forall (fun reg => exists p, handle (handler reg) activity = Normal p)
               (matching activity h') /\
             handled (appendActivity activity h')
             = map ref
                 (map handler
                    (List.filter
                       (fun reg =>
                          match isMatch activity reg with
                          | Normal b => b
                          | Throw _ => false
                          end) regs)) ++ [ref x]).
  { intros regs Hregs. cbv zeta.
    assert (Hm : matching activity
                   {| faculties := faculties h; running := running h;
                      handlerRegistrations :=
                        regs ++ [registration filterOrCondition x] |}
                 = List.filter
                     (fun reg =>
                        match isMatch activity reg with
                        | Normal b => b
                        | Throw _ => false
                        end) regs ++ [registration filterOrCondition x]).
    { unfold matching. cbn [handlerRegistrations]. rewrite List.filter_app.
      cbn [List.filter]. now rewrite Hmatch. }
    assert (Hall : Forall
                     (fun reg => exists p, handle (handler reg) activity = Normal p)
                     (matching activity
                        {| faculties := faculties h; running := running h;
                           handlerRegistrations :=
                             regs ++ [registration filterOrCondition x] |})).
    { rewrite Hm. apply List.Forall_app. split; [exact Hregs |].
      constructor; [now rewrite Hhandler | constructor]. }
    split; [exact Hall |].
    rewrite arrayhub_called. cbn [running].
    rewrite (proj1 (upToThrow_returning activity _ Hall)), Hm, Hrun.
    rewrite !map_app. cbn [map]. now rewrite Hhandler. }
  destruct (Hstep (handlerRegistrations h) Hret) as [Hall1 Hh1].
  assert (Hbase : handled (appendActivity activity h)
                  = map ref (map handler (matching activity h))).
  { rewrite arrayhub_called, Hrun.
    now rewrite (proj1 (upToThrow_returning activity _ Hret)). }
  split.
  - rewrite Hbase. exact Hh1.
  - destruct (Hstep (handlerRegistrations h ++ [registration filterOrCondition x])
                Hall1) as [_ Hh2].
    cbn [faculties running handlerRegistrations] in *.
    rewrite Hh2. rewrite List.filter_app. cbn [List.filter]. rewrite Hmatch.
    rewrite !map_app. cbn [map]. rewrite Hhandler, Hbase. unfold matching.
    now rewrite <- app_assoc.
Qed.

Lemma array_registrations_repeat_witness :
  handled
    (appendActivity said
       (after
          (registerActivityHandler anything echo
             (after (registerActivityHandler anything echo array_hub_running)))))
  = [1; 1]%nat.
Proof.
  apply (array_registrations_repeat anything echo said array_hub_running).
  - reflexivity.
  - constructor.
  - reflexivity.
  - eexists. reflexivity.
Defined.

End ArrayHubFacts.
